(** * MSHNet with partial convolutions (model/PConv.py): layer graph and
      shape semantics

    The source file [model/PConv.py] builds a U-shaped network out of
    [torch.nn] layers.  This development has three parts.

    - The constructors ([__init__]) of every class of the file, translated
      to functions that build records of layer descriptors; the
      constructors of the residual block and of the network fail with
      [None] where the source raises.
    - The [forward] methods, translated once, generically over a
      [Runtime]: the tensor operations that the source delegates to the
      tensor library (convolution, normalisation, pooling, ...).
    - One instance of [Runtime], [shape_runtime], that follows the shape
      rules and the shape checks of the tensor library on 4-D tensors
      (batch, channel, height, width), failing with [None] where the
      library raises.

    Python integers are unbounded and are modelled by [Z]; Python's floor
    division [//] is [Z.div]. *)

From Stdlib Require Import ZArith List Bool Lia.
Import ListNotations.
Open Scope Z_scope.

(** ** Failure: a raised exception is [None] *)

Definition bind {A B : Type} (m : option A) (f : A -> option B) : option B :=
  match m with
  | Some a => f a
  | None => None
  end.

Notation "x <- m ;; k" := (bind m (fun x => k))
  (at level 61, m at next level, right associativity).

Fixpoint mapM {A B : Type} (f : A -> option B) (l : list A) : option (list B) :=
  match l with
  | [] => Some []
  | a :: l' => b <- f a ;; bs <- mapM f l' ;; Some (b :: bs)
  end.

(** [range(n)] for a Python integer [n]: empty when [n <= 0]. *)
Definition range (n : Z) : list nat := seq 0 (Z.to_nat n).

(** ** Layer descriptors of [torch.nn] *)

(** An argument that is either an [int] or a pair of ints. *)
Inductive IntOrPair : Type :=
| Int (k : Z)
| Pair (a b : Z).

Definition _pair (k : IntOrPair) : Z * Z :=
  match k with
  | Int k => (k, k)
  | Pair a b => (a, b)
  end.

Record Conv2d : Type := mkConv2d {
  in_channels : Z;
  out_channels : Z;
  kernel_size : Z * Z;
  stride : Z * Z;
  padding : Z * Z;
  dilation : Z * Z;
  groups : Z;
  bias : bool
}.

(** [nn.Conv2d(in_channels, out_channels, kernel_size, stride, padding,
    dilation=dilation, groups=groups, bias=bias)]. *)
Definition nn_Conv2d (cin cout : Z) (k s p d : IntOrPair) (g : Z) (b : bool)
  : Conv2d :=
  {| in_channels := cin; out_channels := cout; kernel_size := _pair k;
     stride := _pair s; padding := _pair p; dilation := _pair d;
     groups := g; bias := b |}.

Record BatchNorm2d : Type := nn_BatchNorm2d { num_features : Z }.

(** [nn.ZeroPad2d(padding=(left, right, top, bottom))]. *)
Record ZeroPad2d : Type := mkZeroPad2d {
  pad_left : Z; pad_right : Z; pad_top : Z; pad_bottom : Z
}.

Definition nn_ZeroPad2d (p : Z * Z * Z * Z) : ZeroPad2d :=
  let '(l, r, t, b) := p in
  {| pad_left := l; pad_right := r; pad_top := t; pad_bottom := b |}.

Record MaxPool2d : Type := nn_MaxPool2d { pool_kernel : Z; pool_stride : Z }.

Inductive UpsampleMode : Type := nearest | bilinear.

(** [nn.Upsample(scale_factor=.., mode=.., align_corners=..)]. *)
Record Upsample : Type := nn_Upsample {
  scale_factor : Z; mode : UpsampleMode; align_corners : bool
}.

Record AdaptiveAvgPool2d : Type := nn_AdaptiveAvgPool2d { avg_output_size : Z }.
Record AdaptiveMaxPool2d : Type := nn_AdaptiveMaxPool2d { max_output_size : Z }.

(** The elementwise activation modules the file instantiates. *)
Inductive Activation : Type := SiLU | ReLU | Sigmoid | Identity.

(** ** [autopad] and [Conv] *)

(** [def autopad(k, p=None, d=1)]. *)
Definition autopad (k : IntOrPair) (p : option IntOrPair) (d : Z) : IntOrPair :=
  let k := if 1 <? d
           then match k with
                | Int k => Int (d * (k - 1) + 1)
                | Pair a b => Pair (d * (a - 1) + 1) (d * (b - 1) + 1)
                end
           else k in
  match p with
  | None => match k with
            | Int k => Int (k / 2)
            | Pair a b => Pair (a / 2) (b / 2)
            end
  | Some p => p
  end.

(** The [act] argument of [Conv]: [True]/[False] or a module. *)
Inductive ActArg : Type :=
| ActBool (b : bool)
| ActModule (m : Activation).

Record Conv : Type := mkConv {
  Conv_conv : Conv2d;
  Conv_bn : BatchNorm2d;
  Conv_act : Activation
}.

(** [Conv.default_act = nn.SiLU()]. *)
Definition default_act : Activation := SiLU.

(** [Conv.__init__(self, c1, c2, k=1, s=1, p=None, g=1, d=1, act=True)]. *)
Definition Conv_init (c1 c2 : Z) (k : IntOrPair) (s : Z) (p : option IntOrPair)
    (g d : Z) (act : ActArg) : Conv :=
  {| Conv_conv := nn_Conv2d c1 c2 k (Int s) (autopad k p d) (Int d) g false;
     Conv_bn := nn_BatchNorm2d c2;
     Conv_act := match act with
                 | ActBool true => default_act
                 | ActModule m => m
                 | ActBool false => Identity
                 end |}.

(** ** [PConv] *)

Record PConv : Type := mkPConv {
  pad : list ZeroPad2d;
  cw : Conv;
  ch : Conv;
  cat : Conv
}.

(** [PConv.__init__(self, c1, c2, k, s)]. *)
Definition PConv_init (c1 c2 k s : Z) : PConv :=
  let p := [(k, 0, 1, 0); (0, k, 0, 1); (0, 1, k, 0); (1, 0, 0, k)] in
  {| pad := map (fun g => nn_ZeroPad2d (nth g p (0, 0, 0, 0))) (range 4);
     cw := Conv_init c1 (c2 / 4) (Pair 1 k) s (Some (Int 0)) 1 1 (ActBool true);
     ch := Conv_init c1 (c2 / 4) (Pair k 1) s (Some (Int 0)) 1 1 (ActBool true);
     cat := Conv_init c2 c2 (Int 2) 1 (Some (Int 0)) 1 1 (ActBool true) |}.

(** ** [ChannelAttention] and [SpatialAttention] *)

Record ChannelAttention : Type := mkChannelAttention {
  avg_pool : AdaptiveAvgPool2d;
  max_pool : AdaptiveMaxPool2d;
  fc1 : Conv2d;
  relu1 : Activation;
  fc2 : Conv2d;
  ca_sigmoid : Activation
}.

(** [ChannelAttention.__init__(self, in_planes, ratio=16)]: the reduction
    is the literal 16, the [ratio] argument is not read. *)
Definition ChannelAttention_init (in_planes ratio : Z) : ChannelAttention :=
  {| avg_pool := nn_AdaptiveAvgPool2d 1;
     max_pool := nn_AdaptiveMaxPool2d 1;
     fc1 := nn_Conv2d in_planes (in_planes / 16) (Int 1) (Int 1) (Int 0) (Int 1) 1 false;
     relu1 := ReLU;
     fc2 := nn_Conv2d (in_planes / 16) in_planes (Int 1) (Int 1) (Int 0) (Int 1) 1 false;
     ca_sigmoid := Sigmoid |}.

Record SpatialAttention : Type := mkSpatialAttention {
  sa_conv1 : Conv2d;
  sa_sigmoid : Activation
}.

(** [SpatialAttention.__init__(self, kernel_size=7)]; the [assert] on the
    kernel size fails with [None]. *)
Definition SpatialAttention_init (kernel_size : Z) : option SpatialAttention :=
  if (kernel_size =? 3) || (kernel_size =? 7) then
    let padding := if kernel_size =? 7 then 3 else 1 in
    Some {| sa_conv1 := nn_Conv2d 2 1 (Int kernel_size) (Int 1) (Int padding) (Int 1) 1 false;
            sa_sigmoid := Sigmoid |}
  else None.

(** ** [ResNet]: the residual block *)

(** [self.conv1] and [self.conv2] hold either an [nn.Conv2d] or a [PConv]. *)
Inductive ConvLayer : Type :=
| StdConv (c : Conv2d)
| PartialConv (p : PConv).

Record ResNet : Type := mkResNet {
  PC : bool;
  conv1 : ConvLayer;
  conv2 : ConvLayer;
  bn1 : BatchNorm2d;
  relu : Activation;
  bn2 : BatchNorm2d;
  shortcut : option (Conv2d * BatchNorm2d);
  ca : ChannelAttention;
  sa : SpatialAttention
}.

(** *** Construction of the layers

    [nn.Conv2d] and [nn.BatchNorm2d] allocate their parameters when they
    are constructed: the constructor raises on a negative number of
    channels or a negative kernel extent, and [nn.Conv2d] also on groups
    that are not positive or do not divide the channel counts.  The
    functions below say of a descriptor, and of the units of this file
    built from descriptors, whether every layer in it can be constructed.
    [Conv_init], [PConv_init] and [ChannelAttention_init] build the
    descriptors of a unit for all arguments; the checks are made where the
    units are assembled, in [ResNet_init] and [MSHNet_init]. *)

Definition Conv2d_constructs (c : Conv2d) : bool :=
  (0 <? groups c)
  && (in_channels c mod groups c =? 0) && (out_channels c mod groups c =? 0)
  && (0 <=? out_channels c) && (0 <=? in_channels c / groups c)
  && (0 <=? fst (kernel_size c)) && (0 <=? snd (kernel_size c)).

Definition BatchNorm2d_constructs (b : BatchNorm2d) : bool :=
  0 <=? num_features b.

Definition Conv_constructs (m : Conv) : bool :=
  Conv2d_constructs (Conv_conv m) && BatchNorm2d_constructs (Conv_bn m).

Definition PConv_constructs (m : PConv) : bool :=
  Conv_constructs (cw m) && Conv_constructs (ch m) && Conv_constructs (cat m).

Definition ChannelAttention_constructs (m : ChannelAttention) : bool :=
  Conv2d_constructs (fc1 m) && Conv2d_constructs (fc2 m).

Definition ConvLayer_constructs (l : ConvLayer) : bool :=
  match l with
  | StdConv c => Conv2d_constructs c
  | PartialConv p => PConv_constructs p
  end.

Definition shortcut_constructs (s : option (Conv2d * BatchNorm2d)) : bool :=
  match s with
  | Some (c, b) => Conv2d_constructs c && BatchNorm2d_constructs b
  | None => true
  end.

(** [ResNet.__init__(self, in_channels, out_channels, stride=1, PC=False)]:
    it raises where the constructor of one of its layers does, and on the
    [assert] of [SpatialAttention]. *)
Definition ResNet_init (in_channels out_channels stride : Z) (PC : bool)
  : option ResNet :=
  let conv1 :=
    if PC then PartialConv (PConv_init in_channels out_channels 4 stride)
    else StdConv (nn_Conv2d in_channels out_channels (Int 3) (Int stride) (Int 1) (Int 1) 1 true) in
  let conv2 :=
    if PC then PartialConv (PConv_init out_channels out_channels 3 stride)
    else StdConv (nn_Conv2d out_channels out_channels (Int 3) (Int 1) (Int 1) (Int 1) 1 true) in
  let shortcut :=
    if negb (stride =? 1) || negb (out_channels =? in_channels) then
      Some (nn_Conv2d in_channels out_channels (Int 1) (Int stride) (Int 0) (Int 1) 1 true,
            nn_BatchNorm2d out_channels)
    else None in
  if ConvLayer_constructs conv1
     && BatchNorm2d_constructs (nn_BatchNorm2d out_channels)
     && ConvLayer_constructs conv2
     && shortcut_constructs shortcut
     && ChannelAttention_constructs (ChannelAttention_init out_channels 16)
  then
    sa <- SpatialAttention_init 7 ;;
    Some {| PC := PC; conv1 := conv1; conv2 := conv2;
            bn1 := nn_BatchNorm2d out_channels;
            relu := ReLU;
            bn2 := nn_BatchNorm2d out_channels;
            shortcut := shortcut;
            ca := ChannelAttention_init out_channels 16;
            sa := sa |}
  else None.

(** ** [MSHNet] *)

Record MSHNet : Type := mkMSHNet {
  pool : MaxPool2d;
  up : Upsample;
  up_4 : Upsample;
  up_8 : Upsample;
  up_16 : Upsample;
  conv_init : Conv2d;
  encoder_0 : list ResNet;
  encoder_1 : list ResNet;
  encoder_2 : list ResNet;
  encoder_3 : list ResNet;
  middle_layer : list ResNet;
  decoder_3 : list ResNet;
  decoder_2 : list ResNet;
  decoder_1 : list ResNet;
  decoder_0 : list ResNet;
  output_0 : Conv2d;
  output_1 : Conv2d;
  output_2 : Conv2d;
  output_3 : Conv2d;
  final : Conv2d
}.

(** A block class, called as [block(in_channels, out_channels, PC=..)]
    (the stride keeps its default) . *)
Definition Block : Type := Z -> Z -> Z -> bool -> option ResNet.

(** [MSHNet._make_layer(self, in_channels, out_channels, block,
    block_num=1, PC=False)]; the result is the list given to
    [nn.Sequential]. *)
Definition _make_layer (in_channels out_channels : Z) (block : Block)
    (block_num : Z) (PC : bool) : option (list ResNet) :=
  b <- block in_channels out_channels 1 PC ;;
  bs <- mapM (fun _ => block out_channels out_channels 1 false)
             (range (block_num - 1)) ;;
  Some ([b] ++ bs).

Definition param_channels : list Z := [16; 32; 64; 128; 256].
Definition param_blocks : list Z := [2; 2; 2; 2].

(** [param_channels[i]], [param_blocks[i]] for the literal indices of the
    source. *)
Definition ch_at (i : nat) : Z := nth i param_channels 0.
Definition blk_at (i : nat) : Z := nth i param_blocks 0.

(** [MSHNet.__init__(self, input_channels, block=ResNet, PC=False)]: it
    raises where the constructor of [conv_init] or of a block does; its
    other layers have literal sizes. *)
Definition MSHNet_init (input_channels : Z) (block : Block) (PC : bool)
  : option MSHNet :=
  let pool := nn_MaxPool2d 2 2 in
  let up := nn_Upsample 2 bilinear true in
  let up_4 := nn_Upsample 4 bilinear true in
  let up_8 := nn_Upsample 8 bilinear true in
  let up_16 := nn_Upsample 4 bilinear true in
  let conv_init := nn_Conv2d input_channels (ch_at 0) (Int 1) (Int 1) (Int 0) (Int 1) 1 true in
  if Conv2d_constructs conv_init then
    encoder_0 <- _make_layer (ch_at 0) (ch_at 0) block 1 PC ;;
    encoder_1 <- _make_layer (ch_at 0) (ch_at 1) block (blk_at 0) false ;;
    encoder_2 <- _make_layer (ch_at 1) (ch_at 2) block (blk_at 1) false ;;
    encoder_3 <- _make_layer (ch_at 2) (ch_at 3) block (blk_at 2) false ;;
    middle_layer <- _make_layer (ch_at 3) (ch_at 4) block (blk_at 3) false ;;
    decoder_3 <- _make_layer (ch_at 3 + ch_at 4) (ch_at 3) block (blk_at 2) false ;;
    decoder_2 <- _make_layer (ch_at 2 + ch_at 3) (ch_at 2) block (blk_at 1) false ;;
    decoder_1 <- _make_layer (ch_at 1 + ch_at 2) (ch_at 1) block (blk_at 0) false ;;
    decoder_0 <- _make_layer (ch_at 0 + ch_at 1) (ch_at 0) block 1 false ;;
    Some {| pool := pool; up := up; up_4 := up_4; up_8 := up_8; up_16 := up_16;
            conv_init := conv_init;
            encoder_0 := encoder_0; encoder_1 := encoder_1;
            encoder_2 := encoder_2; encoder_3 := encoder_3;
            middle_layer := middle_layer;
            decoder_3 := decoder_3; decoder_2 := decoder_2;
            decoder_1 := decoder_1; decoder_0 := decoder_0;
            output_0 := nn_Conv2d (ch_at 0) 1 (Int 1) (Int 1) (Int 0) (Int 1) 1 true;
            output_1 := nn_Conv2d (ch_at 1) 1 (Int 1) (Int 1) (Int 0) (Int 1) 1 true;
            output_2 := nn_Conv2d (ch_at 2) 1 (Int 1) (Int 1) (Int 0) (Int 1) 1 true;
            output_3 := nn_Conv2d (ch_at 3) 1 (Int 1) (Int 1) (Int 0) (Int 1) 1 true;
            final := nn_Conv2d 4 1 (Int 3) (Int 1) (Int 1) (Int 1) 1 true |}
  else None.

(** ** The tensor runtime

    Everything the [forward] methods call in the tensor library.  The
    learned parameters belong to the runtime: an operation receives the
    descriptor of its layer, and layers of equal configuration are not
    told apart.  No property below depends on the learned values. *)

Class Runtime (T : Type) : Type := {
  (** [nn.Conv2d.forward] *)
  conv2d : Conv2d -> T -> option T;
  (** [nn.BatchNorm2d.forward] *)
  batch_norm : BatchNorm2d -> T -> option T;
  (** [nn.SiLU], [nn.ReLU], [nn.Sigmoid], [nn.Identity]: elementwise *)
  activation : Activation -> T -> T;
  (** [nn.ZeroPad2d.forward] *)
  zero_pad2d : ZeroPad2d -> T -> option T;
  (** [nn.MaxPool2d.forward] *)
  max_pool2d : MaxPool2d -> T -> option T;
  (** [nn.Upsample.forward] *)
  upsample : Upsample -> T -> option T;
  (** [nn.AdaptiveAvgPool2d.forward], [nn.AdaptiveMaxPool2d.forward] *)
  adaptive_avg_pool2d : AdaptiveAvgPool2d -> T -> option T;
  adaptive_max_pool2d : AdaptiveMaxPool2d -> T -> option T;
  (** [torch.mean(x, dim=1, keepdim=True)] *)
  torch_mean : T -> option T;
  (** the values of [torch.max(x, dim=1, keepdim=True)] *)
  torch_max : T -> option T;
  (** [torch.cat(tensors, dim=1)] *)
  torch_cat : list T -> option T;
  (** [a + b], [a * b] with broadcasting, and the in-place [a += b] *)
  torch_add : T -> T -> option T;
  torch_mul : T -> T -> option T;
  torch_iadd : T -> T -> option T
}.

(** ** The [forward] methods *)

Section Forward.

Context {T : Type} {R : Runtime T}.

(** [Conv.forward]. *)
Definition Conv_forward (m : Conv) (x : T) : option T :=
  y <- conv2d (Conv_conv m) x ;;
  y <- batch_norm (Conv_bn m) y ;;
  Some (activation (Conv_act m) y).

(** [Conv.forward_fuse]: the convolution and the activation, without the
    normalisation. *)
Definition Conv_forward_fuse (m : Conv) (x : T) : option T :=
  y <- conv2d (Conv_conv m) x ;;
  Some (activation (Conv_act m) y).

(** [self.pad[g](x)]. *)
Definition pad_at (m : PConv) (g : nat) (x : T) : option T :=
  p <- nth_error (pad m) g ;;
  zero_pad2d p x.

(** [PConv.forward]. *)
Definition PConv_forward (m : PConv) (x : T) : option T :=
  x0 <- pad_at m 0 x ;;
  yw0 <- Conv_forward (cw m) x0 ;;
  x1 <- pad_at m 1 x ;;
  yw1 <- Conv_forward (cw m) x1 ;;
  x2 <- pad_at m 2 x ;;
  yh0 <- Conv_forward (ch m) x2 ;;
  x3 <- pad_at m 3 x ;;
  yh1 <- Conv_forward (ch m) x3 ;;
  y <- torch_cat [yw0; yw1; yh0; yh1] ;;
  Conv_forward (cat m) y.

(** [ChannelAttention.forward]. *)
Definition ChannelAttention_forward (m : ChannelAttention) (x : T) : option T :=
  a <- adaptive_avg_pool2d (avg_pool m) x ;;
  a <- conv2d (fc1 m) a ;;
  avg_out <- conv2d (fc2 m) (activation (relu1 m) a) ;;
  b <- adaptive_max_pool2d (max_pool m) x ;;
  b <- conv2d (fc1 m) b ;;
  max_out <- conv2d (fc2 m) (activation (relu1 m) b) ;;
  out <- torch_add avg_out max_out ;;
  Some (activation (ca_sigmoid m) out).

(** [SpatialAttention.forward]. *)
Definition SpatialAttention_forward (m : SpatialAttention) (x : T) : option T :=
  avg_out <- torch_mean x ;;
  max_out <- torch_max x ;;
  x <- torch_cat [avg_out; max_out] ;;
  x <- conv2d (sa_conv1 m) x ;;
  Some (activation (sa_sigmoid m) x).

(** A call of [self.conv1] or [self.conv2]. *)
Definition ConvLayer_forward (l : ConvLayer) (x : T) : option T :=
  match l with
  | StdConv c => conv2d c x
  | PartialConv p => PConv_forward p x
  end.

(** [self.shortcut(x)] for the [nn.Sequential] of a convolution and a
    normalisation. *)
Definition shortcut_forward (s : Conv2d * BatchNorm2d) (x : T) : option T :=
  y <- conv2d (fst s) x ;;
  batch_norm (snd s) y.

(** The first statements of [ResNet.forward]: [residual = x], replaced by
    [self.shortcut(x)] when [self.shortcut is not None]. *)
Definition ResNet_residual (m : ResNet) (x : T) : option T :=
  match shortcut m with
  | Some s => shortcut_forward s x
  | None => Some x
  end.

(** [ResNet.forward]. *)
Definition ResNet_forward (m : ResNet) (x : T) : option T :=
  residual <- ResNet_residual m x ;;
  if PC m then
    out <- ConvLayer_forward (conv1 m) x ;;
    out <- ConvLayer_forward (conv2 m) out ;;
    g <- ChannelAttention_forward (ca m) out ;;
    out <- torch_mul g out ;;
    g <- SpatialAttention_forward (sa m) out ;;
    out <- torch_mul g out ;;
    out <- torch_iadd out residual ;;
    Some (activation (relu m) out)
  else
    out <- ConvLayer_forward (conv1 m) x ;;
    out <- batch_norm (bn1 m) out ;;
    let out := activation (relu m) out in
    out <- ConvLayer_forward (conv2 m) out ;;
    out <- batch_norm (bn2 m) out ;;
    g <- ChannelAttention_forward (ca m) out ;;
    out <- torch_mul g out ;;
    g <- SpatialAttention_forward (sa m) out ;;
    out <- torch_mul g out ;;
    out <- torch_iadd out residual ;;
    Some (activation (relu m) out).

(** [nn.Sequential.forward] over the blocks of a stage. *)
Fixpoint Sequential_forward (layer : list ResNet) (x : T) : option T :=
  match layer with
  | [] => Some x
  | m :: rest => y <- ResNet_forward m x ;; Sequential_forward rest y
  end.

(** The local variables of [MSHNet.forward] that hold the stage outputs. *)
Record Frame : Type := mkFrame {
  x_e0 : T; x_e1 : T; x_e2 : T; x_e3 : T;
  x_m : T;
  x_d3 : T; x_d2 : T; x_d1 : T; x_d0 : T
}.

(** [MSHNet.forward(self, x, warm_flag)], returning next to the value of
    the [return] statement the frame of stage outputs it was reached
    with. *)
Definition MSHNet_run (net : MSHNet) (x : T) (warm_flag : bool)
  : option (Frame * (list T * T)) :=
  x0 <- conv2d (conv_init net) x ;;
  x_e0 <- Sequential_forward (encoder_0 net) x0 ;;
  p0 <- max_pool2d (pool net) x_e0 ;;
  x_e1 <- Sequential_forward (encoder_1 net) p0 ;;
  p1 <- max_pool2d (pool net) x_e1 ;;
  x_e2 <- Sequential_forward (encoder_2 net) p1 ;;
  p2 <- max_pool2d (pool net) x_e2 ;;
  x_e3 <- Sequential_forward (encoder_3 net) p2 ;;
  p3 <- max_pool2d (pool net) x_e3 ;;
  x_m <- Sequential_forward (middle_layer net) p3 ;;
  u <- upsample (up net) x_m ;;
  c <- torch_cat [x_e3; u] ;;
  x_d3 <- Sequential_forward (decoder_3 net) c ;;
  u <- upsample (up net) x_d3 ;;
  c <- torch_cat [x_e2; u] ;;
  x_d2 <- Sequential_forward (decoder_2 net) c ;;
  u <- upsample (up net) x_d2 ;;
  c <- torch_cat [x_e1; u] ;;
  x_d1 <- Sequential_forward (decoder_1 net) c ;;
  u <- upsample (up net) x_d1 ;;
  c <- torch_cat [x_e0; u] ;;
  x_d0 <- Sequential_forward (decoder_0 net) c ;;
  let frame := mkFrame x_e0 x_e1 x_e2 x_e3 x_m x_d3 x_d2 x_d1 x_d0 in
  if warm_flag then
    mask0 <- conv2d (output_0 net) x_d0 ;;
    mask1 <- conv2d (output_1 net) x_d1 ;;
    mask2 <- conv2d (output_2 net) x_d2 ;;
    mask3 <- conv2d (output_3 net) x_d3 ;;
    u1 <- upsample (up net) mask1 ;;
    u2 <- upsample (up_4 net) mask2 ;;
    u3 <- upsample (up_8 net) mask3 ;;
    c <- torch_cat [mask0; u1; u2; u3] ;;
    output <- conv2d (final net) c ;;
    Some (frame, ([mask0; mask1; mask2; mask3], output))
  else
    output <- conv2d (output_0 net) x_d0 ;;
    Some (frame, ([], output)).

(** The value [MSHNet.forward] returns. *)
Definition MSHNet_forward (net : MSHNet) (x : T) (warm_flag : bool)
  : option (list T * T) :=
  option_map snd (MSHNet_run net x warm_flag).

(** [MSHNet(input_channels, PC=PC)(x, warm_flag)]: construction with the
    default block class, then the call. *)
Definition MSHNet_call (input_channels : Z) (PC : bool) (x : T)
    (warm_flag : bool) : option (list T * T) :=
  net <- MSHNet_init input_channels ResNet_init PC ;;
  MSHNet_forward net x warm_flag.

End Forward.

Arguments Frame : clear implicits.

(** The assignments to [x_e0], ..., [x_d0] at the head of
    [MSHNet.forward], read as equations on a frame: every stage output is
    what its stage returns, for an encoder stage on the pooled output of
    the stage before it, for a decoder stage on the concatenation of the
    encoder output of its level with the upsampled output of the stage
    below it. *)
Definition MSHNet_stages {T : Type} {R : Runtime T} (net : MSHNet) (x : T)
    (fr : Frame T) : Prop :=
  exists x0 p0 p1 p2 p3 u3 c3 u2 c2 u1 c1 u0 c0 : T,
    conv2d (conv_init net) x = Some x0
    /\ Sequential_forward (encoder_0 net) x0 = Some (x_e0 fr)
    /\ max_pool2d (pool net) (x_e0 fr) = Some p0
    /\ Sequential_forward (encoder_1 net) p0 = Some (x_e1 fr)
    /\ max_pool2d (pool net) (x_e1 fr) = Some p1
    /\ Sequential_forward (encoder_2 net) p1 = Some (x_e2 fr)
    /\ max_pool2d (pool net) (x_e2 fr) = Some p2
    /\ Sequential_forward (encoder_3 net) p2 = Some (x_e3 fr)
    /\ max_pool2d (pool net) (x_e3 fr) = Some p3
    /\ Sequential_forward (middle_layer net) p3 = Some (x_m fr)
    /\ upsample (up net) (x_m fr) = Some u3
    /\ torch_cat [x_e3 fr; u3] = Some c3
    /\ Sequential_forward (decoder_3 net) c3 = Some (x_d3 fr)
    /\ upsample (up net) (x_d3 fr) = Some u2
    /\ torch_cat [x_e2 fr; u2] = Some c2
    /\ Sequential_forward (decoder_2 net) c2 = Some (x_d2 fr)
    /\ upsample (up net) (x_d2 fr) = Some u1
    /\ torch_cat [x_e1 fr; u1] = Some c1
    /\ Sequential_forward (decoder_1 net) c1 = Some (x_d1 fr)
    /\ upsample (up net) (x_d1 fr) = Some u0
    /\ torch_cat [x_e0 fr; u0] = Some c0
    /\ Sequential_forward (decoder_0 net) c0 = Some (x_d0 fr).

(** ** The shape runtime

    A 4-D tensor is abstracted to its shape.  Each operation follows the
    output-size rule the tensor library documents for it and fails where
    the library raises: channel mismatch, a kernel larger than the padded
    input, an empty output, operands that do not broadcast.  Degenerate
    descriptors and tensors (a dimension or channel count that is not
    positive) are rejected. *)

Record Shape : Type := mkShape {
  batch : Z; channels : Z; height : Z; width : Z
}.

Definition shape_eqb (x y : Shape) : bool :=
  (batch x =? batch y) && (channels x =? channels y)
  && (height x =? height y) && (width x =? width y).

(** Output extent of a sliding window over an extent [i]: kernel [k],
    stride [s], padding [p] on both sides, dilation [d]. *)
Definition conv_out (i k s p d : Z) : Z :=
  (i + 2 * p - d * (k - 1) - 1) / s + 1.

Definition shape_conv2d (l : Conv2d) (x : Shape) : option Shape :=
  let kh := fst (kernel_size l) in let kw := snd (kernel_size l) in
  let sh := fst (stride l) in let sw := snd (stride l) in
  let ph := fst (padding l) in let pw := snd (padding l) in
  let dh := fst (dilation l) in let dw := snd (dilation l) in
  if (0 <? kh) && (0 <? kw) && (0 <? sh) && (0 <? sw)
     && (0 <=? ph) && (0 <=? pw) && (0 <? dh) && (0 <? dw)
     && (0 <? groups l) && (in_channels l mod groups l =? 0)
     && (out_channels l mod groups l =? 0) && (groups l <=? out_channels l)
     && (0 <? channels x) && (channels x =? in_channels l)
     && (dh * (kh - 1) + 1 <=? height x + 2 * ph)
     && (dw * (kw - 1) + 1 <=? width x + 2 * pw)
  then Some {| batch := batch x; channels := out_channels l;
               height := conv_out (height x) kh sh ph dh;
               width := conv_out (width x) kw sw pw dw |}
  else None.

(** In training mode the normalisation needs more than one value per
    channel. *)
Definition shape_batch_norm (training : bool) (l : BatchNorm2d) (x : Shape)
  : option Shape :=
  if (channels x =? num_features l)
     && negb (training && (batch x * height x * width x =? 1))
  then Some x else None.

Definition shape_zero_pad2d (l : ZeroPad2d) (x : Shape) : option Shape :=
  let h := height x + pad_top l + pad_bottom l in
  let w := width x + pad_left l + pad_right l in
  if (0 <=? h) && (0 <=? w)
  then Some {| batch := batch x; channels := channels x; height := h; width := w |}
  else None.

Definition shape_max_pool2d (l : MaxPool2d) (x : Shape) : option Shape :=
  let h := conv_out (height x) (pool_kernel l) (pool_stride l) 0 1 in
  let w := conv_out (width x) (pool_kernel l) (pool_stride l) 0 1 in
  if (0 <? pool_kernel l) && (0 <? pool_stride l) && (1 <=? h) && (1 <=? w)
  then Some {| batch := batch x; channels := channels x; height := h; width := w |}
  else None.

Definition shape_upsample (l : Upsample) (x : Shape) : option Shape :=
  if (0 <? scale_factor l) && (0 <? height x) && (0 <? width x)
  then Some {| batch := batch x; channels := channels x;
               height := height x * scale_factor l;
               width := width x * scale_factor l |}
  else None.

Definition shape_adaptive_pool2d (output_size : Z) (x : Shape) : option Shape :=
  if (0 <=? output_size) && (0 <? channels x) && (0 <? height x) && (0 <? width x)
  then Some {| batch := batch x; channels := channels x;
               height := output_size; width := output_size |}
  else None.

Definition shape_mean (x : Shape) : option Shape :=
  Some {| batch := batch x; channels := 1; height := height x; width := width x |}.

Definition shape_max (x : Shape) : option Shape :=
  if 0 <? channels x
  then Some {| batch := batch x; channels := 1; height := height x; width := width x |}
  else None.

Fixpoint shape_cat_onto (acc : Shape) (l : list Shape) : option Shape :=
  match l with
  | [] => Some acc
  | y :: l' =>
      if (batch y =? batch acc) && (height y =? height acc) && (width y =? width acc)
      then shape_cat_onto {| batch := batch acc; channels := channels acc + channels y;
                             height := height acc; width := width acc |} l'
      else None
  end.

Definition shape_cat (l : list Shape) : option Shape :=
  match l with
  | [] => None
  | x :: l' => shape_cat_onto x l'
  end.

Definition broadcast_dim (a b : Z) : option Z :=
  if a =? b then Some a
  else if a =? 1 then Some b
  else if b =? 1 then Some a
  else None.

Definition broadcast (x y : Shape) : option Shape :=
  n <- broadcast_dim (batch x) (batch y) ;;
  c <- broadcast_dim (channels x) (channels y) ;;
  h <- broadcast_dim (height x) (height y) ;;
  w <- broadcast_dim (width x) (width y) ;;
  Some {| batch := n; channels := c; height := h; width := w |}.

(** An in-place operation keeps the shape of its left operand. *)
Definition shape_iadd (x y : Shape) : option Shape :=
  s <- broadcast x y ;;
  if shape_eqb s x then Some x else None.

Definition shape_runtime (training : bool) : Runtime Shape := {|
  conv2d := shape_conv2d;
  batch_norm := shape_batch_norm training;
  activation := fun _ x => x;
  zero_pad2d := shape_zero_pad2d;
  max_pool2d := shape_max_pool2d;
  upsample := shape_upsample;
  adaptive_avg_pool2d := fun l => shape_adaptive_pool2d (avg_output_size l);
  adaptive_max_pool2d := fun l => shape_adaptive_pool2d (max_output_size l);
  torch_mean := shape_mean;
  torch_max := shape_max;
  torch_cat := shape_cat;
  torch_add := broadcast;
  torch_mul := broadcast;
  torch_iadd := shape_iadd
|}.

(** [MSHNet(input_channels, PC=PC)(x, warm_flag)] on shapes. *)
Definition MSHNet_shapes (training : bool) (input_channels : Z) (PC : bool)
    (x : Shape) (warm_flag : bool) : option (list Shape * Shape) :=
  @MSHNet_call Shape (shape_runtime training) input_channels PC x warm_flag.

(** The precondition of the normalisation on a tensor of [n] samples and
    extent [h] by [w]: outside training mode none, in training mode more
    than one value per channel. *)
Definition bn_accepts (training : bool) (n h w : Z) : Prop :=
  training = true -> n * h * w <> 1.

(** The shapes of the nine stage outputs for an input of [n] samples and
    extent [16 * a] by [16 * b]. *)
Definition stage_shapes (n a b : Z) : Frame Shape :=
  {| x_e0 := mkShape n 16 (16 * a) (16 * b);
     x_e1 := mkShape n 32 (8 * a) (8 * b);
     x_e2 := mkShape n 64 (4 * a) (4 * b);
     x_e3 := mkShape n 128 (2 * a) (2 * b);
     x_m := mkShape n 256 a b;
     x_d3 := mkShape n 128 (2 * a) (2 * b);
     x_d2 := mkShape n 64 (4 * a) (4 * b);
     x_d1 := mkShape n 32 (8 * a) (8 * b);
     x_d0 := mkShape n 16 (16 * a) (16 * b) |}.

(** ** Kinds of residual block *)

(** A block whose two convolutions are [nn.Conv2d] layers, run through the
    branch of [forward] for [PC] false. *)
Definition standard_block (m : ResNet) : bool :=
  negb (PC m)
  && match conv1 m, conv2 m with
     | StdConv _, StdConv _ => true
     | _, _ => false
     end.

(** A block whose two convolutions are [PConv] units. *)
Definition partial_block (m : ResNet) : bool :=
  PC m
  && match conv1 m, conv2 m with
     | PartialConv _, PartialConv _ => true
     | _, _ => false
     end.

(** [net] with its attribute [up_16] replaced. *)
Definition with_up_16 (u : Upsample) (net : MSHNet) : MSHNet :=
  {| pool := pool net; up := up net; up_4 := up_4 net; up_8 := up_8 net;
     up_16 := u; conv_init := conv_init net;
     encoder_0 := encoder_0 net; encoder_1 := encoder_1 net;
     encoder_2 := encoder_2 net; encoder_3 := encoder_3 net;
     middle_layer := middle_layer net;
     decoder_3 := decoder_3 net; decoder_2 := decoder_2 net;
     decoder_1 := decoder_1 net; decoder_0 := decoder_0 net;
     output_0 := output_0 net; output_1 := output_1 net;
     output_2 := output_2 net; output_3 := output_3 net;
     final := final net |}.

(** ** Acceptance conditions on shapes *)

(** The extent after a window of stride [s] that starts at every
    [s]-th position. *)
Definition stride_out (h s : Z) : Z := (h - 1) / s + 1.

(** What a standard block needs in order to return. *)
Definition ResNet_standard_accepts (training : bool) (i o s : Z) (x : Shape)
  : Prop :=
  channels x = i /\ 0 < i /\ 16 <= o /\ 0 < s
  /\ 0 < height x /\ 0 < width x
  /\ bn_accepts training (batch x) (stride_out (height x) s)
       (stride_out (width x) s).

(** What a block with partial convolutions and stride 1 needs in order to
    return. *)
Definition ResNet_partial_accepts (training : bool) (i o : Z) (x : Shape)
  : Prop :=
  channels x = i /\ 0 < i /\ 16 <= o /\ o mod 4 = 0
  /\ 0 < height x /\ 0 < width x
  /\ bn_accepts training (batch x) (height x) (width x).

(** What [PConv.forward] needs in order to return. *)
Definition PConv_accepts (training : bool) (c1 c2 k s : Z) (x : Shape) : Prop :=
  channels x = c1 /\ 0 < c1 /\ 0 < k /\ 0 < s /\ 0 < c2 /\ c2 mod 4 = 0
  /\ s <= height x /\ s <= width x
  /\ bn_accepts training (batch x) (height x / s) (width x / s).

(** * Properties *)

(** ** Reasoning about the failure monad *)

Lemma bind_Some {A B : Type} (m : option A) (f : A -> option B) (b : B) :
  bind m f = Some b -> exists a, m = Some a /\ f a = Some b.
Proof.
  destruct m as [a|]; cbn; [eauto | discriminate].
Qed.

(** Splits a hypothesis [x <- m ;; k = Some r] into [m = Some x] and
    [k = Some r]. *)
Ltac inv_bind H :=
  let a := fresh "v" in
  let E := fresh "E" in
  apply bind_Some in H; destruct H as (a & E & H).

(** Turns a boolean guard into the arithmetic facts it tests. *)
Ltac guard_true :=
  repeat match goal with
         | |- (_ && _)%bool = true => apply andb_true_intro; split
         | |- (_ <? _) = true => apply Z.ltb_lt
         | |- (_ <=? _) = true => apply Z.leb_le
         | |- (_ =? _) = true => apply Z.eqb_eq
         end.

(** Turns the boolean guards among the hypotheses into arithmetic facts. *)
Ltac guard_facts :=
  repeat match goal with
         | H : (_ && _)%bool = true |- _ => apply andb_prop in H; destruct H
         | H : (_ <? _) = true |- _ => apply Z.ltb_lt in H
         | H : (_ <=? _) = true |- _ => apply Z.leb_le in H
         | H : (_ =? _) = true |- _ => apply Z.eqb_eq in H
         end.

(** Splits [H : (if g then Some a else None) = Some y]. *)
Ltac inv_guard H :=
  match type of H with
  | (if ?g then _ else _) = Some _ =>
      let G := fresh "G" in
      destruct g eqn:G; [| discriminate H];
      injection H as H; guard_facts
  end.

(** Enters the branch of a constructor in which its layers could be
    constructed: [H : (if g then k else None) = Some y] becomes
    [H : k = Some y]. *)
Ltac init_guard H :=
  cbv zeta in H;
  match type of H with
  | (if ?g then _ else _) = Some _ =>
      let G := fresh "G" in
      destruct g eqn:G; [| discriminate H]
  end.

(** Linear arithmetic with division and remainder by literals. *)
Ltac zdiv := Z.to_euclidean_division_equations; lia.

(** ** The operations of the shape runtime *)

Section ShapeOps.

Variables (n c h w : Z).

Lemma conv_out_stride1 (i k p : Z) : conv_out i k 1 p 1 = i + 2 * p - k + 1.
Proof.
  unfold conv_out. rewrite Z.div_1_r. lia.
Qed.

(** A convolution of stride 1 and dilation 1. *)
Lemma shape_conv2d_stride1 (cout kh kw ph pw : Z) (b : bool) :
  0 < c -> 1 <= cout -> 0 < kh -> 0 < kw -> 0 <= ph -> 0 <= pw ->
  kh <= h + 2 * ph -> kw <= w + 2 * pw ->
  shape_conv2d (mkConv2d c cout (kh, kw) (1, 1) (ph, pw) (1, 1) 1 b)
               (mkShape n c h w)
  = Some (mkShape n cout (h + 2 * ph - kh + 1) (w + 2 * pw - kw + 1)).
Proof.
  intros. unfold shape_conv2d.
  cbn [kernel_size stride padding dilation groups in_channels out_channels
       fst snd batch channels height width].
  rewrite !conv_out_stride1, !Z.mod_1_r.
  match goal with
  | |- (if ?g then _ else _) = _ => assert (Hg : g = true) by (guard_true; lia)
  end.
  rewrite Hg. reflexivity.
Qed.

(** A [k]x[k] convolution of stride 1 with padding [(k - 1) / 2], [k] odd,
    keeps the extent. *)
Lemma shape_conv2d_same (cout k p : Z) (b : bool) :
  0 < c -> 1 <= cout -> 0 <= p -> k = 2 * p + 1 -> 0 < h -> 0 < w ->
  shape_conv2d (mkConv2d c cout (k, k) (1, 1) (p, p) (1, 1) 1 b)
               (mkShape n c h w)
  = Some (mkShape n cout h w).
Proof.
  intros. rewrite shape_conv2d_stride1 by lia.
  do 2 f_equal; lia.
Qed.

Lemma shape_batch_norm_ok (training : bool) :
  bn_accepts training n h w ->
  shape_batch_norm training (nn_BatchNorm2d c) (mkShape n c h w)
  = Some (mkShape n c h w).
Proof.
  intros Hbn. unfold shape_batch_norm.
  cbn [num_features batch channels height width].
  rewrite Z.eqb_refl. cbn [andb].
  destruct training; cbn [andb negb]; [| reflexivity].
  destruct (Z.eqb_spec (n * h * w) 1) as [E|E]; [| reflexivity].
  exfalso. now apply Hbn.
Qed.

Lemma broadcast_dim_refl (a : Z) : broadcast_dim a a = Some a.
Proof.
  unfold broadcast_dim. now rewrite Z.eqb_refl.
Qed.

Lemma broadcast_dim_1_l (a : Z) : broadcast_dim 1 a = Some a.
Proof.
  unfold broadcast_dim. destruct (Z.eqb_spec 1 a); [now subst | reflexivity].
Qed.

(** A per-channel gate times the tensor it was computed from. *)
Lemma broadcast_channel_gate :
  broadcast (mkShape n c 1 1) (mkShape n c h w) = Some (mkShape n c h w).
Proof.
  unfold broadcast. cbn [batch channels height width].
  now rewrite !broadcast_dim_refl, !broadcast_dim_1_l.
Qed.

(** A per-pixel gate times the tensor it was computed from. *)
Lemma broadcast_spatial_gate :
  broadcast (mkShape n 1 h w) (mkShape n c h w) = Some (mkShape n c h w).
Proof.
  unfold broadcast. cbn [batch channels height width].
  now rewrite !broadcast_dim_refl, !broadcast_dim_1_l.
Qed.

Lemma shape_iadd_same :
  shape_iadd (mkShape n c h w) (mkShape n c h w) = Some (mkShape n c h w).
Proof.
  unfold shape_iadd, broadcast, shape_eqb. cbn [batch channels height width].
  rewrite !broadcast_dim_refl. cbn [bind batch channels height width].
  now rewrite !Z.eqb_refl.
Qed.

Lemma shape_adaptive_pool2d_1 :
  0 < c -> 0 < h -> 0 < w ->
  shape_adaptive_pool2d 1 (mkShape n c h w) = Some (mkShape n c 1 1).
Proof.
  intros. unfold shape_adaptive_pool2d. cbn [batch channels height width].
  match goal with
  | |- (if ?g then _ else _) = _ => assert (Hg : g = true) by (guard_true; lia)
  end.
  now rewrite Hg.
Qed.

(** 2x2 max pooling of stride 2 halves an even extent. *)
Lemma shape_max_pool2d_half (h2 w2 : Z) :
  0 < h2 -> 0 < w2 -> h = 2 * h2 -> w = 2 * w2 ->
  shape_max_pool2d (nn_MaxPool2d 2 2) (mkShape n c h w)
  = Some (mkShape n c h2 w2).
Proof.
  intros Hh Hw -> ->. unfold shape_max_pool2d, conv_out.
  cbn [pool_kernel pool_stride batch channels height width].
  replace ((2 * h2 + 2 * 0 - 1 * (2 - 1) - 1) / 2 + 1) with h2 by zdiv.
  replace ((2 * w2 + 2 * 0 - 1 * (2 - 1) - 1) / 2 + 1) with w2 by zdiv.
  match goal with
  | |- (if ?g then _ else _) = _ => assert (Hg : g = true) by (guard_true; lia)
  end.
  now rewrite Hg.
Qed.

Lemma shape_upsample_ok (k : Z) (m : UpsampleMode) (a : bool) :
  0 < k -> 0 < h -> 0 < w ->
  shape_upsample (nn_Upsample k m a) (mkShape n c h w)
  = Some (mkShape n c (h * k) (w * k)).
Proof.
  intros. unfold shape_upsample.
  cbn [scale_factor batch channels height width].
  match goal with
  | |- (if ?g then _ else _) = _ => assert (Hg : g = true) by (guard_true; lia)
  end.
  now rewrite Hg.
Qed.

(** Concatenation of a skip tensor and an upsampled tensor. *)
Lemma shape_cat2 (c' : Z) :
  shape_cat [mkShape n c h w; mkShape n c' h w] = Some (mkShape n (c + c') h w).
Proof.
  cbn [shape_cat shape_cat_onto batch channels height width].
  now rewrite !Z.eqb_refl.
Qed.

Lemma shape_cat4 (c1 c2 c3 : Z) :
  shape_cat [mkShape n c h w; mkShape n c1 h w; mkShape n c2 h w; mkShape n c3 h w]
  = Some (mkShape n (c + c1 + c2 + c3) h w).
Proof.
  cbn [shape_cat shape_cat_onto batch channels height width].
  now rewrite !Z.eqb_refl.
Qed.

End ShapeOps.

(** ** The modules of the file on shapes *)

Section ShapeModules.

Variable training : bool.
Abbreviation RT := (shape_runtime training).

(** Unfolds the operations of the shape runtime. *)
Ltac shape_ops :=
  cbn [conv2d batch_norm activation zero_pad2d max_pool2d upsample
       adaptive_avg_pool2d adaptive_max_pool2d torch_mean torch_max torch_cat
       torch_add torch_mul torch_iadd shape_runtime].

Lemma Conv_forward_shape (c1 c2 : Z) (k : IntOrPair) (kh kw n h w h' w' : Z) :
  _pair k = (kh, kw) ->
  0 < c1 -> 1 <= c2 -> 0 < kh -> 0 < kw -> kh <= h -> kw <= w ->
  h' = h - kh + 1 -> w' = w - kw + 1 ->
  bn_accepts training n h' w' ->
  Conv_forward (R := RT)
    (Conv_init c1 c2 k 1 (Some (Int 0)) 1 1 (ActBool true))
    (mkShape n c1 h w)
  = Some (mkShape n c2 h' w').
Proof.
  intros Hk ? ? ? ? ? ? -> -> Hbn. unfold Conv_forward, Conv_init. shape_ops.
  cbn [Conv_conv Conv_bn Conv_act autopad]. cbv [nn_Conv2d]. rewrite Hk.
  cbn [_pair].
  rewrite shape_conv2d_stride1 by lia. cbn [bind].
  replace (h + 2 * 0 - kh + 1) with (h - kh + 1) by lia.
  replace (w + 2 * 0 - kw + 1) with (w - kw + 1) by lia.
  rewrite shape_batch_norm_ok by assumption. reflexivity.
Qed.

Lemma PConv_init_pad (c1 c2 k s : Z) :
  pad (PConv_init c1 c2 k s)
  = [mkZeroPad2d k 0 1 0; mkZeroPad2d 0 k 0 1;
     mkZeroPad2d 0 1 k 0; mkZeroPad2d 1 0 0 k].
Proof. reflexivity. Qed.

Lemma shape_zero_pad2d_ok (l r t b n c h w : Z) :
  0 <= h + t + b -> 0 <= w + l + r ->
  shape_zero_pad2d (mkZeroPad2d l r t b) (mkShape n c h w)
  = Some (mkShape n c (h + t + b) (w + l + r)).
Proof.
  intros. unfold shape_zero_pad2d.
  cbn [pad_left pad_right pad_top pad_bottom batch channels height width].
  match goal with
  | |- (if ?g then _ else _) = _ => assert (Hg : g = true) by (guard_true; lia)
  end.
  now rewrite Hg.
Qed.

Lemma PConv_forward_shape (c1 c2 k n h w : Z) :
  0 < c1 -> 4 <= c2 -> c2 mod 4 = 0 -> 0 < k ->
  0 < n -> 0 < h -> 0 < w -> bn_accepts training n h w ->
  PConv_forward (R := RT) (PConv_init c1 c2 k 1) (mkShape n c1 h w)
  = Some (mkShape n c2 h w).
Proof.
  intros Hc1 Hc2 Hmod Hk Hn Hh Hw Hbn.
  assert (Hq : 1 <= c2 / 4) by zdiv.
  assert (Hbn1 : bn_accepts training n (h + 1) (w + 1)).
  { intros _. nia. }
  unfold PConv_forward, pad_at. rewrite PConv_init_pad.
  cbn [nth_error bind]. shape_ops.
  rewrite !shape_zero_pad2d_ok by lia. cbn [bind].
  cbn [PConv_init cw ch cat].
  rewrite (Conv_forward_shape c1 (c2 / 4) (Pair 1 k) 1 k n (h + 1 + 0) (w + k + 0) (h + 1) (w + 1))
    by first [reflexivity | assumption | lia].
  rewrite (Conv_forward_shape c1 (c2 / 4) (Pair 1 k) 1 k n (h + 0 + 1) (w + 0 + k) (h + 1) (w + 1))
    by first [reflexivity | assumption | lia].
  rewrite (Conv_forward_shape c1 (c2 / 4) (Pair k 1) k 1 n (h + k + 0) (w + 0 + 1) (h + 1) (w + 1))
    by first [reflexivity | assumption | lia].
  rewrite (Conv_forward_shape c1 (c2 / 4) (Pair k 1) k 1 n (h + 0 + k) (w + 1 + 0) (h + 1) (w + 1))
    by first [reflexivity | assumption | lia].
  cbn [bind]. rewrite shape_cat4. cbn [bind].
  replace (c2 / 4 + c2 / 4 + c2 / 4 + c2 / 4) with c2 by zdiv.
  apply (Conv_forward_shape c2 c2 (Int 2) 2 2); first [reflexivity | assumption | lia].
Qed.
Lemma broadcast_same (n c h w : Z) :
  broadcast (mkShape n c h w) (mkShape n c h w) = Some (mkShape n c h w).
Proof.
  unfold broadcast. cbn [batch channels height width].
  now rewrite !broadcast_dim_refl.
Qed.

Lemma ChannelAttention_forward_shape (c ratio n h w : Z) :
  16 <= c -> 0 < h -> 0 < w ->
  ChannelAttention_forward (R := RT) (ChannelAttention_init c ratio)
    (mkShape n c h w)
  = Some (mkShape n c 1 1).
Proof.
  intros Hc Hh Hw.
  assert (Hq : 1 <= c / 16) by zdiv.
  unfold ChannelAttention_forward, ChannelAttention_init. shape_ops.
  cbn [avg_pool max_pool fc1 fc2 relu1 ca_sigmoid avg_output_size max_output_size].
  cbv [nn_Conv2d _pair].
  rewrite shape_adaptive_pool2d_1 by lia. cbn [bind].
  rewrite (shape_conv2d_same n c 1 1 (c / 16) 1 0) by lia. cbn [bind].
  rewrite (shape_conv2d_same n (c / 16) 1 1 c 1 0) by lia. cbn [bind].
  now rewrite broadcast_same.
Qed.

Lemma SpatialAttention_forward_shape (kernel_size : Z) (m : SpatialAttention)
    (n c h w : Z) :
  SpatialAttention_init kernel_size = Some m ->
  0 < c -> 0 < h -> 0 < w ->
  SpatialAttention_forward (R := RT) m (mkShape n c h w)
  = Some (mkShape n 1 h w).
Proof.
  intros Hm Hc Hh Hw. unfold SpatialAttention_init in Hm.
  destruct ((kernel_size =? 3) || (kernel_size =? 7))%bool eqn:Hks;
    [| discriminate].
  injection Hm as <-.
  unfold SpatialAttention_forward. shape_ops. cbn [sa_conv1 sa_sigmoid].
  unfold shape_mean, shape_max. cbn [batch channels height width].
  replace (0 <? c) with true by (symmetry; apply Z.ltb_lt; lia).
  cbn [bind]. rewrite shape_cat2. cbn [bind]. change (1 + 1) with 2.
  cbv [nn_Conv2d _pair].
  apply orb_true_iff in Hks.
  destruct Hks as [E|E]; apply Z.eqb_eq in E; subst kernel_size;
    cbn [Z.eqb Pos.eqb]; now rewrite shape_conv2d_same by lia.
Qed.

(** The layers of a residual block can be constructed exactly when no
    channel count is negative. *)
Lemma ResNet_init_checks (i o s : Z) (pc : bool) :
  let conv1 :=
    if pc then PartialConv (PConv_init i o 4 s)
    else StdConv (nn_Conv2d i o (Int 3) (Int s) (Int 1) (Int 1) 1 true) in
  let conv2 :=
    if pc then PartialConv (PConv_init o o 3 s)
    else StdConv (nn_Conv2d o o (Int 3) (Int 1) (Int 1) (Int 1) 1 true) in
  let shortcut :=
    if (negb (s =? 1) || negb (o =? i))%bool then
      Some (nn_Conv2d i o (Int 1) (Int s) (Int 0) (Int 1) 1 true,
            nn_BatchNorm2d o)
    else None in
  (ConvLayer_constructs conv1
   && BatchNorm2d_constructs (nn_BatchNorm2d o)
   && ConvLayer_constructs conv2
   && shortcut_constructs shortcut
   && ChannelAttention_constructs (ChannelAttention_init o 16))%bool
  = ((0 <=? i) && (0 <=? o))%bool.
Proof.
  intros conv1 conv2 shortcut. subst conv1 conv2 shortcut.
  apply eq_iff_eq_true.
  destruct pc, (negb (s =? 1) || negb (o =? i))%bool;
    cbv [ConvLayer_constructs PConv_constructs Conv_constructs
         Conv2d_constructs BatchNorm2d_constructs shortcut_constructs
         ChannelAttention_constructs PConv_init Conv_init
         ChannelAttention_init nn_Conv2d _pair
         cw ch cat Conv_conv Conv_bn fc1 fc2 groups in_channels out_channels
         kernel_size num_features fst snd];
    rewrite ?Z.mod_1_r, ?Z.div_1_r;
    rewrite ?andb_true_iff, ?Z.leb_le, ?Z.ltb_lt, ?Z.eqb_eq; zdiv.
Qed.

(** What [ResNet.__init__] builds. *)
Lemma ResNet_init_inv (i o s : Z) (pc : bool) (m : ResNet) :
  ResNet_init i o s pc = Some m ->
  m = {| PC := pc;
         conv1 := if pc
                  then PartialConv (PConv_init i o 4 s)
                  else StdConv (nn_Conv2d i o (Int 3) (Int s) (Int 1) (Int 1) 1 true);
         conv2 := if pc
                  then PartialConv (PConv_init o o 3 s)
                  else StdConv (nn_Conv2d o o (Int 3) (Int 1) (Int 1) (Int 1) 1 true);
         bn1 := nn_BatchNorm2d o;
         relu := ReLU;
         bn2 := nn_BatchNorm2d o;
         shortcut := if (negb (s =? 1) || negb (o =? i))%bool
                     then Some (nn_Conv2d i o (Int 1) (Int s) (Int 0) (Int 1) 1 true,
                                nn_BatchNorm2d o)
                     else None;
         ca := ChannelAttention_init o 16;
         sa := {| sa_conv1 := nn_Conv2d 2 1 (Int 7) (Int 1) (Int 3) (Int 1) 1 false;
                  sa_sigmoid := Sigmoid |} |}.
Proof.
  unfold ResNet_init. cbv zeta.
  pose proof (ResNet_init_checks i o s pc) as G. cbv zeta in G. rewrite G.
  destruct ((0 <=? i) && (0 <=? o))%bool; [| discriminate].
  change (SpatialAttention_init 7) with
    (Some {| sa_conv1 := nn_Conv2d 2 1 (Int 7) (Int 1) (Int 3) (Int 1) 1 false;
             sa_sigmoid := Sigmoid |}).
  cbn [bind]. intros Hm. now injection Hm as <-.
Qed.

(** [ResNet.__init__] returns a block exactly when no channel count is
    negative. *)
Lemma ResNet_init_Some (i o s : Z) (pc : bool) :
  (exists m : ResNet, ResNet_init i o s pc = Some m) <-> 0 <= i /\ 0 <= o.
Proof.
  unfold ResNet_init. cbv zeta.
  pose proof (ResNet_init_checks i o s pc) as G. cbv zeta in G. rewrite G.
  destruct (Z.leb_spec 0 i) as [Hi|Hi], (Z.leb_spec 0 o) as [Ho|Ho];
    cbn [andb]; split;
    try (intros [m Hm]; discriminate Hm); try lia.
  intros _. eexists. reflexivity.
Qed.

Lemma ResNet_residual_shape (i o : Z) (pc : bool) (m : ResNet) (n h w : Z) :
  ResNet_init i o 1 pc = Some m ->
  0 < i -> 1 <= o -> 0 < h -> 0 < w -> bn_accepts training n h w ->
  ResNet_residual (R := RT) m (mkShape n i h w) = Some (mkShape n o h w).
Proof.
  intros Hm Hi Ho Hh Hw Hbn. apply ResNet_init_inv in Hm. subst m.
  unfold ResNet_residual. cbn [shortcut].
  change (negb (1 =? 1)) with false. cbn [orb].
  destruct (Z.eqb_spec o i) as [->|Hne]; cbn [negb]; [reflexivity |].
  unfold shortcut_forward. cbn [fst snd]. shape_ops. cbv [nn_Conv2d _pair].
  rewrite (shape_conv2d_same n i h w o 1 0) by lia. cbn [bind].
  now apply shape_batch_norm_ok.
Qed.

(** A block of stride 1 maps [in_channels] channels to [out_channels]
    channels and keeps the extent. *)
Lemma ResNet_forward_shape (i o : Z) (pc : bool) (m : ResNet) (n h w : Z) :
  ResNet_init i o 1 pc = Some m ->
  0 < i -> 16 <= o -> (pc = true -> o mod 4 = 0) ->
  0 < n -> 0 < h -> 0 < w -> bn_accepts training n h w ->
  ResNet_forward (R := RT) m (mkShape n i h w) = Some (mkShape n o h w).
Proof.
  intros Hm Hi Ho Hmod Hn Hh Hw Hbn.
  unfold ResNet_forward.
  rewrite (ResNet_residual_shape i o pc) by (assumption || lia).
  cbn [bind].
  pose proof (SpatialAttention_forward_shape 7 (sa m)) as Hsa.
  apply ResNet_init_inv in Hm. subst m.
  cbn [PC conv1 conv2 bn1 bn2 relu ca sa] in *.
  specialize (Hsa n o h w eq_refl).
  destruct pc; cbn [ConvLayer_forward].
  - rewrite PConv_forward_shape by (auto; lia). cbn [bind].
    rewrite PConv_forward_shape by (auto; lia). cbn [bind].
    rewrite ChannelAttention_forward_shape by lia. cbn [bind]. shape_ops.
    rewrite broadcast_channel_gate. cbn [bind].
    rewrite Hsa by lia.
    cbn [bind]. rewrite broadcast_spatial_gate. cbn [bind].
    now rewrite shape_iadd_same.
  - shape_ops. cbv [nn_Conv2d _pair] in Hsa |- *.
    rewrite (shape_conv2d_same n i h w o 3 1) by lia. cbn [bind].
    rewrite shape_batch_norm_ok by assumption. cbn [bind].
    rewrite (shape_conv2d_same n o h w o 3 1) by lia. cbn [bind].
    rewrite shape_batch_norm_ok by assumption. cbn [bind].
    rewrite ChannelAttention_forward_shape by lia. cbn [bind]. shape_ops.
    rewrite broadcast_channel_gate. cbn [bind].
    rewrite Hsa by lia.
    cbn [bind]. rewrite broadcast_spatial_gate. cbn [bind].
    now rewrite shape_iadd_same.
Qed.

Lemma repeated_blocks_shape (o : Z) (idx : list nat) (bs : list ResNet)
    (n h w : Z) :
  mapM (fun _ => ResNet_init o o 1 false) idx = Some bs ->
  16 <= o -> 0 < n -> 0 < h -> 0 < w -> bn_accepts training n h w ->
  Sequential_forward (R := RT) bs (mkShape n o h w) = Some (mkShape n o h w).
Proof.
  intros Hbs Ho Hn Hh Hw Hbn. revert bs Hbs.
  induction idx as [|j idx IH]; cbn [mapM]; intros bs Hbs.
  - injection Hbs as <-. reflexivity.
  - inv_bind Hbs. inv_bind Hbs. injection Hbs as <-.
    cbn [Sequential_forward].
    rewrite (ResNet_forward_shape o o false) by (assumption || lia || discriminate).
    cbn [bind]. now apply IH.
Qed.

(** A stage built by [_make_layer] maps [in_channels] channels to
    [out_channels] channels and keeps the extent. *)
Lemma make_layer_forward_shape (i o num : Z) (pc : bool) (l : list ResNet)
    (n h w : Z) :
  _make_layer i o ResNet_init num pc = Some l ->
  0 < i -> 16 <= o -> (pc = true -> o mod 4 = 0) ->
  0 < n -> 0 < h -> 0 < w -> bn_accepts training n h w ->
  Sequential_forward (R := RT) l (mkShape n i h w) = Some (mkShape n o h w).
Proof.
  intros Hl Hi Ho Hmod Hn Hh Hw Hbn. unfold _make_layer in Hl.
  inv_bind Hl. inv_bind Hl. injection Hl as <-.
  cbn [app Sequential_forward].
  rewrite (ResNet_forward_shape i o pc) by assumption. cbn [bind].
  eapply repeated_blocks_shape; eassumption.
Qed.

Lemma shape_upsample_to (n c h w k h' w' : Z) (m : UpsampleMode) (a : bool) :
  0 < k -> 0 < h -> 0 < w -> h' = h * k -> w' = w * k ->
  shape_upsample (nn_Upsample k m a) (mkShape n c h w)
  = Some (mkShape n c h' w').
Proof.
  intros ? ? ? -> ->. now apply shape_upsample_ok.
Qed.

(** [MSHNet.__init__] returns a network exactly when the number of input
    channels is not negative. *)
Lemma MSHNet_init_total (ic : Z) (pc : bool) :
  (exists net, MSHNet_init ic ResNet_init pc = Some net) <-> 0 <= ic.
Proof.
  unfold MSHNet_init. cbv zeta.
  assert (G : Conv2d_constructs
                (nn_Conv2d ic (ch_at 0) (Int 1) (Int 1) (Int 0) (Int 1) 1 true)
              = (0 <=? ic)).
  { cbv [Conv2d_constructs nn_Conv2d _pair groups in_channels out_channels
         kernel_size fst snd].
    rewrite Z.mod_1_r, Z.div_1_r. change (ch_at 0) with 16.
    now destruct (0 <=? ic). }
  rewrite G. destruct (Z.leb_spec 0 ic) as [Hic|Hic]; split.
  - intros _. exact Hic.
  - intros _. destruct pc; eexists; vm_compute; reflexivity.
  - intros [net Hnet]. discriminate Hnet.
  - lia.
Qed.

Lemma MSHNet_run_shapes (ic : Z) (pc : bool) (net : MSHNet) (n a b : Z)
    (warm_flag : bool) :
  MSHNet_init ic ResNet_init pc = Some net ->
  0 < ic -> 0 < n -> 0 < a -> 0 < b -> bn_accepts training n a b ->
  MSHNet_run (R := RT) net (mkShape n ic (16 * a) (16 * b)) warm_flag
  = Some (stage_shapes n a b,
           (if warm_flag
            then [mkShape n 1 (16 * a) (16 * b); mkShape n 1 (8 * a) (8 * b);
                  mkShape n 1 (4 * a) (4 * b); mkShape n 1 (2 * a) (2 * b)]
            else [],
            mkShape n 1 (16 * a) (16 * b))).
Proof.
  intros Hnet Hic Hn Ha Hb Hbn.
  unfold MSHNet_init in Hnet.
  cbv [ch_at blk_at param_channels param_blocks nth] in Hnet.
  init_guard Hnet.
  do 9 inv_bind Hnet. injection Hnet as <-.
  assert (Hbig : forall k, 1 < k -> bn_accepts training n (k * a) (k * b)).
  { intros k Hk _. nia. }
  unfold MSHNet_run.
  cbn [pool up up_4 up_8 conv_init encoder_0 encoder_1 encoder_2 encoder_3
       middle_layer decoder_3 decoder_2 decoder_1 decoder_0
       output_0 output_1 output_2 output_3 final].
  shape_ops. cbv [nn_Conv2d _pair].
  rewrite (shape_conv2d_same n ic (16 * a) (16 * b) 16 1 0) by lia.
  cbn [bind].
  rewrite (make_layer_forward_shape 16 16 1 pc)
    by first [assumption | lia | reflexivity | apply Hbig; lia].
  cbn [bind].
  rewrite (shape_max_pool2d_half n 16 (16 * a) (16 * b) (8 * a) (8 * b)) by lia.
  cbn [bind].
  rewrite (make_layer_forward_shape 16 32 2 false)
    by first [assumption | lia | discriminate | apply Hbig; lia].
  cbn [bind].
  rewrite (shape_max_pool2d_half n 32 (8 * a) (8 * b) (4 * a) (4 * b)) by lia.
  cbn [bind].
  rewrite (make_layer_forward_shape 32 64 2 false)
    by first [assumption | lia | discriminate | apply Hbig; lia].
  cbn [bind].
  rewrite (shape_max_pool2d_half n 64 (4 * a) (4 * b) (2 * a) (2 * b)) by lia.
  cbn [bind].
  rewrite (make_layer_forward_shape 64 128 2 false)
    by first [assumption | lia | discriminate | apply Hbig; lia].
  cbn [bind].
  rewrite (shape_max_pool2d_half n 128 (2 * a) (2 * b) a b) by lia.
  cbn [bind].
  rewrite (make_layer_forward_shape 128 256 2 false)
    by first [assumption | lia | discriminate].
  cbn [bind].
  rewrite (shape_upsample_to n 256 a b 2 (2 * a) (2 * b)) by lia.
  cbn [bind]. rewrite shape_cat2. cbn [bind].
  rewrite (make_layer_forward_shape (128 + 256) 128 2 false)
    by first [assumption | lia | discriminate | apply Hbig; lia].
  cbn [bind].
  rewrite (shape_upsample_to n 128 (2 * a) (2 * b) 2 (4 * a) (4 * b)) by lia.
  cbn [bind]. rewrite shape_cat2. cbn [bind].
  rewrite (make_layer_forward_shape (64 + 128) 64 2 false)
    by first [assumption | lia | discriminate | apply Hbig; lia].
  cbn [bind].
  rewrite (shape_upsample_to n 64 (4 * a) (4 * b) 2 (8 * a) (8 * b)) by lia.
  cbn [bind]. rewrite shape_cat2. cbn [bind].
  rewrite (make_layer_forward_shape (32 + 64) 32 2 false)
    by first [assumption | lia | discriminate | apply Hbig; lia].
  cbn [bind].
  rewrite (shape_upsample_to n 32 (8 * a) (8 * b) 2 (16 * a) (16 * b)) by lia.
  cbn [bind]. rewrite shape_cat2. cbn [bind].
  rewrite (make_layer_forward_shape (16 + 32) 16 1 false)
    by first [assumption | lia | discriminate | apply Hbig; lia].
  cbn [bind].
  rewrite (shape_conv2d_same n 16 (16 * a) (16 * b) 1 1 0) by lia.
  destruct warm_flag; cbn [bind]; [| reflexivity].
  rewrite (shape_conv2d_same n 32 (8 * a) (8 * b) 1 1 0) by lia. cbn [bind].
  rewrite (shape_conv2d_same n 64 (4 * a) (4 * b) 1 1 0) by lia. cbn [bind].
  rewrite (shape_conv2d_same n 128 (2 * a) (2 * b) 1 1 0) by lia. cbn [bind].
  rewrite (shape_upsample_to n 1 (8 * a) (8 * b) 2 (16 * a) (16 * b)) by lia.
  cbn [bind].
  rewrite (shape_upsample_to n 1 (4 * a) (4 * b) 4 (16 * a) (16 * b)) by lia.
  cbn [bind].
  rewrite (shape_upsample_to n 1 (2 * a) (2 * b) 8 (16 * a) (16 * b)) by lia.
  cbn [bind]. rewrite shape_cat4. cbn [bind]. change (1 + 1 + 1 + 1) with 4.
  rewrite (shape_conv2d_same n 4 (16 * a) (16 * b) 1 3 1) by lia.
  reflexivity.
Qed.

End ShapeModules.

(** ** What the modules return, whenever they return *)

Section ShapeInversion.

Lemma shape_conv2d_stride1_inv (ci co kh kw ph pw g : Z) (b : bool)
    (x y : Shape) :
  shape_conv2d (mkConv2d ci co (kh, kw) (1, 1) (ph, pw) (1, 1) g b) x = Some y ->
  channels x = ci
  /\ y = mkShape (batch x) co (height x + 2 * ph - kh + 1)
                 (width x + 2 * pw - kw + 1).
Proof.
  unfold shape_conv2d.
  cbn [kernel_size stride padding dilation groups in_channels out_channels
       fst snd].
  rewrite !conv_out_stride1. intros H. inv_guard H. now subst y.
Qed.

Lemma shape_batch_norm_inv (training : bool) (l : BatchNorm2d) (x y : Shape) :
  shape_batch_norm training l x = Some y -> y = x.
Proof.
  unfold shape_batch_norm. intros H. inv_guard H. now subst y.
Qed.

Lemma shape_zero_pad2d_inv (l : ZeroPad2d) (x y : Shape) :
  shape_zero_pad2d l x = Some y ->
  y = mkShape (batch x) (channels x) (height x + pad_top l + pad_bottom l)
              (width x + pad_left l + pad_right l).
Proof.
  unfold shape_zero_pad2d. intros H. inv_guard H. now subst y.
Qed.

Lemma shape_adaptive_pool2d_inv (o : Z) (x y : Shape) :
  shape_adaptive_pool2d o x = Some y ->
  y = mkShape (batch x) (channels x) o o.
Proof.
  unfold shape_adaptive_pool2d. intros H. inv_guard H. now subst y.
Qed.

Lemma shape_max_inv (x y : Shape) :
  shape_max x = Some y -> y = mkShape (batch x) 1 (height x) (width x).
Proof.
  unfold shape_max. intros H. inv_guard H. now subst y.
Qed.

Lemma shape_max_pool2d_inv (x y : Shape) :
  shape_max_pool2d (nn_MaxPool2d 2 2) x = Some y ->
  1 <= height y /\ 1 <= width y
  /\ y = mkShape (batch x) (channels x) ((height x - 2) / 2 + 1)
                 ((width x - 2) / 2 + 1).
Proof.
  unfold shape_max_pool2d, conv_out. cbn [pool_kernel pool_stride].
  replace (height x + 2 * 0 - 1 * (2 - 1) - 1) with (height x - 2) by lia.
  replace (width x + 2 * 0 - 1 * (2 - 1) - 1) with (width x - 2) by lia.
  intros H. inv_guard H. subst y. cbn [height width]. auto.
Qed.

Lemma shape_upsample_inv (l : Upsample) (x y : Shape) :
  shape_upsample l x = Some y ->
  y = mkShape (batch x) (channels x) (height x * scale_factor l)
              (width x * scale_factor l).
Proof.
  unfold shape_upsample. intros H. inv_guard H. now subst y.
Qed.

Lemma shape_cat_onto_inv (l : list Shape) (acc y : Shape) :
  shape_cat_onto acc l = Some y ->
  Forall (fun s => batch s = batch acc /\ height s = height acc
                   /\ width s = width acc) l
  /\ y = mkShape (batch acc) (fold_left (fun c s => c + channels s) l (channels acc))
                 (height acc) (width acc).
Proof.
  revert acc. induction l as [|s l IH]; cbn [shape_cat_onto fold_left]; intros acc H.
  - injection H as <-. split; [constructor |]. now destruct acc.
  - destruct ((batch s =? batch acc) && (height s =? height acc)
              && (width s =? width acc))%bool eqn:G; [| discriminate].
    guard_facts. apply IH in H. cbn [batch channels height width] in H.
    destruct H as [Hall ->]. split; [| reflexivity].
    constructor; [auto | exact Hall].
Qed.

Lemma shape_cat_inv (x : Shape) (l : list Shape) (y : Shape) :
  shape_cat (x :: l) = Some y ->
  Forall (fun s => batch s = batch x /\ height s = height x
                   /\ width s = width x) l
  /\ y = mkShape (batch x) (fold_left (fun c s => c + channels s) l (channels x))
                 (height x) (width x).
Proof.
  apply shape_cat_onto_inv.
Qed.

Lemma shape_iadd_inv (x r y : Shape) : shape_iadd x r = Some y -> y = x.
Proof.
  unfold shape_iadd. intros H. inv_bind H.
  destruct (shape_eqb v x); [| discriminate]. now injection H as <-.
Qed.

Lemma shape_conv2d_same_inv (ci co k p g : Z) (b : bool) (x y : Shape) :
  k = 2 * p + 1 ->
  shape_conv2d (mkConv2d ci co (k, k) (1, 1) (p, p) (1, 1) g b) x = Some y ->
  channels x = ci /\ y = mkShape (batch x) co (height x) (width x).
Proof.
  intros -> H. apply shape_conv2d_stride1_inv in H. destruct H as [Hc ->].
  split; [exact Hc |]. f_equal; lia.
Qed.

Variable training : bool.
Abbreviation RT := (shape_runtime training).

Ltac shape_ops_in H :=
  cbn [conv2d batch_norm activation zero_pad2d max_pool2d upsample
       adaptive_avg_pool2d adaptive_max_pool2d torch_mean torch_max torch_cat
       torch_add torch_mul torch_iadd shape_runtime] in H.

Tactic Notation "inv_bind" hyp(H) "as" ident(a) ident(E) :=
  apply bind_Some in H; destruct H as (a & E & H).

Lemma Conv_forward_inv (c1 c2 : Z) (k : IntOrPair) (kh kw : Z) (x y : Shape) :
  _pair k = (kh, kw) ->
  Conv_forward (R := RT)
    (Conv_init c1 c2 k 1 (Some (Int 0)) 1 1 (ActBool true)) x = Some y ->
  channels x = c1
  /\ y = mkShape (batch x) c2 (height x - kh + 1) (width x - kw + 1).
Proof.
  intros Hk H. unfold Conv_forward, Conv_init in H. shape_ops_in H.
  cbn [Conv_conv Conv_bn Conv_act autopad] in H. cbv [nn_Conv2d] in H.
  rewrite Hk in H. cbn [_pair] in H.
  inv_bind H as y1 E1. inv_bind H as y2 E2. injection H as <-.
  apply shape_conv2d_stride1_inv in E1. destruct E1 as [Hc ->].
  apply shape_batch_norm_inv in E2. subst y2.
  split; [exact Hc |]. f_equal; lia.
Qed.

Lemma PConv_forward_inv (c1 c2 k : Z) (x y : Shape) :
  PConv_forward (R := RT) (PConv_init c1 c2 k 1) x = Some y ->
  channels x = c1 /\ y = mkShape (batch x) c2 (height x) (width x).
Proof.
  intros H. unfold PConv_forward, pad_at in H. rewrite PConv_init_pad in H.
  cbn [nth_error bind PConv_init cw ch cat] in H. shape_ops_in H.
  inv_bind H as x0 E0. inv_bind H as yw0 F0.
  inv_bind H as x1 E1. inv_bind H as yw1 F1.
  inv_bind H as x2 E2. inv_bind H as yh0 F2.
  inv_bind H as x3 E3. inv_bind H as yh1 F3.
  inv_bind H as u Eu.
  apply shape_zero_pad2d_inv in E0, E1, E2, E3. subst x0 x1 x2 x3.
  apply (Conv_forward_inv c1 (c2 / 4) (Pair 1 k) 1 k _ _ eq_refl) in F0, F1.
  apply (Conv_forward_inv c1 (c2 / 4) (Pair k 1) k 1 _ _ eq_refl) in F2, F3.
  cbn [batch channels height width pad_left pad_right pad_top pad_bottom] in *.
  destruct F0 as [Hc ->], F1 as [_ ->], F2 as [_ ->], F3 as [_ ->].
  apply shape_cat_inv in Eu. destruct Eu as [_ ->].
  apply (Conv_forward_inv c2 c2 (Int 2) 2 2 _ _ eq_refl) in H.
  cbn [batch channels height width fold_left] in H.
  destruct H as [_ ->]. split; [exact Hc |]. f_equal; lia.
Qed.

Lemma ChannelAttention_forward_inv (c ratio : Z) (x g : Shape) :
  ChannelAttention_forward (R := RT) (ChannelAttention_init c ratio) x = Some g ->
  channels x = c /\ g = mkShape (batch x) c 1 1.
Proof.
  intros H. unfold ChannelAttention_forward, ChannelAttention_init in H.
  shape_ops_in H.
  cbn [avg_pool max_pool fc1 fc2 relu1 ca_sigmoid avg_output_size
       max_output_size] in H.
  cbv [nn_Conv2d _pair] in H.
  inv_bind H as a Ea. inv_bind H as a' Ea'. inv_bind H as avg_out Eavg.
  inv_bind H as b Eb. inv_bind H as b' Eb'. inv_bind H as max_out Emax.
  inv_bind H as out Eout. injection H as <-.
  apply shape_adaptive_pool2d_inv in Ea, Eb. subst a b.
  apply (shape_conv2d_same_inv _ _ 1 0) in Ea', Eb'; try reflexivity.
  cbn [batch channels height width] in Ea', Eb'.
  destruct Ea' as [Hc ->], Eb' as [_ ->].
  apply (shape_conv2d_same_inv _ _ 1 0) in Eavg, Emax; try reflexivity.
  cbn [batch channels height width] in Eavg, Emax.
  destruct Eavg as [_ ->], Emax as [_ ->].
  rewrite broadcast_same in Eout. injection Eout as <-. auto.
Qed.

Lemma SpatialAttention_forward_inv (kernel_size : Z) (m : SpatialAttention)
    (x g : Shape) :
  SpatialAttention_init kernel_size = Some m ->
  SpatialAttention_forward (R := RT) m x = Some g ->
  g = mkShape (batch x) 1 (height x) (width x).
Proof.
  intros Hm H. unfold SpatialAttention_init in Hm.
  destruct ((kernel_size =? 3) || (kernel_size =? 7))%bool eqn:Hks;
    [| discriminate].
  injection Hm as <-.
  unfold SpatialAttention_forward in H. shape_ops_in H.
  cbn [sa_conv1 sa_sigmoid] in H. cbv [nn_Conv2d _pair] in H.
  inv_bind H as avg_out Ea. inv_bind H as max_out Em. inv_bind H as u Eu.
  inv_bind H as out Eo. injection H as <-.
  unfold shape_mean in Ea. injection Ea as <-.
  apply shape_max_inv in Em. subst max_out.
  apply shape_cat_inv in Eu. destruct Eu as [_ ->].
  cbn [batch channels height width fold_left] in Eo.
  apply orb_true_iff in Hks.
  destruct Hks as [E|E]; apply Z.eqb_eq in E; subst kernel_size;
    cbn [Z.eqb Pos.eqb] in Eo.
  - apply (shape_conv2d_same_inv _ _ 3 1) in Eo; [| reflexivity].
    now destruct Eo as [_ ->].
  - apply (shape_conv2d_same_inv _ _ 7 3) in Eo; [| reflexivity].
    now destruct Eo as [_ ->].
Qed.

(** The end of [ResNet.forward] on shapes, from the channel gate on:
    [H] is the rest of the run on a main-path tensor of known shape. *)
Ltac gates_inv H Hsa :=
  let g := fresh "g" in let Eg := fresh "Eg" in
  let out1 := fresh "out" in let E1 := fresh "E" in
  let g0 := fresh "g" in let Eg0 := fresh "Eg" in
  let out2 := fresh "out" in let E2 := fresh "E" in
  let out3 := fresh "out" in let E3 := fresh "E" in
  apply bind_Some in H; destruct H as (g & Eg & H);
  apply bind_Some in H; destruct H as (out1 & E1 & H);
  apply bind_Some in H; destruct H as (g0 & Eg0 & H);
  apply bind_Some in H; destruct H as (out2 & E2 & H);
  apply bind_Some in H; destruct H as (out3 & E3 & H);
  injection H as <-;
  apply ChannelAttention_forward_inv in Eg; destruct Eg as [_ ->];
  shape_ops_in E1; cbn [batch channels height width] in E1;
  rewrite broadcast_channel_gate in E1; injection E1 as <-;
  apply Hsa in Eg0; subst g0; cbn [batch channels height width] in E2;
  shape_ops_in E2; rewrite broadcast_spatial_gate in E2; injection E2 as <-;
  shape_ops_in E3; apply shape_iadd_inv in E3; subst out3.

(** Whatever a block of stride 1 returns has [out_channels] channels and
    the extent of the input. *)
Lemma ResNet_forward_inv (i o : Z) (pc : bool) (m : ResNet) (x y : Shape) :
  ResNet_init i o 1 pc = Some m ->
  ResNet_forward (R := RT) m x = Some y ->
  channels x = i /\ y = mkShape (batch x) o (height x) (width x).
Proof.
  intros Hm H. unfold ResNet_forward in H. inv_bind H as residual Er.
  pose proof (SpatialAttention_forward_inv 7 (sa m)) as Hsa.
  apply ResNet_init_inv in Hm. subst m.
  cbn [PC conv1 conv2 bn1 bn2 relu ca sa] in *.
  specialize (fun x g => Hsa x g eq_refl).
  destruct pc; cbn [ConvLayer_forward] in H.
  - inv_bind H as out Eo. inv_bind H as out' Eo'.
    apply PConv_forward_inv in Eo. destruct Eo as [Hc ->].
    apply PConv_forward_inv in Eo'. destruct Eo' as [_ ->].
    cbn [batch channels height width] in H.
    gates_inv H Hsa. auto.
  - shape_ops_in H. cbv [nn_Conv2d _pair] in H.
    inv_bind H as o1 E1. inv_bind H as o2 E2.
    inv_bind H as o3 E3. inv_bind H as o4 E4.
    apply (shape_conv2d_same_inv _ _ 3 1) in E1; [| reflexivity].
    destruct E1 as [Hc ->].
    apply shape_batch_norm_inv in E2. subst o2.
    apply (shape_conv2d_same_inv _ _ 3 1) in E3; [| reflexivity].
    destruct E3 as [_ ->].
    apply shape_batch_norm_inv in E4. subst o4.
    cbn [batch channels height width] in H.
    fold (nn_Conv2d 2 1 (Int 7) (Int 1) (Int 3) (Int 1) 1 false) in H.
    gates_inv H Hsa. auto.
Qed.

Lemma repeated_blocks_inv (o : Z) (idx : list nat) (bs : list ResNet)
    (x y : Shape) :
  mapM (fun _ => ResNet_init o o 1 false) idx = Some bs ->
  Sequential_forward (R := RT) bs x = Some y ->
  channels x = o ->
  y = mkShape (batch x) o (height x) (width x).
Proof.
  revert bs x. induction idx as [|j idx IH]; cbn [mapM]; intros bs x Hbs H Hc.
  - injection Hbs as <-. cbn in H. injection H as <-.
    rewrite <- Hc. now destruct x.
  - inv_bind Hbs as b Eb. inv_bind Hbs as bs' Ebs. injection Hbs as <-.
    cbn [Sequential_forward] in H. inv_bind H as z Ez.
    apply (ResNet_forward_inv o o false) in Ez; [| exact Eb].
    destruct Ez as [_ ->].
    now apply (IH bs') in H.
Qed.

(** Whatever a stage built by [_make_layer] returns has [out_channels]
    channels and the extent of the input. *)
Lemma make_layer_forward_inv (i o num : Z) (pc : bool) (l : list ResNet)
    (x y : Shape) :
  _make_layer i o ResNet_init num pc = Some l ->
  Sequential_forward (R := RT) l x = Some y ->
  channels x = i /\ y = mkShape (batch x) o (height x) (width x).
Proof.
  intros Hl H. unfold _make_layer in Hl.
  inv_bind Hl as b Eb. inv_bind Hl as bs Ebs. injection Hl as <-.
  cbn [app Sequential_forward] in H. inv_bind H as z Ez.
  apply (ResNet_forward_inv i o pc) in Ez; [| exact Eb].
  destruct Ez as [Hc ->]. split; [exact Hc |].
  now apply (repeated_blocks_inv o _ bs _ _ Ebs) in H.
Qed.

(** Whatever [MSHNet.forward] returns on shapes: the extent of the input
    is 16 times the extent at the bottleneck, and all shapes follow. *)
Lemma MSHNet_run_inv (ic : Z) (pc : bool) (net : MSHNet) (x : Shape)
    (warm_flag : bool) (fr : Frame Shape) (r : list Shape * Shape) :
  MSHNet_init ic ResNet_init pc = Some net ->
  MSHNet_run (R := RT) net x warm_flag = Some (fr, r) ->
  exists a b : Z,
    x = mkShape (batch x) ic (16 * a) (16 * b)
    /\ 1 <= a /\ 1 <= b
    /\ fr = stage_shapes (batch x) a b
    /\ r = (if warm_flag
            then [mkShape (batch x) 1 (16 * a) (16 * b);
                  mkShape (batch x) 1 (8 * a) (8 * b);
                  mkShape (batch x) 1 (4 * a) (4 * b);
                  mkShape (batch x) 1 (2 * a) (2 * b)]
            else [],
            mkShape (batch x) 1 (16 * a) (16 * b)).
Proof.
  intros Hnet H. unfold MSHNet_init in Hnet.
  cbv [ch_at blk_at param_channels param_blocks nth] in Hnet.
  init_guard Hnet.
  inv_bind Hnet as l_e0 L_e0. inv_bind Hnet as l_e1 L_e1.
  inv_bind Hnet as l_e2 L_e2. inv_bind Hnet as l_e3 L_e3.
  inv_bind Hnet as l_m L_m. inv_bind Hnet as l_d3 L_d3.
  inv_bind Hnet as l_d2 L_d2. inv_bind Hnet as l_d1 L_d1.
  inv_bind Hnet as l_d0 L_d0. injection Hnet as <-.
  unfold MSHNet_run in H.
  cbn [pool up up_4 up_8 conv_init encoder_0 encoder_1 encoder_2 encoder_3
       middle_layer decoder_3 decoder_2 decoder_1 decoder_0
       output_0 output_1 output_2 output_3 final] in H.
  shape_ops_in H. cbv [nn_Conv2d _pair] in H.
  destruct x as [n c h w]. cbn [batch].
  inv_bind H as x0 E0.
  apply (shape_conv2d_same_inv _ _ 1 0) in E0; [| reflexivity].
  cbn [batch channels height width] in E0. destruct E0 as [-> ->].
  inv_bind H as y_e0 E_e0.
  apply (make_layer_forward_inv _ _ _ _ _ _ _ L_e0) in E_e0.
  cbn [batch channels height width] in E_e0. destruct E_e0 as [_ ->].
  inv_bind H as p0 P0. apply shape_max_pool2d_inv in P0.
  cbn [batch channels height width] in P0. destruct P0 as (Hh1 & Hw1 & ->).
  cbn [height width] in Hh1, Hw1.
  set (h1 := (h - 2) / 2 + 1) in *. set (w1 := (w - 2) / 2 + 1) in *.
  inv_bind H as y_e1 E_e1.
  apply (make_layer_forward_inv _ _ _ _ _ _ _ L_e1) in E_e1.
  cbn [batch channels height width] in E_e1. destruct E_e1 as [_ ->].
  inv_bind H as p1 P1. apply shape_max_pool2d_inv in P1.
  cbn [batch channels height width] in P1. destruct P1 as (Hh2 & Hw2 & ->).
  cbn [height width] in Hh2, Hw2.
  set (h2 := (h1 - 2) / 2 + 1) in *. set (w2 := (w1 - 2) / 2 + 1) in *.
  inv_bind H as y_e2 E_e2.
  apply (make_layer_forward_inv _ _ _ _ _ _ _ L_e2) in E_e2.
  cbn [batch channels height width] in E_e2. destruct E_e2 as [_ ->].
  inv_bind H as p2 P2. apply shape_max_pool2d_inv in P2.
  cbn [batch channels height width] in P2. destruct P2 as (Hh3 & Hw3 & ->).
  cbn [height width] in Hh3, Hw3.
  set (h3 := (h2 - 2) / 2 + 1) in *. set (w3 := (w2 - 2) / 2 + 1) in *.
  inv_bind H as y_e3 E_e3.
  apply (make_layer_forward_inv _ _ _ _ _ _ _ L_e3) in E_e3.
  cbn [batch channels height width] in E_e3. destruct E_e3 as [_ ->].
  inv_bind H as p3 P3. apply shape_max_pool2d_inv in P3.
  cbn [batch channels height width] in P3. destruct P3 as (Hh4 & Hw4 & ->).
  cbn [height width] in Hh4, Hw4.
  set (h4 := (h3 - 2) / 2 + 1) in *. set (w4 := (w3 - 2) / 2 + 1) in *.
  inv_bind H as y_m E_m.
  apply (make_layer_forward_inv _ _ _ _ _ _ _ L_m) in E_m.
  cbn [batch channels height width] in E_m. destruct E_m as [_ ->].
  inv_bind H as u3 U3. apply shape_upsample_inv in U3.
  cbn [batch channels height width scale_factor] in U3. subst u3.
  inv_bind H as c3 C3. apply shape_cat_inv in C3.
  cbn [batch channels height width fold_left] in C3.
  destruct C3 as [F3 ->]. apply Forall_inv in F3.
  cbn [batch height width] in F3. destruct F3 as (_ & Fh3 & Fw3).
  inv_bind H as y_d3 E_d3.
  apply (make_layer_forward_inv _ _ _ _ _ _ _ L_d3) in E_d3.
  cbn [batch channels height width] in E_d3. destruct E_d3 as [_ ->].
  inv_bind H as u2 U2. apply shape_upsample_inv in U2.
  cbn [batch channels height width scale_factor] in U2. subst u2.
  inv_bind H as c2 C2. apply shape_cat_inv in C2.
  cbn [batch channels height width fold_left] in C2.
  destruct C2 as [F2 ->]. apply Forall_inv in F2.
  cbn [batch height width] in F2. destruct F2 as (_ & Fh2 & Fw2).
  inv_bind H as y_d2 E_d2.
  apply (make_layer_forward_inv _ _ _ _ _ _ _ L_d2) in E_d2.
  cbn [batch channels height width] in E_d2. destruct E_d2 as [_ ->].
  inv_bind H as u1 U1. apply shape_upsample_inv in U1.
  cbn [batch channels height width scale_factor] in U1. subst u1.
  inv_bind H as c1 C1. apply shape_cat_inv in C1.
  cbn [batch channels height width fold_left] in C1.
  destruct C1 as [F1 ->]. apply Forall_inv in F1.
  cbn [batch height width] in F1. destruct F1 as (_ & Fh1 & Fw1).
  inv_bind H as y_d1 E_d1.
  apply (make_layer_forward_inv _ _ _ _ _ _ _ L_d1) in E_d1.
  cbn [batch channels height width] in E_d1. destruct E_d1 as [_ ->].
  inv_bind H as u0 U0. apply shape_upsample_inv in U0.
  cbn [batch channels height width scale_factor] in U0. subst u0.
  inv_bind H as c0 C0. apply shape_cat_inv in C0.
  cbn [batch channels height width fold_left] in C0.
  destruct C0 as [F0 ->]. apply Forall_inv in F0.
  cbn [batch height width] in F0. destruct F0 as (_ & Fh0 & Fw0).
  inv_bind H as y_d0 E_d0.
  apply (make_layer_forward_inv _ _ _ _ _ _ _ L_d0) in E_d0.
  cbn [batch channels height width] in E_d0. destruct E_d0 as [_ ->].
  cbv zeta in H.
  clearbody h1 h2 h3 h4 w1 w2 w3 w4.
  assert (Eh3 : h3 = 2 * h4) by lia. assert (Eh2 : h2 = 4 * h4) by lia.
  assert (Eh1 : h1 = 8 * h4) by lia. assert (Eh : h = 16 * h4) by lia.
  assert (Ew3 : w3 = 2 * w4) by lia. assert (Ew2 : w2 = 4 * w4) by lia.
  assert (Ew1 : w1 = 8 * w4) by lia. assert (Ew : w = 16 * w4) by lia.
  clear Fh0 Fh1 Fh2 Fh3 Fw0 Fw1 Fw2 Fw3.
  subst h3 h2 h1 h w3 w2 w1 w.
  exists h4, w4. split; [reflexivity |]. split; [exact Hh4 |].
  split; [exact Hw4 |].
  destruct warm_flag.
  - inv_bind H as mask0 M0. inv_bind H as mask1 M1.
    inv_bind H as mask2 M2. inv_bind H as mask3 M3.
    apply (shape_conv2d_same_inv _ _ 1 0) in M0, M1, M2, M3; try reflexivity.
    cbn [batch channels height width] in M0, M1, M2, M3.
    destruct M0 as [_ ->], M1 as [_ ->], M2 as [_ ->], M3 as [_ ->].
    inv_bind H as v1 V1. inv_bind H as v2 V2. inv_bind H as v3 V3.
    apply shape_upsample_inv in V1, V2, V3.
    cbn [batch channels height width scale_factor] in V1, V2, V3.
    subst v1 v2 v3.
    inv_bind H as cc CC. apply shape_cat_inv in CC.
    cbn [batch channels height width fold_left] in CC. destruct CC as [_ ->].
    inv_bind H as output O.
    apply (shape_conv2d_same_inv _ _ 3 1) in O; [| reflexivity].
    cbn [batch channels height width] in O. destruct O as [_ ->].
    injection H as <- <-. split; reflexivity.
  - inv_bind H as output O.
    apply (shape_conv2d_same_inv _ _ 1 0) in O; [| reflexivity].
    cbn [batch channels height width] in O. destruct O as [_ ->].
    injection H as <- <-. split; reflexivity.
Qed.

End ShapeInversion.

(** ** The network on shapes: supervision mode and default mode *)

(** What the construction and call [MSHNet(ic, PC=pc)(x, warm_flag)]
    returns on a shape, whenever it returns. *)
Lemma MSHNet_shapes_inv (training : bool) (ic : Z) (pc : bool)
    (n H W : Z) (warm_flag : bool) (r : list Shape * Shape) :
  MSHNet_shapes training ic pc (mkShape n ic H W) warm_flag = Some r ->
  H mod 16 = 0 /\ W mod 16 = 0 /\ 0 < H /\ 0 < W
  /\ r = (if warm_flag
          then [mkShape n 1 H W; mkShape n 1 (H / 2) (W / 2);
                mkShape n 1 (H / 4) (W / 4); mkShape n 1 (H / 8) (W / 8)]
          else [],
          mkShape n 1 H W).
Proof.
  unfold MSHNet_shapes, MSHNet_call, MSHNet_forward. intros Hr.
  apply bind_Some in Hr. destruct Hr as (net & Hnet & Hr).
  destruct (MSHNet_run net (mkShape n ic H W) warm_flag) as [[fr r']|] eqn:Hrun;
    [| discriminate].
  cbn [option_map snd] in Hr. injection Hr as <-.
  apply (MSHNet_run_inv training ic pc) in Hrun; [| exact Hnet].
  destruct Hrun as (a & b & Hx & Ha & Hb & _ & ->).
  cbn [batch] in Hx |- *.
  pose proof (f_equal height Hx) as EH. pose proof (f_equal width Hx) as EW.
  cbn [height width] in EH, EW. clear Hx. subst H W.
  replace (16 * a / 2) with (8 * a) by zdiv.
  replace (16 * b / 2) with (8 * b) by zdiv.
  replace (16 * a / 4) with (4 * a) by zdiv.
  replace (16 * b / 4) with (4 * b) by zdiv.
  replace (16 * a / 8) with (2 * a) by zdiv.
  replace (16 * b / 8) with (2 * b) by zdiv.
  split; [zdiv |]. split; [zdiv |]. split; [lia |]. split; [lia | reflexivity].
Qed.

(** What it returns on an input it accepts. *)
Lemma MSHNet_shapes_total (training : bool) (ic : Z) (pc : bool)
    (n H W : Z) (warm_flag : bool) :
  0 < ic -> 0 < n -> 0 < H -> 0 < W -> H mod 16 = 0 -> W mod 16 = 0 ->
  bn_accepts training n (H / 16) (W / 16) ->
  exists net : MSHNet,
    MSHNet_init ic ResNet_init pc = Some net
    /\ MSHNet_run (R := shape_runtime training) net (mkShape n ic H W) warm_flag
       = Some (stage_shapes n (H / 16) (W / 16),
               (if warm_flag
                then [mkShape n 1 H W; mkShape n 1 (H / 2) (W / 2);
                      mkShape n 1 (H / 4) (W / 4); mkShape n 1 (H / 8) (W / 8)]
                else [],
                mkShape n 1 H W)).
Proof.
  intros Hic Hn HH HW HmH HmW Hbn.
  destruct (proj2 (MSHNet_init_total ic pc)) as [net Hnet]; [lia |].
  exists net. split; [exact Hnet |].
  remember (H / 16) as a eqn:Ea. remember (W / 16) as b eqn:Eb.
  assert (EH : H = 16 * a) by zdiv. assert (EW : W = 16 * b) by zdiv.
  clear Ea Eb. subst H W.
  rewrite (MSHNet_run_shapes training ic pc net n a b warm_flag)
    by (assumption || lia).
  replace (16 * a / 2) with (8 * a) by zdiv.
  replace (16 * b / 2) with (8 * b) by zdiv.
  replace (16 * a / 4) with (4 * a) by zdiv.
  replace (16 * b / 4) with (4 * b) by zdiv.
  replace (16 * a / 8) with (2 * a) by zdiv.
  replace (16 * b / 8) with (2 * b) by zdiv.
  reflexivity.
Qed.

(** C1 does not hold of every valid input.  In training mode the input
    (1, 3, 16, 16), whose extents are divisible by 16, reaches the
    bottleneck with one value per channel; the normalisation raises, and
    [forward] with the supervision flag true returns nothing. *)
Lemma MSHNet_supervision_shapes_counterexample :
  16 mod 16 = 0
  /\ MSHNet_shapes true 3 false (mkShape 1 3 16 16) true = None.
Proof.
  split; [reflexivity | vm_compute; reflexivity].
Qed.

(** C1, with the condition of the normalisation.  For every input of shape
    (batch, C, H, W) with C the configured channel count, positive sizes, H
    and W divisible by 16 and, in training mode, more than one value per
    channel at the bottleneck (batch * H/16 * W/16 <> 1), [MSHNet.forward]
    with the supervision flag true returns four one-channel auxiliary maps
    of spatial sizes HxW, (H/2)x(W/2), (H/4)x(W/4), (H/8)x(W/8) and a fused
    map of shape (batch, 1, H, W), with and without partial convolutions.
    On no input does it return anything else. *)
Theorem MSHNet_supervision_shapes (training : bool) (ic : Z) (pc : bool)
    (n H W : Z) :
  let x := mkShape n ic H W in
  let masks := [mkShape n 1 H W; mkShape n 1 (H / 2) (W / 2);
                mkShape n 1 (H / 4) (W / 4); mkShape n 1 (H / 8) (W / 8)] in
  (0 < ic -> 0 < n -> 0 < H -> 0 < W -> H mod 16 = 0 -> W mod 16 = 0 ->
   bn_accepts training n (H / 16) (W / 16) ->
   MSHNet_shapes training ic pc x true = Some (masks, mkShape n 1 H W))
  /\ (forall r : list Shape * Shape,
        MSHNet_shapes training ic pc x true = Some r ->
        r = (masks, mkShape n 1 H W)).
Proof.
  intros x masks. split.
  - intros Hic Hn HH HW HmH HmW Hbn.
    destruct (MSHNet_shapes_total training ic pc n H W true)
      as (net & Hnet & Hrun); try assumption.
    unfold MSHNet_shapes, MSHNet_call, MSHNet_forward.
    rewrite Hnet. cbn [bind]. fold x in Hrun. now rewrite Hrun.
  - intros r Hr. now apply MSHNet_shapes_inv in Hr.
Qed.

Lemma MSHNet_supervision_shapes_witness :
  MSHNet_shapes true 3 false (mkShape 1 3 256 256) true
  = Some ([mkShape 1 1 256 256; mkShape 1 1 128 128;
           mkShape 1 1 64 64; mkShape 1 1 32 32],
          mkShape 1 1 256 256).
Proof.
  apply (proj1 (MSHNet_supervision_shapes true 3 false 1 256 256));
    try reflexivity.
  unfold bn_accepts. intros _. vm_compute. lia.
Defined.

(** ** The two modes of [MSHNet.forward] as stages and heads *)

(** [MSHNet.forward] returns exactly when its stages return the frame and
    the heads selected by the flag return the result, for every runtime. *)
Lemma MSHNet_run_stages {T : Type} {R : Runtime T} (net : MSHNet) (x : T)
    (warm_flag : bool) (fr : Frame T) (r : list T * T) :
  MSHNet_run net x warm_flag = Some (fr, r) <->
  MSHNet_stages net x fr
  /\ (if warm_flag
      then mask0 <- conv2d (output_0 net) (x_d0 fr) ;;
           mask1 <- conv2d (output_1 net) (x_d1 fr) ;;
           mask2 <- conv2d (output_2 net) (x_d2 fr) ;;
           mask3 <- conv2d (output_3 net) (x_d3 fr) ;;
           u1 <- upsample (up net) mask1 ;;
           u2 <- upsample (up_4 net) mask2 ;;
           u3 <- upsample (up_8 net) mask3 ;;
           c <- torch_cat [mask0; u1; u2; u3] ;;
           output <- conv2d (final net) c ;;
           Some ([mask0; mask1; mask2; mask3], output)
      else output <- conv2d (output_0 net) (x_d0 fr) ;;
           Some ([], output)) = Some r.
Proof.
  unfold MSHNet_run, MSHNet_stages. split.
  - intros H.
    do 22 (apply bind_Some in H; destruct H as (? & ? & H)).
    cbv zeta in H.
    destruct warm_flag.
    + do 9 (apply bind_Some in H; destruct H as (? & ? & H)).
      injection H as <- <-. cbn [x_e0 x_e1 x_e2 x_e3 x_m x_d3 x_d2 x_d1 x_d0].
      split.
      * do 13 eexists. repeat (split; [eassumption |]). eassumption.
      * repeat match goal with
               | E : ?l = Some _ |- context [?l] => rewrite E; cbn [bind]
               end.
        reflexivity.
    + apply bind_Some in H; destruct H as (? & ? & H).
      injection H as <- <-. cbn [x_e0 x_e1 x_e2 x_e3 x_m x_d3 x_d2 x_d1 x_d0].
      split.
      * do 13 eexists. repeat (split; [eassumption |]). eassumption.
      * repeat match goal with
               | E : ?l = Some _ |- context [?l] => rewrite E; cbn [bind]
               end.
        reflexivity.
  - intros [(x0 & p0 & p1 & p2 & p3 & u3 & c3 & u2 & c2 & u1 & c1 & u0 & c0
             & E1 & E2 & E3 & E4 & E5 & E6 & E7 & E8 & E9 & E10 & E11 & E12
             & E13 & E14 & E15 & E16 & E17 & E18 & E19 & E20 & E21 & E22) Hh].
    destruct fr as [e0 e1 e2 e3 m d3 d2 d1 d0].
    cbn [x_e0 x_e1 x_e2 x_e3 x_m x_d3 x_d2 x_d1 x_d0] in *.
    rewrite E1. cbn [bind]. rewrite E2. cbn [bind]. rewrite E3. cbn [bind].
    rewrite E4. cbn [bind]. rewrite E5. cbn [bind]. rewrite E6. cbn [bind].
    rewrite E7. cbn [bind]. rewrite E8. cbn [bind]. rewrite E9. cbn [bind].
    rewrite E10. cbn [bind]. rewrite E11. cbn [bind]. rewrite E12. cbn [bind].
    rewrite E13. cbn [bind]. rewrite E14. cbn [bind]. rewrite E15. cbn [bind].
    rewrite E16. cbn [bind]. rewrite E17. cbn [bind]. rewrite E18. cbn [bind].
    rewrite E19. cbn [bind]. rewrite E20. cbn [bind]. rewrite E21. cbn [bind].
    rewrite E22. cbn [bind]. cbv zeta.
    destruct warm_flag.
    + do 9 (apply bind_Some in Hh; destruct Hh as (? & ? & Hh)).
      injection Hh as <-.
      repeat match goal with
             | E : ?l = Some _ |- context [?l] => rewrite E; cbn [bind]
             end.
      reflexivity.
    + apply bind_Some in Hh; destruct Hh as (? & ? & Hh).
      injection Hh as <-.
      repeat match goal with
             | E : ?l = Some _ |- context [?l] => rewrite E; cbn [bind]
             end.
      reflexivity.
Qed.

(** C2 does not hold of every valid input.  In training mode the input
    (1, 3, 16, 16), whose extents are divisible by 16, reaches the
    bottleneck with one value per channel; the normalisation raises, and
    [forward] with the supervision flag false returns nothing. *)
Lemma MSHNet_default_output_counterexample :
  16 mod 16 = 0
  /\ MSHNet_shapes true 3 false (mkShape 1 3 16 16) false = None.
Proof.
  split; [reflexivity | vm_compute; reflexivity].
Qed.

(** C2, with the condition of the normalisation.  For every input of shape
    (batch, C, H, W) with C the configured channel count, positive sizes, H
    and W divisible by 16 and, in training mode, more than one value per
    channel at the bottleneck (batch * H/16 * W/16 <> 1), [MSHNet.forward]
    with the supervision flag false returns the empty auxiliary list and a
    map of shape (batch, 1, H, W): the result of the 1x1 convolution
    [output_0] on the output [x_d0] of the finest decoder stage, which has
    16 channels and extent HxW.  On no input does it return another shape.
    For every runtime, the call returns exactly when the encoder,
    bottleneck and decoder stages return their outputs and [output_0]
    returns on [x_d0]; the result is then the empty list with that map. *)
Theorem MSHNet_default_output (training : bool) (ic : Z) (pc : bool)
    (n H W : Z) :
  let x := mkShape n ic H W in
  (0 < ic -> 0 < n -> 0 < H -> 0 < W -> H mod 16 = 0 -> W mod 16 = 0 ->
   bn_accepts training n (H / 16) (W / 16) ->
   MSHNet_shapes training ic pc x false = Some ([], mkShape n 1 H W)
   /\ exists (net : MSHNet) (fr : Frame Shape),
        MSHNet_init ic ResNet_init pc = Some net
        /\ MSHNet_stages (R := shape_runtime training) net x fr
        /\ x_d0 fr = mkShape n 16 H W
        /\ conv2d (Runtime := shape_runtime training) (output_0 net) (x_d0 fr)
           = Some (mkShape n 1 H W))
  /\ (forall r : list Shape * Shape,
        MSHNet_shapes training ic pc x false = Some r ->
        r = ([], mkShape n 1 H W))
  /\ (forall net : MSHNet,
        MSHNet_init ic ResNet_init pc = Some net ->
        output_0 net = nn_Conv2d 16 1 (Int 1) (Int 1) (Int 0) (Int 1) 1 true
        /\ forall (T : Type) (R : Runtime T) (t : T) (fr : Frame T)
                  (r : list T * T),
             MSHNet_run net t false = Some (fr, r) <->
             MSHNet_stages net t fr
             /\ exists output : T,
                  conv2d (output_0 net) (x_d0 fr) = Some output
                  /\ r = ([], output)).
Proof.
  intros x. split; [| split].
  - intros Hic Hn HH HW HmH HmW Hbn.
    destruct (MSHNet_shapes_total training ic pc n H W false)
      as (net & Hnet & Hrun); try assumption.
    fold x in Hrun. split.
    + unfold MSHNet_shapes, MSHNet_call, MSHNet_forward.
      rewrite Hnet. cbn [bind]. now rewrite Hrun.
    + apply MSHNet_run_stages in Hrun. destruct Hrun as [Hst Hhead].
      exists net, (stage_shapes n (H / 16) (W / 16)).
      split; [exact Hnet |]. split; [exact Hst |].
      apply bind_Some in Hhead. destruct Hhead as (output & Eout & Hhead).
      injection Hhead as <-.
      split; [| exact Eout].
      cbn [x_d0 stage_shapes]. f_equal; zdiv.
  - intros r Hr. now apply MSHNet_shapes_inv in Hr.
  - intros net Hnet. split.
    + unfold MSHNet_init in Hnet. init_guard Hnet. do 9 inv_bind Hnet.
      now injection Hnet as <-.
    + intros T R t fr r. rewrite MSHNet_run_stages. split.
      * intros [Hst Hhead]. split; [exact Hst |].
        apply bind_Some in Hhead. destruct Hhead as (output & Eout & Hhead).
        injection Hhead as <-. now exists output.
      * intros [Hst (output & Eout & ->)]. split; [exact Hst |].
        now rewrite Eout.
Qed.

Lemma MSHNet_default_output_witness :
  MSHNet_shapes true 3 true (mkShape 1 3 256 256) false
  = Some ([], mkShape 1 1 256 256)
  /\ exists (net : MSHNet) (fr : Frame Shape),
       MSHNet_init 3 ResNet_init true = Some net
       /\ MSHNet_stages (R := shape_runtime true) net (mkShape 1 3 256 256) fr
       /\ x_d0 fr = mkShape 1 16 256 256
       /\ conv2d (Runtime := shape_runtime true) (output_0 net) (x_d0 fr)
          = Some (mkShape 1 1 256 256).
Proof.
  apply (proj1 (MSHNet_default_output true 3 true 1 256 256));
    try reflexivity.
  unfold bn_accepts. intros _. vm_compute. lia.
Defined.

(** ** The partial convolution unit *)

(** The data flow of [PConv.forward], for every unit and every runtime. *)
Lemma PConv_forward_flow {T : Type} {R : Runtime T} (m : PConv) (t r : T) :
  PConv_forward m t = Some r <->
  exists t0 t1 t2 t3 yw0 yw1 yh0 yh1 u : T,
    pad_at m 0 t = Some t0 /\ Conv_forward (cw m) t0 = Some yw0
    /\ pad_at m 1 t = Some t1 /\ Conv_forward (cw m) t1 = Some yw1
    /\ pad_at m 2 t = Some t2 /\ Conv_forward (ch m) t2 = Some yh0
    /\ pad_at m 3 t = Some t3 /\ Conv_forward (ch m) t3 = Some yh1
    /\ torch_cat [yw0; yw1; yh0; yh1] = Some u
    /\ Conv_forward (cat m) u = Some r.
Proof.
  unfold PConv_forward. split.
  - intros H. do 9 inv_bind H.
    do 9 eexists. repeat (split; [eassumption |]). eassumption.
  - intros (t0 & t1 & t2 & t3 & yw0 & yw1 & yh0 & yh1 & u
            & E0 & F0 & E1 & F1 & E2 & F2 & E3 & F3 & Ec & Er).
    rewrite E0. cbn [bind]. rewrite F0. cbn [bind].
    rewrite E1. cbn [bind]. rewrite F1. cbn [bind].
    rewrite E2. cbn [bind]. rewrite F2. cbn [bind].
    rewrite E3. cbn [bind]. rewrite F3. cbn [bind].
    rewrite Ec. cbn [bind]. exact Er.
Qed.

(** C3 does not hold of every input.  In training mode, on the input
    (1, 16, 1, 1), the normalisation of the last unit of
    [PConv(16, 32, 4, 1)] sees one value per channel and raises. *)
Lemma PConv_stride1_shapes_counterexample :
  32 mod 4 = 0
  /\ PConv_forward (R := shape_runtime true) (PConv_init 16 32 4 1)
       (mkShape 1 16 1 1) = None.
Proof.
  split; [reflexivity | vm_compute; reflexivity].
Qed.

(** C3, with the condition of the normalisation.  [PConv] with kernel [k]
    and stride 1 applies the one 1xk convolution [cw] to the first two
    padded variants of its input and the one kx1 convolution [ch] to the
    other two, concatenates the four results and applies the 2x2 unit [cat]
    of stride 1 without padding.  On an input of shape (batch, c1, H, W)
    with positive sizes, with [c2] positive and divisible by 4 and [k]
    positive, and in training mode with more than one value per channel
    (batch * H * W <> 1), each of the four results has [c2 / 4] channels
    and the same extent (H+1)x(W+1), their concatenation has [c2] channels,
    and [cat] brings the extent back to HxW: the output has shape (batch,
    c2, H, W).  On no input of that shape does the unit return anything
    else. *)
Theorem PConv_stride1_shapes (training : bool) (c1 c2 k n h w : Z) :
  let R := shape_runtime training in
  let m := PConv_init c1 c2 k 1 in
  let x := mkShape n c1 h w in
  let xw := mkShape n c1 (h + 1) (w + k) in
  let xh := mkShape n c1 (h + k) (w + 1) in
  let y := mkShape n (c2 / 4) (h + 1) (w + 1) in
  (Conv_conv (cw m) = nn_Conv2d c1 (c2 / 4) (Pair 1 k) (Int 1) (Int 0) (Int 1) 1 false
   /\ Conv_conv (ch m) = nn_Conv2d c1 (c2 / 4) (Pair k 1) (Int 1) (Int 0) (Int 1) 1 false
   /\ Conv_conv (cat m) = nn_Conv2d c2 c2 (Int 2) (Int 1) (Int 0) (Int 1) 1 false)
  /\ (forall (T : Type) (RT : Runtime T) (t r : T),
        PConv_forward m t = Some r <->
        exists t0 t1 t2 t3 yw0 yw1 yh0 yh1 u : T,
          pad_at m 0 t = Some t0 /\ Conv_forward (cw m) t0 = Some yw0
          /\ pad_at m 1 t = Some t1 /\ Conv_forward (cw m) t1 = Some yw1
          /\ pad_at m 2 t = Some t2 /\ Conv_forward (ch m) t2 = Some yh0
          /\ pad_at m 3 t = Some t3 /\ Conv_forward (ch m) t3 = Some yh1
          /\ torch_cat [yw0; yw1; yh0; yh1] = Some u
          /\ Conv_forward (cat m) u = Some r)
  /\ (0 < c1 -> 0 < c2 -> c2 mod 4 = 0 -> 0 < k ->
      0 < n -> 0 < h -> 0 < w -> bn_accepts training n h w ->
      pad_at m 0 x = Some xw /\ pad_at m 1 x = Some xw
      /\ pad_at m 2 x = Some xh /\ pad_at m 3 x = Some xh
      /\ Conv_forward (cw m) xw = Some y /\ Conv_forward (ch m) xh = Some y
      /\ torch_cat [y; y; y; y] = Some (mkShape n c2 (h + 1) (w + 1))
      /\ Conv_forward (cat m) (mkShape n c2 (h + 1) (w + 1))
         = Some (mkShape n c2 h w)
      /\ PConv_forward m x = Some (mkShape n c2 h w))
  /\ (forall r : Shape, PConv_forward m x = Some r -> r = mkShape n c2 h w).
Proof.
  intros R m x xw xh y.
  split; [repeat split |]. split; [intros T RT; apply PConv_forward_flow |].
  split.
  - intros Hc1 Hc2 Hmod Hk Hn Hh Hw Hbn.
    assert (Hc2' : 4 <= c2) by zdiv.
    assert (Hq : 1 <= c2 / 4) by zdiv.
    assert (Hbn1 : bn_accepts training n (h + 1) (w + 1)).
    { intros _. nia. }
    assert (Hpad : forall g l r t b,
               nth_error (pad m) g = Some (mkZeroPad2d l r t b) ->
               0 <= l -> 0 <= r -> 0 <= t -> 0 <= b ->
               pad_at m g x = Some (mkShape n c1 (h + t + b) (w + l + r))).
    { intros g l r t b Hg ? ? ? ?. unfold pad_at. rewrite Hg. cbn [bind].
      apply shape_zero_pad2d_ok; lia. }
    repeat match goal with |- _ /\ _ => split end.
    + rewrite (Hpad 0%nat k 0 1 0) by (reflexivity || lia).
      unfold xw. do 2 f_equal; lia.
    + rewrite (Hpad 1%nat 0 k 0 1) by (reflexivity || lia).
      unfold xw. do 2 f_equal; lia.
    + rewrite (Hpad 2%nat 0 1 k 0) by (reflexivity || lia).
      unfold xh. do 2 f_equal; lia.
    + rewrite (Hpad 3%nat 1 0 0 k) by (reflexivity || lia).
      unfold xh. do 2 f_equal; lia.
    + apply (Conv_forward_shape training c1 (c2 / 4) (Pair 1 k) 1 k);
        first [reflexivity | assumption | lia].
    + apply (Conv_forward_shape training c1 (c2 / 4) (Pair k 1) k 1);
        first [reflexivity | assumption | lia].
    + unfold y. cbn [torch_cat R shape_runtime]. rewrite shape_cat4.
      do 2 f_equal. zdiv.
    + apply (Conv_forward_shape training c2 c2 (Int 2) 2 2);
        first [reflexivity | assumption | lia].
    + now apply PConv_forward_shape.
  - intros r Hr. apply PConv_forward_inv in Hr. now destruct Hr as [_ ->].
Qed.

Lemma PConv_stride1_shapes_witness :
  PConv_forward (R := shape_runtime true) (PConv_init 16 32 4 1)
    (mkShape 1 16 64 64)
  = Some (mkShape 1 32 64 64).
Proof.
  assert (Hbn : bn_accepts true 1 64 64).
  { unfold bn_accepts. intros _. vm_compute. lia. }
  pose proof (proj1 (proj2 (proj2 (PConv_stride1_shapes true 16 32 4 1 64 64)))
                ltac:(lia) ltac:(lia) eq_refl ltac:(lia)
                ltac:(lia) ltac:(lia) ltac:(lia) Hbn) as H.
  destruct H as (_ & _ & _ & _ & _ & _ & _ & _ & Hout).
  exact Hout.
Defined.

(** ** The residual block *)

(** C4 does not hold of every block with stride 1 and equal channel
    counts, whose shortcut is the identity.  [ResNet(8, 8)] returns in
    neither mode on the input (1, 8, 4, 4): its channel attention reduces
    8 channels to [8 // 16 = 0].  [ResNet(18, 18, PC=True)] does not
    return on (1, 18, 4, 4): its partial convolutions concatenate four
    branches of [18 // 4 = 4] channels, 16 in all, for a unit that expects
    18.  [ResNet(16, 16)] in training mode does not return on
    (1, 16, 1, 1), where the normalisation sees one value per channel. *)
Lemma ResNet_shortcut_identity_counterexample :
  (exists m : ResNet,
     ResNet_init 8 8 1 false = Some m
     /\ shortcut m = None
     /\ ResNet_forward (R := shape_runtime false) m (mkShape 1 8 4 4) = None
     /\ ResNet_forward (R := shape_runtime true) m (mkShape 1 8 4 4) = None)
  /\ (exists m : ResNet,
        ResNet_init 18 18 1 true = Some m
        /\ shortcut m = None
        /\ ResNet_forward (R := shape_runtime false) m (mkShape 1 18 4 4)
           = None)
  /\ (exists m : ResNet,
        ResNet_init 16 16 1 false = Some m
        /\ shortcut m = None
        /\ ResNet_forward (R := shape_runtime true) m (mkShape 1 16 1 1)
           = None).
Proof.
  split; [| split].
  - eexists. split; [vm_compute; reflexivity |].
    split; [reflexivity |]. split; vm_compute; reflexivity.
  - eexists. split; [vm_compute; reflexivity |].
    split; [reflexivity |]. vm_compute; reflexivity.
  - eexists. split; [vm_compute; reflexivity |].
    split; [reflexivity |]. vm_compute; reflexivity.
Qed.

(** C4, with the conditions under which an identity block returns.  The
    shortcut of a residual block is the identity exactly when the stride is
    1 and [in_channels = out_channels]: then [forward] adds the input
    itself.  Otherwise it is a 1x1 convolution of the given stride to
    [out_channels] followed by a normalisation.  Consequently a block with
    stride 1 and equal channel counts returns, whenever it returns, a
    tensor of the shape of its input; it returns on every input of
    [in_channels] channels and positive sizes, provided the block has at
    least 16 channels (the reduction of the channel attention), a multiple
    of 4 with partial convolutions, and in training mode the input has more
    than one value per channel. *)
Theorem ResNet_shortcut_identity (training : bool) (i o s : Z) (pc : bool)
    (m : ResNet) :
  ResNet_init i o s pc = Some m ->
  (shortcut m = None <-> s = 1 /\ i = o)
  /\ (s = 1 /\ i = o ->
      forall (T : Type) (R : Runtime T) (x : T), ResNet_residual m x = Some x)
  /\ (~ (s = 1 /\ i = o) ->
      shortcut m = Some (nn_Conv2d i o (Int 1) (Int s) (Int 0) (Int 1) 1 true,
                         nn_BatchNorm2d o)
      /\ forall (T : Type) (R : Runtime T) (x : T),
           ResNet_residual m x
           = (y <- conv2d (nn_Conv2d i o (Int 1) (Int s) (Int 0) (Int 1) 1 true) x ;;
              batch_norm (nn_BatchNorm2d o) y))
  /\ (s = 1 -> i = o ->
      forall x y : Shape,
        ResNet_forward (R := shape_runtime training) m x = Some y -> y = x)
  /\ (s = 1 -> i = o -> 16 <= o -> (pc = true -> o mod 4 = 0) ->
      forall n h w : Z,
        0 < n -> 0 < h -> 0 < w -> bn_accepts training n h w ->
        ResNet_forward (R := shape_runtime training) m (mkShape n i h w)
        = Some (mkShape n i h w)).
Proof.
  intros Hm. pose proof (ResNet_init_inv _ _ _ _ _ Hm) as Em.
  assert (Hsc : shortcut m
                = if (negb (s =? 1) || negb (o =? i))%bool
                  then Some (nn_Conv2d i o (Int 1) (Int s) (Int 0) (Int 1) 1 true,
                             nn_BatchNorm2d o)
                  else None) by (subst m; reflexivity).
  assert (Hid : s = 1 /\ i = o -> shortcut m = None).
  { intros [-> ->]. rewrite Hsc. now rewrite !Z.eqb_refl. }
  assert (Hproj : ~ (s = 1 /\ i = o) ->
                  shortcut m
                  = Some (nn_Conv2d i o (Int 1) (Int s) (Int 0) (Int 1) 1 true,
                          nn_BatchNorm2d o)).
  { intros Hne. rewrite Hsc.
    destruct (Z.eqb_spec s 1) as [Es|Es]; [| reflexivity].
    destruct (Z.eqb_spec o i) as [Eo|Eo]; [| reflexivity].
    exfalso. apply Hne. split; congruence. }
  split; [split | split; [| split; [split | split]]].
  - intros Hnone. destruct (Z.eq_dec s 1) as [Es|Es].
    + destruct (Z.eq_dec i o) as [Eo|Eo]; [tauto |].
      rewrite Hproj in Hnone by tauto. discriminate.
    + rewrite Hproj in Hnone by tauto. discriminate.
  - assumption.
  - intros Hso T R x. unfold ResNet_residual. now rewrite Hid.
  - now apply Hproj.
  - intros T R x. unfold ResNet_residual. now rewrite Hproj.
  - intros -> <- x y Hy.
    apply (ResNet_forward_inv training i i pc) in Hy; [| exact Hm].
    destruct Hy as [<- ->]. now destruct x.
  - intros -> <- Ho Hmod n h w Hn Hh Hw Hbn.
    apply (ResNet_forward_shape training i i pc); assumption || lia.
Qed.

Lemma ResNet_shortcut_identity_witness :
  exists m : ResNet,
    ResNet_init 16 16 1 false = Some m
    /\ shortcut m = None
    /\ ResNet_forward (R := shape_runtime true) m (mkShape 1 16 64 64)
       = Some (mkShape 1 16 64 64).
Proof.
  eexists. split; [vm_compute; reflexivity |].
  pose proof (ResNet_shortcut_identity true 16 16 1 false _ eq_refl)
    as (Hnone & _ & _ & _ & Hshape).
  split.
  - apply Hnone. split; reflexivity.
  - apply Hshape; [reflexivity | reflexivity | lia | discriminate | lia ..|].
    unfold bn_accepts. intros _. vm_compute. lia.
Defined.

(** ** Data flow of the [forward] methods, for every runtime *)

Section Dataflow.

Context {T : Type} {R : Runtime T}.

(** C9. A residual block in standard mode ([PC] false) computes, in this
    order: convolution, normalisation, rectification, convolution,
    normalisation, multiplication by the channel-attention gate,
    multiplication by the spatial-attention gate; its output is this
    main-path result with the shortcut result added, then rectified.  The
    block returns [y] exactly when every one of these steps succeeds and
    [y] is the last value. *)
Theorem ResNet_standard_order (i o s : Z) (m : ResNet) (x y : T) :
  ResNet_init i o s false = Some m ->
  let c1 := nn_Conv2d i o (Int 3) (Int s) (Int 1) (Int 1) 1 true in
  let c2 := nn_Conv2d o o (Int 3) (Int 1) (Int 1) (Int 1) 1 true in
  standard_block m = true
  /\ conv1 m = StdConv c1 /\ conv2 m = StdConv c2
  /\ (ResNet_forward m x = Some y <->
      exists o1 o2 o3 o4 g1 o5 g2 o6 residual o7 : T,
        conv2d c1 x = Some o1
        /\ batch_norm (bn1 m) o1 = Some o2
        /\ conv2d c2 (activation ReLU o2) = Some o3
        /\ batch_norm (bn2 m) o3 = Some o4
        /\ ChannelAttention_forward (ca m) o4 = Some g1
        /\ torch_mul g1 o4 = Some o5
        /\ SpatialAttention_forward (sa m) o5 = Some g2
        /\ torch_mul g2 o5 = Some o6
        /\ ResNet_residual m x = Some residual
        /\ torch_iadd o6 residual = Some o7
        /\ y = activation ReLU o7).
Proof.
  intros Hm c1 c2. apply ResNet_init_inv in Hm.
  assert (Hpc : PC m = false) by (subst m; reflexivity).
  assert (H1 : conv1 m = StdConv c1) by (subst m; reflexivity).
  assert (H2 : conv2 m = StdConv c2) by (subst m; reflexivity).
  assert (Hr : relu m = ReLU) by (subst m; reflexivity).
  clear Hm.
  split; [| split; [exact H1 | split; [exact H2 |]]].
  { unfold standard_block. now rewrite Hpc, H1, H2. }
  unfold ResNet_forward. rewrite Hpc, H1, H2, Hr. cbn [ConvLayer_forward].
  split.
  - intros H. do 10 inv_bind H. injection H as <-.
    do 10 eexists. repeat (split; [eassumption |]). reflexivity.
  - intros (o1 & o2 & o3 & o4 & g1 & o5 & g2 & o6 & residual & o7
            & E1 & E2 & E3 & E4 & E5 & E6 & E7 & E8 & E9 & E10 & ->).
    rewrite E9. cbn [bind]. rewrite E1. cbn [bind]. rewrite E2. cbn [bind].
    rewrite E3. cbn [bind]. rewrite E4. cbn [bind]. rewrite E5. cbn [bind].
    rewrite E6. cbn [bind]. rewrite E7. cbn [bind]. rewrite E8. cbn [bind].
    rewrite E10. reflexivity.
Qed.

(** C6. Two runs of [MSHNet.forward] on the same input, one with
    [warm_flag] true and one with [warm_flag] false, compute the same
    encoder outputs, bottleneck output and decoder outputs: whenever the
    supervision run returns, the default run returns with the same frame
    of stage outputs, and whenever both return their frames are equal.
    The flag only selects the heads applied to these decoder outputs and
    the pair returned. *)
Theorem MSHNet_flag_noninterference (net : MSHNet) (x : T) :
  (forall (f1 : Frame T) (r1 : list T * T),
     MSHNet_run net x true = Some (f1, r1) ->
     exists output : T, MSHNet_run net x false = Some (f1, ([], output)))
  /\ (forall (f1 f2 : Frame T) (r1 r2 : list T * T),
        MSHNet_run net x true = Some (f1, r1) ->
        MSHNet_run net x false = Some (f2, r2) ->
        f1 = f2
        /\ (exists mask0 mask1 mask2 mask3 u1 u2 u3 c output : T,
              conv2d (output_0 net) (x_d0 f1) = Some mask0
              /\ conv2d (output_1 net) (x_d1 f1) = Some mask1
              /\ conv2d (output_2 net) (x_d2 f1) = Some mask2
              /\ conv2d (output_3 net) (x_d3 f1) = Some mask3
              /\ upsample (up net) mask1 = Some u1
              /\ upsample (up_4 net) mask2 = Some u2
              /\ upsample (up_8 net) mask3 = Some u3
              /\ torch_cat [mask0; u1; u2; u3] = Some c
              /\ conv2d (final net) c = Some output
              /\ r1 = ([mask0; mask1; mask2; mask3], output))
        /\ (exists output : T,
              conv2d (output_0 net) (x_d0 f2) = Some output
              /\ r2 = ([], output))).
Proof.
  unfold MSHNet_run. split.
  - intros f1 r1 H1.
    do 22 (apply bind_Some in H1; destruct H1 as (? & E & H1);
           rewrite E; cbn [bind]; clear E).
    cbv zeta in H1 |- *.
    apply bind_Some in H1. destruct H1 as (mask0 & E0 & H1).
    rewrite E0. cbn [bind].
    do 8 inv_bind H1. injection H1 as <- <-.
    now exists mask0.
  - intros f1 f2 r1 r2 H1 H2.
    do 22 (apply bind_Some in H1; destruct H1 as (? & E & H1);
           rewrite E in H2; cbn [bind] in H2; clear E).
    cbv zeta in H1, H2.
    apply bind_Some in H1. destruct H1 as (mask0 & E0 & H1).
    rewrite E0 in H2. cbn [bind] in H2.
    do 8 inv_bind H1. injection H1 as <- <-. injection H2 as <- <-.
    split; [reflexivity |]. split.
    + do 9 eexists. cbn [x_d0 x_d1 x_d2 x_d3].
      repeat (split; [eassumption |]). reflexivity.
    + eexists. cbn [x_d0]. split; [eassumption | reflexivity].
Qed.

End Dataflow.


Lemma ResNet_standard_order_witness :
  exists m : ResNet,
    ResNet_init 16 16 1 false = Some m
    /\ standard_block m = true
    /\ ResNet_forward (R := shape_runtime true) m (mkShape 1 16 64 64)
       = Some (mkShape 1 16 64 64).
Proof.
  eexists. split; [vm_compute; reflexivity |].
  pose proof (@ResNet_standard_order Shape (shape_runtime true) 16 16 1 _
                (mkShape 1 16 64 64) (mkShape 1 16 64 64) eq_refl)
    as (Hstd & _ & _ & Hiff).
  split; [exact Hstd |].
  apply Hiff.
  exists (mkShape 1 16 64 64), (mkShape 1 16 64 64), (mkShape 1 16 64 64),
    (mkShape 1 16 64 64), (mkShape 1 16 1 1), (mkShape 1 16 64 64),
    (mkShape 1 1 64 64), (mkShape 1 16 64 64), (mkShape 1 16 64 64),
    (mkShape 1 16 64 64).
  repeat (split; [vm_compute; reflexivity |]). reflexivity.
Defined.

Lemma MSHNet_flag_noninterference_witness :
  exists net : MSHNet,
    MSHNet_init 3 ResNet_init false = Some net
    /\ MSHNet_run (R := shape_runtime true) net (mkShape 1 3 32 32) true
       = Some (stage_shapes 1 2 2,
               ([mkShape 1 1 32 32; mkShape 1 1 16 16;
                 mkShape 1 1 8 8; mkShape 1 1 4 4], mkShape 1 1 32 32))
    /\ MSHNet_run (R := shape_runtime true) net (mkShape 1 3 32 32) false
       = Some (stage_shapes 1 2 2, ([], mkShape 1 1 32 32))
    /\ conv2d (Runtime := shape_runtime true) (output_0 net)
         (x_d0 (stage_shapes 1 2 2))
       = Some (mkShape 1 1 32 32).
Proof.
  eexists. split; [vm_compute; reflexivity |].
  match goal with
  | |- MSHNet_run ?n ?x true = Some (?f, ?r1) /\ _ =>
      assert (H1 : MSHNet_run (R := shape_runtime true) n x true = Some (f, r1))
        by (vm_compute; reflexivity);
      assert (H2 : MSHNet_run (R := shape_runtime true) n x false
                   = Some (f, ([], mkShape 1 1 32 32)))
        by (vm_compute; reflexivity);
      pose proof (proj2 (@MSHNet_flag_noninterference Shape
                           (shape_runtime true) n x) _ _ _ _ H1 H2)
        as (_ & _ & (out & Hout & Er))
  end.
  split; [exact H1 |]. split; [exact H2 |].
  injection Er as <-. exact Hout.
Defined.

(** ** The heads of the supervision mode *)

(** C5. In supervision mode the three coarser auxiliary maps go through
    the upsampling modules of factor 2, 4 and 8, the finest map and the
    three upsampled maps are concatenated along the channel axis and fused
    by the 3x3 convolution [final] to one channel: for every runtime the
    call returns exactly when the stages and every one of these steps
    return, with the four maps before upsampling as auxiliary list.  On
    shapes, for an input the network accepts, the three upsampled maps
    have the extent HxW of the finest map, the concatenation has 4
    channels and the fused map has shape (batch, 1, H, W).  The module
    named [up_16] is built with scale factor 4, and no run of [forward]
    depends on it. *)
Theorem MSHNet_supervision_fusion (ic : Z) (pc : bool) (net : MSHNet) :
  MSHNet_init ic ResNet_init pc = Some net ->
  up net = nn_Upsample 2 bilinear true
  /\ up_4 net = nn_Upsample 4 bilinear true
  /\ up_8 net = nn_Upsample 8 bilinear true
  /\ up_16 net = nn_Upsample 4 bilinear true
  /\ final net = nn_Conv2d 4 1 (Int 3) (Int 1) (Int 1) (Int 1) 1 true
  /\ (forall (training : bool) (k n c h w : Z) (md : UpsampleMode) (a : bool),
        0 < k -> 0 < h -> 0 < w ->
        upsample (Runtime := shape_runtime training) (nn_Upsample k md a)
          (mkShape n c h w)
        = Some (mkShape n c (k * h) (k * w)))
  /\ (forall (T : Type) (R : Runtime T) (x : T) (fr : Frame T)
             (masks : list T) (output : T),
        MSHNet_run net x true = Some (fr, (masks, output)) <->
        MSHNet_stages net x fr
        /\ exists mask0 mask1 mask2 mask3 u1 u2 u3 c : T,
             masks = [mask0; mask1; mask2; mask3]
             /\ conv2d (output_0 net) (x_d0 fr) = Some mask0
             /\ conv2d (output_1 net) (x_d1 fr) = Some mask1
             /\ conv2d (output_2 net) (x_d2 fr) = Some mask2
             /\ conv2d (output_3 net) (x_d3 fr) = Some mask3
             /\ upsample (up net) mask1 = Some u1
             /\ upsample (up_4 net) mask2 = Some u2
             /\ upsample (up_8 net) mask3 = Some u3
             /\ torch_cat [mask0; u1; u2; u3] = Some c
             /\ conv2d (final net) c = Some output)
  /\ (forall (training : bool) (n H W : Z),
        0 < ic -> 0 < n -> 0 < H -> 0 < W -> H mod 16 = 0 -> W mod 16 = 0 ->
        bn_accepts training n (H / 16) (W / 16) ->
        let R := shape_runtime training in
        let mask0 := mkShape n 1 H W in
        let mask1 := mkShape n 1 (H / 2) (W / 2) in
        let mask2 := mkShape n 1 (H / 4) (W / 4) in
        let mask3 := mkShape n 1 (H / 8) (W / 8) in
        MSHNet_run net (mkShape n ic H W) true
        = Some (stage_shapes n (H / 16) (W / 16),
                ([mask0; mask1; mask2; mask3], mkShape n 1 H W))
        /\ upsample (up net) mask1 = Some mask0
        /\ upsample (up_4 net) mask2 = Some mask0
        /\ upsample (up_8 net) mask3 = Some mask0
        /\ torch_cat [mask0; mask0; mask0; mask0] = Some (mkShape n 4 H W)
        /\ conv2d (final net) (mkShape n 4 H W) = Some (mkShape n 1 H W))
  /\ (forall (T : Type) (R : Runtime T) (u : Upsample) (x : T)
             (warm_flag : bool),
        MSHNet_run (with_up_16 u net) x warm_flag = MSHNet_run net x warm_flag).
Proof.
  intros Hnet.
  assert (Hfields : up net = nn_Upsample 2 bilinear true
                    /\ up_4 net = nn_Upsample 4 bilinear true
                    /\ up_8 net = nn_Upsample 8 bilinear true
                    /\ up_16 net = nn_Upsample 4 bilinear true
                    /\ final net = nn_Conv2d 4 1 (Int 3) (Int 1) (Int 1) (Int 1) 1 true).
  { pose proof Hnet as Hnet'. unfold MSHNet_init in Hnet'. init_guard Hnet'.
    do 9 inv_bind Hnet'. injection Hnet' as <-. repeat split. }
  destruct Hfields as (E2 & E4 & E8 & E16 & Ef).
  do 4 (split; [assumption |]). split; [exact Ef |].
  split; [| split; [| split]].
  - intros training k n c h w md a Hk Hh Hw. cbn [upsample shape_runtime].
    apply shape_upsample_to; lia.
  - intros T R x fr masks output. rewrite MSHNet_run_stages. split.
    + intros [Hst Hhead]. split; [exact Hst |].
      do 9 inv_bind Hhead. injection Hhead as <- <-.
      do 8 eexists. split; [reflexivity |].
      repeat (split; [eassumption |]). eassumption.
    + intros [Hst (mask0 & mask1 & mask2 & mask3 & u1 & u2 & u3 & c
                   & -> & F0 & F1 & F2 & F3 & U1 & U2 & U3 & Ec & Eo)].
      split; [exact Hst |].
      rewrite F0. cbn [bind]. rewrite F1. cbn [bind]. rewrite F2. cbn [bind].
      rewrite F3. cbn [bind]. rewrite U1. cbn [bind]. rewrite U2. cbn [bind].
      rewrite U3. cbn [bind]. rewrite Ec. cbn [bind]. now rewrite Eo.
  - intros training n H W Hic Hn HH HW HmH HmW Hbn R mask0 mask1 mask2 mask3.
    destruct (MSHNet_shapes_total training ic pc n H W true)
      as (net' & Hnet' & Hrun); try assumption.
    rewrite Hnet in Hnet'. injection Hnet' as <-.
    split; [exact Hrun |].
    subst R mask0 mask1 mask2 mask3. rewrite E2, E4, E8, Ef.
    cbn [upsample torch_cat conv2d shape_runtime].
    split; [apply shape_upsample_to; (lia || zdiv) |].
    split; [apply shape_upsample_to; (lia || zdiv) |].
    split; [apply shape_upsample_to; (lia || zdiv) |].
    split; [now rewrite shape_cat4 |].
    cbv [nn_Conv2d _pair]. apply shape_conv2d_same; lia.
  - intros T R u x warm_flag. reflexivity.
Qed.

Lemma MSHNet_supervision_fusion_witness :
  exists net : MSHNet,
    MSHNet_init 3 ResNet_init false = Some net
    /\ MSHNet_run (R := shape_runtime true) net (mkShape 1 3 32 32) true
       = Some (stage_shapes 1 2 2,
               ([mkShape 1 1 32 32; mkShape 1 1 16 16;
                 mkShape 1 1 8 8; mkShape 1 1 4 4], mkShape 1 1 32 32))
    /\ upsample (Runtime := shape_runtime true) (up net) (mkShape 1 1 16 16)
       = Some (mkShape 1 1 32 32)
    /\ upsample (Runtime := shape_runtime true) (up_4 net) (mkShape 1 1 8 8)
       = Some (mkShape 1 1 32 32)
    /\ upsample (Runtime := shape_runtime true) (up_8 net) (mkShape 1 1 4 4)
       = Some (mkShape 1 1 32 32)
    /\ torch_cat (Runtime := shape_runtime true)
         [mkShape 1 1 32 32; mkShape 1 1 32 32;
          mkShape 1 1 32 32; mkShape 1 1 32 32]
       = Some (mkShape 1 4 32 32)
    /\ conv2d (Runtime := shape_runtime true) (final net) (mkShape 1 4 32 32)
       = Some (mkShape 1 1 32 32)
    /\ scale_factor (up_16 net) = 4.
Proof.
  eexists. split; [vm_compute; reflexivity |].
  pose proof (MSHNet_supervision_fusion 3 false _ eq_refl)
    as (_ & _ & _ & H16 & _ & _ & _ & Hshape & _).
  assert (Hbn : bn_accepts true 1 (32 / 16) (32 / 16)).
  { unfold bn_accepts. intros _. vm_compute. lia. }
  pose proof (Hshape true 1 32 32 ltac:(lia) ltac:(lia) ltac:(lia) ltac:(lia)
                eq_refl eq_refl Hbn)
    as (Hrun & U1 & U2 & U3 & Hc & Hf).
  exact (conj Hrun (conj U1 (conj U2 (conj U3 (conj Hc
           (conj Hf (f_equal scale_factor H16))))))).
Defined.

(** ** Where partial convolutions are used *)

(** The first block of a stage receives the [PC] argument of
    [_make_layer]; the blocks after it are built without it. *)
Lemma make_layer_blocks (i o num : Z) (pc : bool) (l : list ResNet) :
  _make_layer i o ResNet_init num pc = Some l ->
  exists (b : ResNet) (bs : list ResNet),
    l = b :: bs
    /\ (if pc then partial_block b else standard_block b) = true
    /\ forallb standard_block bs = true.
Proof.
  unfold _make_layer. intros Hl.
  apply bind_Some in Hl. destruct Hl as (b & Eb & Hl).
  apply bind_Some in Hl. destruct Hl as (bs & Ebs & Hl).
  injection Hl as <-. exists b, bs. split; [reflexivity |]. split.
  - apply ResNet_init_inv in Eb. subst b. now destruct pc.
  - clear b Eb. revert bs Ebs.
    induction (range (num - 1)) as [|j idx IH]; cbn [mapM]; intros bs Hbs.
    + now injection Hbs as <-.
    + apply bind_Some in Hbs. destruct Hbs as (b & Eb & Hbs).
      apply bind_Some in Hbs. destruct Hbs as (bs' & Ebs & Hbs).
      injection Hbs as <-.
      cbn [forallb]. rewrite (IH _ Ebs).
      apply ResNet_init_inv in Eb. now subst b.
Qed.

(** C10. In a network built with [PC] true, the first encoder stage is a
    single residual block with partial convolutions, and every block of
    the other encoder stages, of the bottleneck and of the four decoder
    stages is a standard-convolution block: [_make_layer] gives its [PC]
    argument to the first block only, and only the first encoder stage is
    built with it. *)
Theorem MSHNet_partial_blocks (ic : Z) (net : MSHNet) :
  MSHNet_init ic ResNet_init true = Some net ->
  (exists b : ResNet, encoder_0 net = [b] /\ partial_block b = true)
  /\ forallb standard_block
       (encoder_1 net ++ encoder_2 net ++ encoder_3 net ++ middle_layer net
        ++ decoder_3 net ++ decoder_2 net ++ decoder_1 net ++ decoder_0 net)
     = true
  /\ (forall (i o num : Z) (pc : bool) (l : list ResNet),
        _make_layer i o ResNet_init num pc = Some l ->
        exists (b : ResNet) (bs : list ResNet),
          l = b :: bs /\ PC b = pc /\ forallb standard_block bs = true).
Proof.
  intros Hnet. unfold MSHNet_init in Hnet.
  cbv [ch_at blk_at param_channels param_blocks nth] in Hnet.
  init_guard Hnet.
  do 9 inv_bind Hnet. injection Hnet as <-.
  cbn [encoder_0 encoder_1 encoder_2 encoder_3 middle_layer
       decoder_3 decoder_2 decoder_1 decoder_0].
  split; [| split].
  - match goal with
    | H : _make_layer _ _ _ _ true = Some _ |- _ => rename H into Hfirst
    end.
    unfold _make_layer in Hfirst.
    apply bind_Some in Hfirst. destruct Hfirst as (b & Eb & Hfirst).
    apply bind_Some in Hfirst. destruct Hfirst as (bs & Ebs & Hfirst).
    cbn in Ebs. injection Ebs as <-. injection Hfirst as <-.
    exists b. split; [reflexivity |].
    apply ResNet_init_inv in Eb. now subst b.
  - repeat rewrite forallb_app.
    repeat match goal with
           | H : _make_layer _ _ _ _ false = Some _ |- _ =>
               apply make_layer_blocks in H;
               destruct H as (? & ? & -> & ? & ?)
           end.
    cbn [forallb].
    repeat match goal with
           | H : _ = true |- _ => rewrite H; clear H
           end.
    reflexivity.
  - intros i o num pc l Hl.
    pose proof (make_layer_blocks _ _ _ _ _ Hl) as (b & bs & -> & Hb & Hbs).
    exists b, bs. split; [reflexivity |]. split; [| exact Hbs].
    unfold partial_block, standard_block in Hb.
    destruct pc, (PC b); cbn in Hb; congruence.
Qed.

Lemma MSHNet_partial_blocks_witness :
  exists net : MSHNet,
    MSHNet_init 3 ResNet_init true = Some net
    /\ (exists b : ResNet, encoder_0 net = [b] /\ partial_block b = true)
    /\ forallb standard_block
         (encoder_1 net ++ encoder_2 net ++ encoder_3 net ++ middle_layer net
          ++ decoder_3 net ++ decoder_2 net ++ decoder_1 net ++ decoder_0 net)
       = true.
Proof.
  eexists. split; [vm_compute; reflexivity |].
  pose proof (MSHNet_partial_blocks 3 _ eq_refl) as (Hfirst & Hrest & _).
  exact (conj Hfirst Hrest).
Defined.

(** ** The attention gates *)

Section Gates.

Context {T : Type} {R : Runtime T}.

(** The channel attention passes the sum of the two bottleneck outputs,
    of the average-pooled and of the max-pooled descriptor, through the
    sigmoid of the runtime. *)
Lemma ChannelAttention_forward_gate (in_planes ratio : Z) (x y : T) :
  let m := ChannelAttention_init in_planes ratio in
  ChannelAttention_forward m x = Some y <->
  exists a a' avg_out b b' max_out out : T,
    adaptive_avg_pool2d (nn_AdaptiveAvgPool2d 1) x = Some a
    /\ conv2d (fc1 m) a = Some a'
    /\ conv2d (fc2 m) (activation ReLU a') = Some avg_out
    /\ adaptive_max_pool2d (nn_AdaptiveMaxPool2d 1) x = Some b
    /\ conv2d (fc1 m) b = Some b'
    /\ conv2d (fc2 m) (activation ReLU b') = Some max_out
    /\ torch_add avg_out max_out = Some out
    /\ y = activation Sigmoid out.
Proof.
  intros m. unfold ChannelAttention_forward.
  change (avg_pool m) with (nn_AdaptiveAvgPool2d 1).
  change (max_pool m) with (nn_AdaptiveMaxPool2d 1).
  change (relu1 m) with ReLU. change (ca_sigmoid m) with Sigmoid.
  split.
  - intros H. do 7 inv_bind H. injection H as <-.
    do 7 eexists. repeat (split; [eassumption |]). reflexivity.
  - intros (a & a' & avg_out & b & b' & max_out & out
            & E1 & E2 & E3 & E4 & E5 & E6 & E7 & ->).
    rewrite E1. cbn [bind]. rewrite E2. cbn [bind]. rewrite E3. cbn [bind].
    rewrite E4. cbn [bind]. rewrite E5. cbn [bind]. rewrite E6. cbn [bind].
    rewrite E7. reflexivity.
Qed.

(** The spatial attention passes the convolution of the concatenated
    channel-wise mean and maximum through the sigmoid of the runtime. *)
Lemma SpatialAttention_forward_gate (kernel_size : Z) (m : SpatialAttention)
    (x y : T) :
  SpatialAttention_init kernel_size = Some m ->
  SpatialAttention_forward m x = Some y <->
  exists avg_out max_out c out : T,
    torch_mean x = Some avg_out /\ torch_max x = Some max_out
    /\ torch_cat [avg_out; max_out] = Some c
    /\ conv2d (sa_conv1 m) c = Some out
    /\ y = activation Sigmoid out.
Proof.
  intros Hm. unfold SpatialAttention_init in Hm.
  destruct ((kernel_size =? 3) || (kernel_size =? 7))%bool; [| discriminate].
  injection Hm as <-. unfold SpatialAttention_forward. cbn [sa_conv1 sa_sigmoid].
  split.
  - intros H. do 4 inv_bind H. injection H as <-.
    do 4 eexists. repeat (split; [eassumption |]). reflexivity.
  - intros (avg_out & max_out & c & out & E1 & E2 & E3 & E4 & ->).
    rewrite E1. cbn [bind]. rewrite E2. cbn [bind]. rewrite E3. cbn [bind].
    rewrite E4. reflexivity.
Qed.

End Gates.

(** * Further properties of the modules *)

(** ** Arithmetic of extents *)

(** A product with a factor of at least 2 is not 1: a tensor with an extent
    of at least 2 passes the check of the normalisation. *)
Lemma product_not_1 (n a b : Z) : 2 <= a -> n * a * b <> 1.
Proof.
  intros Ha E. replace (n * a * b) with (a * (n * b)) in E by ring.
  apply Z.mul_eq_1 in E. lia.
Qed.

Lemma bn_accepts_large (training : bool) (n a b : Z) :
  2 <= a -> bn_accepts training n a b.
Proof.
  intros Ha _. now apply product_not_1.
Qed.

(** ** Convolution and normalisation on shapes: when they return *)

(** A convolution of dilation 1 and one group returns exactly on the
    inputs that pass its checks. *)
Lemma shape_conv2d_iff (ci co kh kw s ph pw : Z) (b : bool) (x y : Shape) :
  shape_conv2d (mkConv2d ci co (kh, kw) (s, s) (ph, pw) (1, 1) 1 b) x = Some y
  <->
  0 < kh /\ 0 < kw /\ 0 < s /\ 0 <= ph /\ 0 <= pw /\ 1 <= co
  /\ 0 < ci /\ channels x = ci
  /\ kh <= height x + 2 * ph /\ kw <= width x + 2 * pw
  /\ y = mkShape (batch x) co ((height x + 2 * ph - kh) / s + 1)
                 ((width x + 2 * pw - kw) / s + 1).
Proof.
  unfold shape_conv2d, conv_out.
  cbn [kernel_size stride padding dilation groups in_channels out_channels
       fst snd].
  rewrite !Z.mod_1_r.
  replace (height x + 2 * ph - 1 * (kh - 1) - 1) with (height x + 2 * ph - kh)
    by lia.
  replace (width x + 2 * pw - 1 * (kw - 1) - 1) with (width x + 2 * pw - kw)
    by lia.
  split.
  - intros H. inv_guard H. subst y. repeat split; lia.
  - intros (? & ? & ? & ? & ? & ? & ? & ? & ? & ? & ->).
    match goal with
    | |- (if ?g then _ else _) = _ => assert (Hg : g = true) by (guard_true; lia)
    end.
    now rewrite Hg.
Qed.

(** A convolution that returns on some input can be constructed. *)
Lemma shape_conv2d_constructs (c : Conv2d) (x y : Shape) :
  shape_conv2d c x = Some y -> Conv2d_constructs c = true.
Proof.
  unfold shape_conv2d. cbv zeta. intros H. inv_guard H.
  unfold Conv2d_constructs. guard_true; try lia; try assumption.
  apply Z.div_pos; lia.
Qed.

Lemma shape_batch_norm_iff (training : bool) (c : Z) (x y : Shape) :
  shape_batch_norm training (nn_BatchNorm2d c) x = Some y <->
  channels x = c /\ bn_accepts training (batch x) (height x) (width x) /\ y = x.
Proof.
  unfold shape_batch_norm, bn_accepts. cbn [num_features]. split.
  - intros H.
    destruct (Z.eqb_spec (channels x) c) as [Ec|Ec]; [| discriminate].
    cbn [andb] in H.
    destruct training; cbn [andb negb] in H.
    + destruct (Z.eqb_spec (batch x * height x * width x) 1) as [E|E];
        [discriminate |].
      injection H as <-. auto.
    + injection H as <-. repeat split; [assumption | discriminate].
  - intros (-> & Hbn & ->). rewrite Z.eqb_refl. cbn [andb].
    destruct training; cbn [andb negb]; [| reflexivity].
    destruct (Z.eqb_spec (batch x * height x * width x) 1) as [E|E];
      [| reflexivity].
    exfalso. now apply Hbn.
Qed.

(** [Conv] with explicit padding 0, one group, dilation 1. *)
Lemma Conv_forward_iff (training : bool) (c1 c2 : Z) (k : IntOrPair)
    (kh kw s : Z) (act : ActArg) (x y : Shape) :
  _pair k = (kh, kw) ->
  Conv_forward (R := shape_runtime training)
    (Conv_init c1 c2 k s (Some (Int 0)) 1 1 act) x = Some y
  <->
  0 < kh /\ 0 < kw /\ 0 < s /\ 1 <= c2 /\ 0 < c1 /\ channels x = c1
  /\ kh <= height x /\ kw <= width x
  /\ bn_accepts training (batch x) ((height x - kh) / s + 1)
       ((width x - kw) / s + 1)
  /\ y = mkShape (batch x) c2 ((height x - kh) / s + 1) ((width x - kw) / s + 1).
Proof.
  intros Hk. unfold Conv_forward, Conv_init.
  cbn [conv2d batch_norm activation shape_runtime Conv_conv Conv_bn autopad].
  cbv [nn_Conv2d]. rewrite Hk. cbn [_pair].
  split.
  - intros H. apply bind_Some in H. destruct H as (y1 & E1 & H).
    apply bind_Some in H. destruct H as (y2 & E2 & H). injection H as <-.
    apply shape_conv2d_iff in E1.
    destruct E1 as (? & ? & ? & _ & _ & ? & ? & ? & ? & ? & ->).
    apply shape_batch_norm_iff in E2.
    cbn [batch channels height width] in E2. destruct E2 as (_ & Hbn & ->).
    replace (height x + 2 * 0 - kh) with (height x - kh) in * by lia.
    replace (width x + 2 * 0 - kw) with (width x - kw) in * by lia.
    repeat split; (assumption || lia).
  - intros (? & ? & ? & ? & ? & ? & ? & ? & Hbn & ->).
    assert (E1 : shape_conv2d (mkConv2d c1 c2 (kh, kw) (s, s) (0, 0) (1, 1) 1 false) x
                 = Some (mkShape (batch x) c2 ((height x + 2 * 0 - kh) / s + 1)
                           ((width x + 2 * 0 - kw) / s + 1))).
    { apply shape_conv2d_iff. repeat split; lia. }
    rewrite E1. cbn [bind].
    replace (height x + 2 * 0 - kh) with (height x - kh) by lia.
    replace (width x + 2 * 0 - kw) with (width x - kw) by lia.
    assert (E2 : shape_batch_norm training (nn_BatchNorm2d c2)
                   (mkShape (batch x) c2 ((height x - kh) / s + 1)
                      ((width x - kw) / s + 1))
                 = Some (mkShape (batch x) c2 ((height x - kh) / s + 1)
                           ((width x - kw) / s + 1))).
    { apply shape_batch_norm_iff. cbn [batch channels height width]. auto. }
    now rewrite E2.
Qed.

(** ** [autopad] and [Conv] *)

(** X1. An explicit padding is returned as it is.  Without one, [autopad]
    returns half of the effective kernel size [d * (k - 1) + 1]; a window
    of stride 1 with this padding keeps the extent when the effective
    kernel size is odd and makes it one larger when it is even. *)
Theorem autopad_same_extent (k d i : Z) :
  0 < k -> 0 < d ->
  (forall (k' p : IntOrPair) (d' : Z), autopad k' (Some p) d' = p)
  /\ autopad (Int k) None d = Int ((d * (k - 1) + 1) / 2)
  /\ (forall b : Z,
        0 < b ->
        autopad (Pair k b) None d
        = Pair ((d * (k - 1) + 1) / 2) ((d * (b - 1) + 1) / 2))
  /\ conv_out i k 1 ((d * (k - 1) + 1) / 2) d
     = if Z.odd (d * (k - 1) + 1) then i else i + 1.
Proof.
  intros Hk Hd.
  assert (Hint : forall a, autopad (Int a) None d = Int ((d * (a - 1) + 1) / 2)).
  { intros a. unfold autopad. destruct (Z.ltb_spec 1 d) as [H1|H1];
      [reflexivity |].
    assert (d = 1) by lia. subst d. do 2 f_equal. lia. }
  split; [reflexivity |]. split; [apply Hint |]. split.
  - intros b Hb. unfold autopad. destruct (Z.ltb_spec 1 d) as [H1|H1];
      [reflexivity |].
    assert (d = 1) by lia. subst d. f_equal; f_equal; lia.
  - unfold conv_out. rewrite Z.div_1_r.
    set (e := d * (k - 1) + 1). replace (d * (k - 1)) with (e - 1) by (unfold e; lia).
    destruct (Z.odd e) eqn:Ho.
    + apply Z.odd_spec in Ho. destruct Ho as [q Hq]. rewrite Hq. zdiv.
    + rewrite <- Z.negb_even in Ho. apply negb_false_iff in Ho.
      apply Z.even_spec in Ho. destruct Ho as [q Hq]. rewrite Hq. zdiv.
Qed.

Lemma autopad_same_extent_witness :
  autopad (Int 3) None 1 = Int 1 /\ conv_out 64 3 1 1 1 = 64
  /\ autopad (Int 4) None 1 = Int 2 /\ conv_out 64 4 1 2 1 = 65.
Proof.
  pose proof (autopad_same_extent 3 1 64 ltac:(lia) ltac:(lia))
    as (_ & H3 & _ & C3).
  pose proof (autopad_same_extent 4 1 64 ltac:(lia) ltac:(lia))
    as (_ & H4 & _ & C4).
  exact (conj H3 (conj C3 (conj H4 C4))).
Defined.

(** X2. [Conv] with its default padding, an odd kernel [k], one group and
    no dilation, called on a tensor of shape (n, c1, h, w), returns
    exactly when the channel counts, the stride and the extents are
    positive and the normalisation accepts the output (in training mode:
    more than one value per channel).  It then maps an extent [h] to
    [(h - 1) / s + 1], the number of strides that fit, and the output has
    [c2] channels; with stride 1 the extent is kept. *)
Theorem Conv_default_padding_shape (training : bool) (c1 c2 k s n h w : Z)
    (y : Shape) :
  0 < k -> Z.odd k = true ->
  let m := Conv_init c1 c2 (Int k) s None 1 1 (ActBool true) in
  let x := mkShape n c1 h w in
  (Conv_forward (R := shape_runtime training) m x = Some y
   <->
   0 < c1 /\ 0 < c2 /\ 0 < s /\ 0 < h /\ 0 < w
   /\ bn_accepts training n ((h - 1) / s + 1) ((w - 1) / s + 1)
   /\ y = mkShape n c2 ((h - 1) / s + 1) ((w - 1) / s + 1))
  /\ (s = 1 -> 0 < c1 -> 0 < c2 -> 0 < h -> 0 < w ->
      bn_accepts training n h w ->
      Conv_forward (R := shape_runtime training) m x = Some (mkShape n c2 h w)).
Proof.
  intros Hk Ho m x.
  apply Z.odd_spec in Ho. destruct Ho as [q Hq].
  assert (Hp : k / 2 = q) by zdiv.
  assert (Hiff : forall z : Shape,
             Conv_forward (R := shape_runtime training) m x = Some z
             <->
             0 < c1 /\ 0 < c2 /\ 0 < s /\ 0 < h /\ 0 < w
             /\ bn_accepts training n ((h - 1) / s + 1) ((w - 1) / s + 1)
             /\ z = mkShape n c2 ((h - 1) / s + 1) ((w - 1) / s + 1)).
  { intros z. subst m x. unfold Conv_forward, Conv_init.
    cbn [conv2d batch_norm activation shape_runtime Conv_conv Conv_bn].
    unfold autopad. change (1 <? 1) with false. cbv iota.
    cbv [nn_Conv2d _pair]. rewrite Hp. split.
    - intros H. apply bind_Some in H. destruct H as (z1 & E1 & H).
      apply bind_Some in H. destruct H as (z2 & E2 & H).
      injection H as <-.
      apply shape_conv2d_iff in E1.
      cbn [batch channels height width] in E1.
      destruct E1 as (_ & _ & Hs & _ & _ & Hc2 & Hc1 & _ & Hh & Hw & ->).
      replace (h + 2 * q - k) with (h - 1) in E2 by lia.
      replace (w + 2 * q - k) with (w - 1) in E2 by lia.
      apply shape_batch_norm_iff in E2.
      cbn [batch channels height width] in E2.
      destruct E2 as (_ & Hbn & ->).
      repeat match goal with |- _ /\ _ => split end;
        first [lia | assumption | reflexivity].
    - intros (Hc1 & Hc2 & Hs & Hh & Hw & Hbn & ->).
      assert (E1 : shape_conv2d
                     (mkConv2d c1 c2 (k, k) (s, s) (q, q) (1, 1) 1 false)
                     (mkShape n c1 h w)
                   = Some (mkShape n c2 ((h + 2 * q - k) / s + 1)
                             ((w + 2 * q - k) / s + 1))).
      { apply shape_conv2d_iff. cbn [batch channels height width].
        repeat split; lia. }
      rewrite E1. cbn [bind].
      replace (h + 2 * q - k) with (h - 1) by lia.
      replace (w + 2 * q - k) with (w - 1) by lia.
      rewrite shape_batch_norm_ok by assumption. reflexivity. }
  split; [apply Hiff |].
  intros -> Hc1 Hc2 Hh Hw Hbn. apply Hiff.
  rewrite !Z.div_1_r.
  replace (h - 1 + 1) with h by lia. replace (w - 1 + 1) with w by lia.
  repeat match goal with |- _ /\ _ => split end;
    first [lia | assumption | reflexivity].
Qed.

Lemma Conv_default_padding_shape_witness :
  Conv_forward (R := shape_runtime true)
    (Conv_init 3 16 (Int 3) 2 None 1 1 (ActBool true)) (mkShape 1 3 64 64)
  = Some (mkShape 1 16 32 32).
Proof.
  apply (proj1 (Conv_default_padding_shape true 3 16 3 2 1 64 64
                  (mkShape 1 16 32 32) ltac:(lia) eq_refl)).
  repeat match goal with |- _ /\ _ => split end; try lia; try reflexivity.
  unfold bn_accepts. intros _. vm_compute. lia.
Defined.

(** X3. On shapes, [Conv.forward] returns a result exactly when
    [Conv.forward_fuse] returns it and the normalisation accepts it: the
    fused call gives the same shape and drops only the training-mode
    check of the normalisation. *)
Theorem Conv_forward_fuse_shape (training : bool) (c1 c2 : Z)
    (k : IntOrPair) (s : Z) (p : option IntOrPair) (g d : Z) (act : ActArg)
    (x y : Shape) :
  let m := Conv_init c1 c2 k s p g d act in
  Conv_forward (R := shape_runtime training) m x = Some y
  <->
  Conv_forward_fuse (R := shape_runtime training) m x = Some y
  /\ bn_accepts training (batch y) (height y) (width y).
Proof.
  intros m. unfold Conv_forward, Conv_forward_fuse.
  cbn [conv2d batch_norm activation shape_runtime].
  change (Conv_bn m) with (nn_BatchNorm2d c2).
  assert (Hch : forall z, shape_conv2d (Conv_conv m) x = Some z -> channels z = c2).
  { intros z Hz. unfold shape_conv2d in Hz.
    match type of Hz with
    | (if ?g then _ else _) = _ => destruct g; [| discriminate]
    end.
    injection Hz as <-. reflexivity. }
  destruct (shape_conv2d (Conv_conv m) x) as [z|] eqn:Ez; cbn [bind].
  - specialize (Hch z eq_refl). split.
    + intros H. apply bind_Some in H. destruct H as (z' & E & H).
      injection H as <-. apply shape_batch_norm_iff in E.
      destruct E as (_ & Hbn & ->). auto.
    + intros [H Hbn]. injection H as <-.
      assert (E : shape_batch_norm training (nn_BatchNorm2d c2) z = Some z)
        by (apply shape_batch_norm_iff; auto).
      now rewrite E.
  - split; [discriminate | intros [H _]; discriminate].
Qed.

(** ** [PConv] with any stride *)

Lemma shape_zero_pad2d_iff (l : ZeroPad2d) (x y : Shape) :
  shape_zero_pad2d l x = Some y <->
  0 <= height x + pad_top l + pad_bottom l
  /\ 0 <= width x + pad_left l + pad_right l
  /\ y = mkShape (batch x) (channels x) (height x + pad_top l + pad_bottom l)
                 (width x + pad_left l + pad_right l).
Proof.
  unfold shape_zero_pad2d. split.
  - intros H. inv_guard H. subst y. auto.
  - intros (? & ? & ->).
    match goal with
    | |- (if ?g then _ else _) = _ => assert (Hg : g = true) by (guard_true; lia)
    end.
    now rewrite Hg.
Qed.

Lemma PConv_forward_iff (training : bool) (c1 c2 k s : Z) (x y : Shape) :
  PConv_forward (R := shape_runtime training) (PConv_init c1 c2 k s) x = Some y
  <->
  PConv_accepts training c1 c2 k s x
  /\ y = mkShape (batch x) c2 (height x / s) (width x / s).
Proof.
  unfold PConv_accepts, PConv_forward, pad_at. rewrite PConv_init_pad.
  cbn [nth_error bind PConv_init cw ch cat].
  cbn [zero_pad2d torch_cat shape_runtime].
  destruct x as [n c h w]. cbn [batch channels height width].
  split.
  - intros H.
    apply bind_Some in H. destruct H as (x0 & E0 & H).
    apply bind_Some in H. destruct H as (yw0 & F0 & H).
    apply bind_Some in H. destruct H as (x1 & E1 & H).
    apply bind_Some in H. destruct H as (yw1 & F1 & H).
    apply bind_Some in H. destruct H as (x2 & E2 & H).
    apply bind_Some in H. destruct H as (yh0 & F2 & H).
    apply bind_Some in H. destruct H as (x3 & E3 & H).
    apply bind_Some in H. destruct H as (yh1 & F3 & H).
    apply bind_Some in H. destruct H as (u & Eu & H).
    apply shape_zero_pad2d_iff in E0, E1, E2, E3.
    cbn [batch channels height width pad_left pad_right pad_top pad_bottom]
      in E0, E1, E2, E3.
    destruct E0 as (_ & _ & ->), E1 as (_ & _ & ->),
             E2 as (_ & _ & ->), E3 as (_ & _ & ->).
    apply (Conv_forward_iff training c1 (c2 / 4) (Pair 1 k) 1 k s _ _ _ eq_refl)
      in F0, F1.
    apply (Conv_forward_iff training c1 (c2 / 4) (Pair k 1) k 1 s _ _ _ eq_refl)
      in F2, F3.
    cbn [batch channels height width] in F0, F1, F2, F3.
    destruct F0 as (_ & Hk & Hs & Hq & Hc1 & Hc & Hh0 & _ & _ & ->).
    destruct F1 as (_ & _ & _ & _ & _ & _ & _ & _ & _ & ->).
    destruct F2 as (_ & _ & _ & _ & _ & _ & _ & Hw0 & _ & ->).
    destruct F3 as (_ & _ & _ & _ & _ & _ & _ & _ & _ & ->).
    apply shape_cat_inv in Eu. destruct Eu as [_ ->].
    cbn [batch channels height width fold_left] in H.
    apply (Conv_forward_iff training c2 c2 (Int 2) 2 2 1 _ _ _ eq_refl) in H.
    cbn [batch channels height width] in H.
    destruct H as (_ & _ & _ & Hc2 & _ & Hsum & Hh2 & Hw2 & Hbn & ->).
    rewrite !Z.div_1_r in Hbn |- *.
    replace (h + 1 + 0 - 1) with h in * by lia.
    replace (w + k + 0 - k) with w in * by lia.
    assert (Hhs : 1 <= h / s) by lia. assert (Hws : 1 <= w / s) by lia.
    assert (s <= h).
    { destruct (Z.lt_ge_cases h s) as [Hlt|]; [| assumption].
      destruct (Z.lt_ge_cases h 0) as [Hneg|Hpos].
      - pose proof (Z.div_lt_upper_bound h s 0 Hs ltac:(lia)). lia.
      - rewrite Z.div_small in Hhs by lia. lia. }
    assert (s <= w).
    { destruct (Z.lt_ge_cases w s) as [Hlt|]; [| assumption].
      destruct (Z.lt_ge_cases w 0) as [Hneg|Hpos].
      - pose proof (Z.div_lt_upper_bound w s 0 Hs ltac:(lia)). lia.
      - rewrite Z.div_small in Hws by lia. lia. }
    replace (h / s + 1 - 2 + 1) with (h / s) in * by lia.
    replace (w / s + 1 - 2 + 1) with (w / s) in * by lia.
    repeat split; try (assumption || lia); zdiv.
  - intros ((-> & Hc1 & Hk & Hs & Hc2 & Hmod & Hh & Hw & Hbn) & ->).
    assert (Hq : 1 <= c2 / 4) by zdiv.
    assert (Hhs : 1 <= h / s) by (apply Z.div_le_lower_bound; lia).
    assert (Hws : 1 <= w / s) by (apply Z.div_le_lower_bound; lia).
    assert (P0 : forall l r t b, 0 <= l -> 0 <= r -> 0 <= t -> 0 <= b ->
               shape_zero_pad2d (mkZeroPad2d l r t b) (mkShape n c1 h w)
               = Some (mkShape n c1 (h + t + b) (w + l + r))).
    { intros. apply shape_zero_pad2d_ok; lia. }
    rewrite !P0 by lia. cbn [bind].
    assert (Fw : forall h' w', h' = h + 1 -> w' = w + k ->
               Conv_forward (R := shape_runtime training)
                 (Conv_init c1 (c2 / 4) (Pair 1 k) s (Some (Int 0)) 1 1 (ActBool true))
                 (mkShape n c1 h' w')
               = Some (mkShape n (c2 / 4) (h / s + 1) (w / s + 1))).
    { intros h' w' -> ->.
      apply (Conv_forward_iff training c1 (c2 / 4) (Pair 1 k) 1 k s _ _ _ eq_refl).
      cbn [batch channels height width].
      replace (h + 1 - 1) with h by lia. replace (w + k - k) with w by lia.
      repeat split; try lia. apply bn_accepts_large. lia. }
    assert (Fh : forall h' w', h' = h + k -> w' = w + 1 ->
               Conv_forward (R := shape_runtime training)
                 (Conv_init c1 (c2 / 4) (Pair k 1) s (Some (Int 0)) 1 1 (ActBool true))
                 (mkShape n c1 h' w')
               = Some (mkShape n (c2 / 4) (h / s + 1) (w / s + 1))).
    { intros h' w' -> ->.
      apply (Conv_forward_iff training c1 (c2 / 4) (Pair k 1) k 1 s _ _ _ eq_refl).
      cbn [batch channels height width].
      replace (h + k - k) with h by lia. replace (w + 1 - 1) with w by lia.
      repeat split; try lia. apply bn_accepts_large. lia. }
    rewrite (Fw (h + 1 + 0) (w + k + 0)) by lia. cbn [bind].
    rewrite (Fw (h + 0 + 1) (w + 0 + k)) by lia. cbn [bind].
    rewrite (Fh (h + k + 0) (w + 0 + 1)) by lia. cbn [bind].
    rewrite (Fh (h + 0 + k) (w + 1 + 0)) by lia. cbn [bind].
    rewrite shape_cat4. cbn [bind].
    replace (c2 / 4 + c2 / 4 + c2 / 4 + c2 / 4) with c2 by zdiv.
    apply (Conv_forward_iff training c2 c2 (Int 2) 2 2 1 _ _ _ eq_refl).
    cbn [batch channels height width]. rewrite !Z.div_1_r.
    replace (h / s + 1 - 2 + 1) with (h / s) by lia.
    replace (w / s + 1 - 2 + 1) with (w / s) by lia.
    repeat split; (assumption || lia).
Qed.

(** X4. [PConv] of any stride [s] returns exactly on the inputs of [c1]
    channels and of extent at least [s] in both directions, for positive
    [c1], [k], [s] and a positive [c2] divisible by 4 (in training mode
    with more than one value per output channel); the output then has
    [c2] channels and the extents divided by [s], rounded down.  In
    particular it never returns when [c2] is not a multiple of 4. *)
Theorem PConv_forward_stride (training : bool) (c1 c2 k s : Z) (x y : Shape) :
  (PConv_forward (R := shape_runtime training) (PConv_init c1 c2 k s) x = Some y
   <->
   PConv_accepts training c1 c2 k s x
   /\ y = mkShape (batch x) c2 (height x / s) (width x / s))
  /\ (c2 mod 4 <> 0 ->
      PConv_forward (R := shape_runtime training) (PConv_init c1 c2 k s) x = None).
Proof.
  split; [apply PConv_forward_iff |].
  intros Hmod.
  destruct (PConv_forward (R := shape_runtime training) (PConv_init c1 c2 k s) x)
    as [z|] eqn:Ez; [| reflexivity].
  apply PConv_forward_iff in Ez. unfold PConv_accepts in Ez. tauto.
Qed.

Lemma PConv_forward_stride_witness :
  PConv_forward (R := shape_runtime true) (PConv_init 16 32 4 2)
    (mkShape 1 16 65 64)
  = Some (mkShape 1 32 32 32)
  /\ PConv_forward (R := shape_runtime true) (PConv_init 16 30 4 2)
       (mkShape 1 16 65 64)
     = None.
Proof.
  split.
  - apply (proj1 (PConv_forward_stride true 16 32 4 2 (mkShape 1 16 65 64)
                    (mkShape 1 32 32 32))).
    unfold PConv_accepts, bn_accepts. cbn [batch channels height width].
    repeat split; try lia; try reflexivity; try (intros _; vm_compute; lia).
  - apply (proj2 (PConv_forward_stride true 16 30 4 2 (mkShape 1 16 65 64)
                    (mkShape 1 30 32 32))).
    vm_compute. lia.
Defined.

(** ** The attention units on shapes *)

Lemma shape_adaptive_pool2d_iff (o : Z) (x y : Shape) :
  shape_adaptive_pool2d o x = Some y <->
  0 <= o /\ 0 < channels x /\ 0 < height x /\ 0 < width x
  /\ y = mkShape (batch x) (channels x) o o.
Proof.
  unfold shape_adaptive_pool2d. split.
  - intros H. inv_guard H. subst y. auto.
  - intros (? & ? & ? & ? & ->).
    match goal with
    | |- (if ?g then _ else _) = _ => assert (Hg : g = true) by (guard_true; lia)
    end.
    now rewrite Hg.
Qed.

Lemma ChannelAttention_forward_iff (training : bool) (c ratio : Z)
    (x g : Shape) :
  ChannelAttention_forward (R := shape_runtime training)
    (ChannelAttention_init c ratio) x = Some g
  <->
  channels x = c /\ 16 <= c /\ 0 < height x /\ 0 < width x
  /\ g = mkShape (batch x) c 1 1.
Proof.
  split.
  - intros H. pose proof H as H0.
    unfold ChannelAttention_forward, ChannelAttention_init in H.
    cbn [conv2d adaptive_avg_pool2d adaptive_max_pool2d torch_add activation
         shape_runtime avg_pool max_pool fc1 fc2 relu1 ca_sigmoid
         avg_output_size max_output_size] in H.
    cbv [nn_Conv2d _pair] in H.
    apply bind_Some in H. destruct H as (a & Ea & H).
    apply bind_Some in H. destruct H as (a' & Ea' & H).
    apply shape_adaptive_pool2d_iff in Ea.
    destruct Ea as (_ & _ & Hh & Hw & ->).
    apply shape_conv2d_iff in Ea'. cbn [batch channels height width] in Ea'.
    destruct Ea' as (_ & _ & _ & _ & _ & Hq & _ & Hc & _ & _ & _).
    assert (H16 : 16 <= c) by zdiv.
    assert (E : ChannelAttention_forward (R := shape_runtime training)
                  (ChannelAttention_init c ratio) x = Some (mkShape (batch x) c 1 1)).
    { destruct x as [n c' h w]. cbn [batch channels height width] in *.
      subst c'. now apply ChannelAttention_forward_shape. }
    rewrite E in H0. injection H0 as <-. repeat split; assumption.
  - intros (Hc & H16 & Hh & Hw & ->).
    destruct x as [n c' h w]. cbn [batch channels height width] in *.
    subst c'. now apply ChannelAttention_forward_shape.
Qed.

(** X5. The channel attention returns exactly on the inputs of
    [in_planes] channels and positive extent, provided [in_planes] is at
    least 16; its result is one value per sample and channel.  With fewer
    than 16 channels the bottleneck has no channel and the unit returns on
    no input.  The [ratio] argument has no effect. *)
Theorem ChannelAttention_forward_accepts (training : bool)
    (in_planes ratio : Z) (x g : Shape) :
  (ChannelAttention_forward (R := shape_runtime training)
     (ChannelAttention_init in_planes ratio) x = Some g
   <->
   channels x = in_planes /\ 16 <= in_planes
   /\ 0 < height x /\ 0 < width x
   /\ g = mkShape (batch x) in_planes 1 1)
  /\ (in_planes < 16 ->
      ChannelAttention_forward (R := shape_runtime training)
        (ChannelAttention_init in_planes ratio) x = None)
  /\ (forall ratio' : Z,
        ChannelAttention_init in_planes ratio'
        = ChannelAttention_init in_planes ratio).
Proof.
  split; [apply ChannelAttention_forward_iff |]. split; [| reflexivity].
  intros Hlt.
  destruct (ChannelAttention_forward (R := shape_runtime training)
              (ChannelAttention_init in_planes ratio) x) as [z|] eqn:Ez;
    [| reflexivity].
  apply ChannelAttention_forward_iff in Ez. lia.
Qed.

Lemma ChannelAttention_forward_accepts_witness :
  ChannelAttention_forward (R := shape_runtime true)
    (ChannelAttention_init 8 16) (mkShape 1 8 64 64) = None
  /\ ChannelAttention_forward (R := shape_runtime true)
       (ChannelAttention_init 32 16) (mkShape 1 32 64 64)
     = Some (mkShape 1 32 1 1).
Proof.
  split.
  - apply (proj1 (proj2 (ChannelAttention_forward_accepts true 8 16
                           (mkShape 1 8 64 64) (mkShape 1 8 1 1)))).
    lia.
  - apply (proj1 (ChannelAttention_forward_accepts true 32 16
                    (mkShape 1 32 64 64) (mkShape 1 32 1 1))).
    cbn [batch channels height width]. repeat split; lia.
Defined.

Lemma SpatialAttention_forward_iff (training : bool) (kernel_size : Z)
    (m : SpatialAttention) (x g : Shape) :
  SpatialAttention_init kernel_size = Some m ->
  SpatialAttention_forward (R := shape_runtime training) m x = Some g
  <->
  0 < channels x /\ 0 < height x /\ 0 < width x
  /\ g = mkShape (batch x) 1 (height x) (width x).
Proof.
  intros Hm. split.
  - intros H.
    pose proof (SpatialAttention_forward_inv training kernel_size m x g Hm H)
      as Hg.
    unfold SpatialAttention_init in Hm.
    destruct ((kernel_size =? 3) || (kernel_size =? 7))%bool eqn:Hks;
      [| discriminate].
    injection Hm as <-. unfold SpatialAttention_forward in H.
    cbn [conv2d torch_mean torch_max torch_cat activation shape_runtime
         sa_conv1 sa_sigmoid] in H.
    cbv [nn_Conv2d _pair] in H.
    apply bind_Some in H. destruct H as (a & Ea & H).
    apply bind_Some in H. destruct H as (b & Eb & H).
    apply bind_Some in H. destruct H as (u & Eu & H).
    apply bind_Some in H. destruct H as (o & Eo & H).
    unfold shape_mean in Ea. injection Ea as <-.
    assert (Hc : 0 < channels x).
    { unfold shape_max in Eb. destruct (Z.ltb_spec 0 (channels x));
        [assumption | discriminate]. }
    apply shape_max_inv in Eb. subst b.
    apply shape_cat_inv in Eu. destruct Eu as [_ ->].
    cbn [batch channels height width fold_left] in Eo.
    apply shape_conv2d_iff in Eo. cbn [batch channels height width] in Eo.
    destruct Eo as (_ & _ & _ & Hp & _ & _ & _ & _ & Hh & Hw & _).
    apply orb_true_iff in Hks.
    destruct Hks as [E|E]; apply Z.eqb_eq in E; subst kernel_size;
      cbn [Z.eqb Pos.eqb] in Hh, Hw; repeat split; (assumption || lia).
  - intros (Hc & Hh & Hw & ->). destruct x as [n c h w].
    cbn [batch channels height width] in *.
    now apply (SpatialAttention_forward_shape training kernel_size).
Qed.

(** X6. The spatial attention can be built exactly for the kernel sizes 3
    and 7.  It then returns on every input with at least one channel and
    positive extent, whatever the channel count, a map of one channel and
    of the extent of the input, and on no other input. *)
Theorem SpatialAttention_forward_accepts (training : bool) (kernel_size : Z) :
  ((exists m, SpatialAttention_init kernel_size = Some m)
   <-> kernel_size = 3 \/ kernel_size = 7)
  /\ forall (m : SpatialAttention) (x g : Shape),
       SpatialAttention_init kernel_size = Some m ->
       (SpatialAttention_forward (R := shape_runtime training) m x = Some g
        <->
        0 < channels x /\ 0 < height x /\ 0 < width x
        /\ g = mkShape (batch x) 1 (height x) (width x)).
Proof.
  split.
  - unfold SpatialAttention_init.
    destruct (Z.eqb_spec kernel_size 3) as [E3|E3];
      destruct (Z.eqb_spec kernel_size 7) as [E7|E7]; cbn [orb];
      split; intros H; try (left; assumption); try (right; assumption);
      try (eexists; reflexivity).
    + destruct H as [m Hm]. discriminate.
    + lia.
  - intros m x g Hm. now apply (SpatialAttention_forward_iff training kernel_size).
Qed.

Lemma SpatialAttention_forward_accepts_witness :
  exists m : SpatialAttention,
    SpatialAttention_init 3 = Some m
    /\ SpatialAttention_forward (R := shape_runtime true) m (mkShape 2 5 9 7)
       = Some (mkShape 2 1 9 7)
    /\ SpatialAttention_init 5 = None.
Proof.
  eexists. split; [vm_compute; reflexivity |]. split.
  - apply (proj2 (SpatialAttention_forward_accepts true 3) _
             (mkShape 2 5 9 7) (mkShape 2 1 9 7) eq_refl).
    cbn [batch channels height width]. repeat split; lia.
  - destruct (SpatialAttention_init 5) as [m|] eqn:E; [| reflexivity].
    assert (H : exists m, SpatialAttention_init 5 = Some m) by eauto.
    apply (proj1 (SpatialAttention_forward_accepts true 5)) in H. lia.
Defined.

(** ** The residual block with any stride *)

Lemma stride_out_pos (h s : Z) : 0 < s -> 0 < h -> 0 < stride_out h s.
Proof.
  intros Hs Hh. unfold stride_out.
  pose proof (Z.div_pos (h - 1) s ltac:(lia) Hs). lia.
Qed.

Lemma stride_out_1 (h : Z) : stride_out h 1 = h.
Proof.
  unfold stride_out. rewrite Z.div_1_r. lia.
Qed.

(** The tail of [ResNet.forward] on a main-path tensor and a residual of
    the same shape. *)
Lemma gates_shape (training : bool) (o n h w : Z) :
  16 <= o -> 0 < h -> 0 < w ->
  let R := shape_runtime training in
  let out := mkShape n o h w in
  (g <- ChannelAttention_forward (ChannelAttention_init o 16) out ;;
   out1 <- torch_mul g out ;;
   g0 <- SpatialAttention_forward
           {| sa_conv1 := nn_Conv2d 2 1 (Int 7) (Int 1) (Int 3) (Int 1) 1 false;
              sa_sigmoid := Sigmoid |} out1 ;;
   out2 <- torch_mul g0 out1 ;;
   out3 <- torch_iadd out2 out ;;
   Some (activation ReLU out3))
  = Some out.
Proof.
  intros Ho Hh Hw R out. subst R out.
  rewrite ChannelAttention_forward_shape by lia. cbn [bind].
  cbn [torch_mul torch_iadd activation shape_runtime].
  rewrite broadcast_channel_gate. cbn [bind].
  rewrite (SpatialAttention_forward_shape training 7) by (reflexivity || lia).
  cbn [bind]. rewrite broadcast_spatial_gate. cbn [bind].
  now rewrite shape_iadd_same.
Qed.

Lemma ResNet_residual_stride (training : bool) (i o s : Z) (pc : bool)
    (m : ResNet) (x r : Shape) :
  ResNet_init i o s pc = Some m ->
  channels x = i -> 0 < i -> 1 <= o -> 0 < s -> 0 < height x -> 0 < width x ->
  ResNet_residual (R := shape_runtime training) m x = Some r
  <->
  (s = 1 /\ i = o \/ bn_accepts training (batch x) (stride_out (height x) s)
                       (stride_out (width x) s))
  /\ r = mkShape (batch x) o (stride_out (height x) s) (stride_out (width x) s).
Proof.
  intros Hm Hc Hi Ho Hs Hh Hw. apply ResNet_init_inv in Hm. subst m.
  unfold ResNet_residual. cbn [shortcut].
  destruct x as [n c h w]. cbn [batch channels height width] in *. subst c.
  destruct (Z.eqb_spec s 1) as [Es|Es]; cbn [negb orb].
  - subst s. rewrite !stride_out_1.
    destruct (Z.eqb_spec o i) as [Eo|Eo]; cbn [negb].
    + subst o. split.
      * intros H. injection H as <-. auto.
      * intros [_ ->]. reflexivity.
    + unfold shortcut_forward. cbn [fst snd conv2d batch_norm shape_runtime].
      cbv [nn_Conv2d _pair].
      rewrite (shape_conv2d_same n i h w o 1 0) by lia. cbn [bind].
      rewrite shape_batch_norm_iff. cbn [batch channels height width].
      split.
      * intros (_ & Hbn & <-). auto.
      * intros [[[_ E]|Hbn] ->]; [congruence | auto].
  - unfold shortcut_forward. cbn [fst snd conv2d batch_norm shape_runtime].
    cbv [nn_Conv2d _pair].
    assert (E1 : shape_conv2d (mkConv2d i o (1, 1) (s, s) (0, 0) (1, 1) 1 true)
                   (mkShape n i h w)
                 = Some (mkShape n o (stride_out h s) (stride_out w s))).
    { apply shape_conv2d_iff. cbn [batch channels height width].
      unfold stride_out.
      replace (h + 2 * 0 - 1) with (h - 1) by lia.
      replace (w + 2 * 0 - 1) with (w - 1) by lia.
      repeat split; lia. }
    rewrite E1. cbn [bind]. rewrite shape_batch_norm_iff.
    cbn [batch channels height width]. split.
    + intros (_ & Hbn & <-). auto.
    + intros [[[E _]|Hbn] ->]; [congruence | auto].
Qed.

Lemma ResNet_standard_iff (training : bool) (i o s : Z) (m : ResNet)
    (x y : Shape) :
  ResNet_init i o s false = Some m ->
  ResNet_forward (R := shape_runtime training) m x = Some y
  <->
  ResNet_standard_accepts training i o s x
  /\ y = mkShape (batch x) o (stride_out (height x) s) (stride_out (width x) s).
Proof.
  intros Hm.
  assert (Htotal : ResNet_standard_accepts training i o s x ->
            ResNet_forward (R := shape_runtime training) m x
            = Some (mkShape (batch x) o (stride_out (height x) s)
                      (stride_out (width x) s))).
  { intros (Hc & Hi & Ho & Hs & Hh & Hw & Hbn).
    unfold ResNet_forward.
    assert (Er : ResNet_residual (R := shape_runtime training) m x
                 = Some (mkShape (batch x) o (stride_out (height x) s)
                           (stride_out (width x) s))).
    { apply (ResNet_residual_stride training i o s false m); try (assumption || lia).
      auto. }
    rewrite Er. cbn [bind]. apply ResNet_init_inv in Hm. subst m.
    cbn [PC conv1 conv2 bn1 bn2 relu ca sa ConvLayer_forward].
    destruct x as [n c h w]. cbn [batch channels height width] in *. subst c.
    pose proof (stride_out_pos h s Hs Hh) as Hh'.
    pose proof (stride_out_pos w s Hs Hw) as Hw'.
    cbn [conv2d batch_norm activation shape_runtime].
    assert (E1 : shape_conv2d (nn_Conv2d i o (Int 3) (Int s) (Int 1) (Int 1) 1 true)
                   (mkShape n i h w)
                 = Some (mkShape n o (stride_out h s) (stride_out w s))).
    { cbv [nn_Conv2d _pair]. apply shape_conv2d_iff.
      cbn [batch channels height width]. unfold stride_out.
      replace (h + 2 * 1 - 3) with (h - 1) by lia.
      replace (w + 2 * 1 - 3) with (w - 1) by lia.
      repeat split; lia. }
    rewrite E1. cbn [bind].
    rewrite shape_batch_norm_ok by assumption. cbn [bind].
    cbv [nn_Conv2d _pair].
    rewrite (shape_conv2d_same n o (stride_out h s) (stride_out w s) o 3 1)
      by lia.
    cbn [bind]. rewrite shape_batch_norm_ok by assumption. cbn [bind].
    apply (gates_shape training o n (stride_out h s) (stride_out w s));
      assumption. }
  split; [| intros [Hacc ->]; now apply Htotal].
  intros H. pose proof H as H0. unfold ResNet_forward in H.
  apply bind_Some in H. destruct H as (r & Er & H).
  apply ResNet_init_inv in Hm. subst m.
  cbn [PC conv1 conv2 bn1 bn2 relu ca sa ConvLayer_forward] in H.
  cbn [conv2d batch_norm activation shape_runtime] in H.
  cbv [nn_Conv2d _pair] in H.
  apply bind_Some in H. destruct H as (o1 & E1 & H).
  apply bind_Some in H. destruct H as (o2 & E2 & H).
  apply bind_Some in H. destruct H as (o3 & E3 & H).
  apply bind_Some in H. destruct H as (o4 & E4 & H).
  apply bind_Some in H. destruct H as (g & Eg & H).
  apply shape_conv2d_iff in E1.
  destruct E1 as (_ & _ & Hs & _ & _ & _ & Hi & Hc & Hh & Hw & ->).
  apply shape_batch_norm_iff in E2. cbn [batch channels height width] in E2.
  destruct E2 as (_ & Hbn & ->).
  apply (shape_conv2d_same_inv _ _ 3 1) in E3; [| reflexivity].
  destruct E3 as [_ ->]. cbn [batch channels height width] in E4.
  apply shape_batch_norm_inv in E4. subst o4.
  apply ChannelAttention_forward_iff in Eg.
  cbn [batch channels height width] in Eg. destruct Eg as (_ & Ho & _).
  replace (height x + 2 * 1 - 3) with (height x - 1) in Hbn by lia.
  replace (width x + 2 * 1 - 3) with (width x - 1) in Hbn by lia.
  assert (Hacc : ResNet_standard_accepts training i o s x).
  { unfold ResNet_standard_accepts, stride_out. repeat split; (assumption || lia). }
  split; [exact Hacc |].
  rewrite (Htotal Hacc) in H0. now injection H0 as <-.
Qed.

(** X8. A residual block with partial convolutions and stride 1 returns
    exactly on the inputs of [in_channels] channels and positive extent,
    provided [out_channels] is at least 16 and divisible by 4 (in training
    mode with more than one value per channel); the output has
    [out_channels] channels and the extent of the input. *)
Theorem ResNet_partial_stride1 (training : bool) (i o : Z) (m : ResNet)
    (x y : Shape) :
  ResNet_init i o 1 true = Some m ->
  ResNet_forward (R := shape_runtime training) m x = Some y
  <->
  ResNet_partial_accepts training i o x
  /\ y = mkShape (batch x) o (height x) (width x).
Proof.
  intros Hm.
  assert (Htotal : ResNet_partial_accepts training i o x ->
            ResNet_forward (R := shape_runtime training) m x
            = Some (mkShape (batch x) o (height x) (width x))).
  { intros (Hc & Hi & Ho & Hmod & Hh & Hw & Hbn).
    unfold ResNet_forward.
    assert (Er : ResNet_residual (R := shape_runtime training) m x
                 = Some (mkShape (batch x) o (height x) (width x))).
    { apply (ResNet_residual_stride training i o 1 true m);
        try (assumption || lia).
      rewrite !stride_out_1. auto. }
    rewrite Er. cbn [bind]. apply ResNet_init_inv in Hm. subst m.
    cbn [PC conv1 conv2 bn1 bn2 relu ca sa ConvLayer_forward].
    destruct x as [n c h w]. cbn [batch channels height width] in *. subst c.
    assert (P : forall c1 k, 0 < c1 -> 0 < k ->
              PConv_forward (R := shape_runtime training) (PConv_init c1 o k 1)
                (mkShape n c1 h w)
              = Some (mkShape n o h w)).
    { intros c1 k Hc1 Hk. apply PConv_forward_iff.
      unfold PConv_accepts. cbn [batch channels height width].
      rewrite !Z.div_1_r. repeat split; (assumption || lia). }
    rewrite P by lia. cbn [bind]. rewrite P by lia. cbn [bind].
    apply (gates_shape training o n h w); assumption. }
  split; [| intros [Hacc ->]; now apply Htotal].
  intros H. pose proof H as H0. unfold ResNet_forward in H.
  apply bind_Some in H. destruct H as (r & Er & H).
  apply ResNet_init_inv in Hm. subst m.
  cbn [PC conv1 conv2 bn1 bn2 relu ca sa ConvLayer_forward] in H.
  apply bind_Some in H. destruct H as (o1 & E1 & H).
  apply bind_Some in H. destruct H as (o2 & E2 & H).
  apply bind_Some in H. destruct H as (g & Eg & H).
  apply PConv_forward_iff in E1. destruct E1 as [Hacc1 ->].
  apply PConv_forward_iff in E2. destruct E2 as [_ ->].
  cbn [batch channels height width] in Eg.
  apply ChannelAttention_forward_iff in Eg.
  cbn [batch channels height width] in Eg. destruct Eg as (_ & Ho & _).
  destruct Hacc1 as (Hc & Hi & _ & _ & _ & Hmod & Hh & Hw & Hbn).
  rewrite !Z.div_1_r in Hbn.
  assert (Hacc : ResNet_partial_accepts training i o x).
  { unfold ResNet_partial_accepts. repeat split; (assumption || lia). }
  split; [exact Hacc |].
  rewrite (Htotal Hacc) in H0. now injection H0 as <-.
Qed.

Lemma broadcast_dim_left (a b : Z) :
  broadcast_dim a b = Some a -> a = b \/ b = 1.
Proof.
  unfold broadcast_dim.
  destruct (Z.eqb_spec a b); [auto |].
  destruct (Z.eqb_spec a 1); [intros H; injection H; auto |].
  destruct (Z.eqb_spec b 1); [auto | discriminate].
Qed.

(** An in-place addition needs, in each dimension, an operand of the same
    extent or of extent 1. *)
Lemma shape_iadd_height (x r y : Shape) :
  shape_iadd x r = Some y -> height x = height r \/ height r = 1.
Proof.
  unfold shape_iadd, broadcast. intros H.
  apply bind_Some in H. destruct H as (sh & E & H).
  apply bind_Some in E. destruct E as (n & En & E).
  apply bind_Some in E. destruct E as (c & Ec & E).
  apply bind_Some in E. destruct E as (h & Eh & E).
  apply bind_Some in E. destruct E as (w & Ew & E).
  injection E as <-. unfold shape_eqb in H.
  cbn [batch channels height width] in H.
  destruct ((n =? batch x) && (c =? channels x) && (h =? height x)
            && (w =? width x))%bool eqn:G; [| discriminate].
  guard_facts. subst h. now apply broadcast_dim_left.
Qed.

(** With a stride of at least 2 the two partial convolutions shrink the
    main path twice, the shortcut once. *)
Lemma twice_strided_smaller (h s : Z) :
  2 <= s -> s <= h / s ->
  h / s / s <> stride_out h s /\ stride_out h s <> 1.
Proof.
  intros Hs Hq. unfold stride_out.
  assert (Hlt : h / s / s < h / s) by (apply Z.div_lt; lia).
  assert (Hge : h / s - 1 <= (h - 1) / s).
  { apply Z.div_le_lower_bound; [lia |].
    pose proof (Z.mul_div_le h s ltac:(lia)). nia. }
  lia.
Qed.

(** X7. A standard residual block of stride [s] returns exactly on the
    inputs of [in_channels] channels and positive extent, provided it has
    at least 16 output channels (in training mode with more than one value
    per output channel); the output has [out_channels] channels and the
    extents [(h - 1) / s + 1], the same on the main path and on the
    shortcut.  With stride 1 the extent is kept. *)
Theorem ResNet_standard_stride (training : bool) (i o s : Z) (m : ResNet)
    (x y : Shape) :
  ResNet_init i o s false = Some m ->
  (ResNet_forward (R := shape_runtime training) m x = Some y
   <->
   ResNet_standard_accepts training i o s x
   /\ y = mkShape (batch x) o (stride_out (height x) s)
                  (stride_out (width x) s))
  /\ (forall r : Shape,
        ResNet_forward (R := shape_runtime training) m x = Some y ->
        ResNet_residual (R := shape_runtime training) m x = Some r ->
        r = y)
  /\ stride_out (height x) 1 = height x.
Proof.
  intros Hm. split; [now apply ResNet_standard_iff |].
  split; [| apply stride_out_1].
  intros r Hy Hr. apply (ResNet_standard_iff training i o s m) in Hy;
    [| exact Hm].
  destruct Hy as [(Hc & Hi & Ho & Hs & Hh & Hw & _) ->].
  apply (ResNet_residual_stride training i o s false m) in Hr;
    try (assumption || lia).
  now destruct Hr as [_ ->].
Qed.

Lemma ResNet_standard_stride_witness :
  exists m : ResNet,
    ResNet_init 16 32 2 false = Some m
    /\ ResNet_forward (R := shape_runtime true) m (mkShape 1 16 65 64)
       = Some (mkShape 1 32 33 32).
Proof.
  eexists. split; [vm_compute; reflexivity |].
  apply (proj1 (ResNet_standard_stride true 16 32 2 _ (mkShape 1 16 65 64)
                  (mkShape 1 32 33 32) eq_refl)).
  unfold ResNet_standard_accepts, bn_accepts.
  cbn [batch channels height width].
  repeat split; try lia; try reflexivity. intros _. vm_compute. lia.
Defined.

Lemma ResNet_partial_stride1_witness :
  exists m : ResNet,
    ResNet_init 16 32 1 true = Some m
    /\ ResNet_forward (R := shape_runtime true) m (mkShape 1 16 64 48)
       = Some (mkShape 1 32 64 48)
    /\ ResNet_forward (R := shape_runtime true) m (mkShape 1 16 1 1) = None.
Proof.
  eexists. split; [vm_compute; reflexivity |]. split.
  - apply (proj2 (ResNet_partial_stride1 true 16 32 _ (mkShape 1 16 64 48)
                    (mkShape 1 32 64 48) eq_refl)).
    unfold ResNet_partial_accepts, bn_accepts.
    cbn [batch channels height width].
    repeat split; try lia; try reflexivity; try (intros _; vm_compute; lia).
  - match goal with
    | |- ?f = None => destruct f as [z|] eqn:E; [| reflexivity]
    end.
    apply (proj1 (ResNet_partial_stride1 true 16 32 _ (mkShape 1 16 1 1) z
                    eq_refl)) in E.
    destruct E as [(_ & _ & _ & _ & _ & _ & Hbn) _].
    exfalso. apply Hbn; reflexivity.
Defined.

(** X9. A residual block with partial convolutions and a stride other
    than 1 returns on no input: both partial convolutions apply the
    stride, so the main path is smaller than the shortcut and the
    addition fails. *)
Theorem ResNet_partial_strided_fails (training : bool) (i o s : Z)
    (m : ResNet) (x : Shape) :
  ResNet_init i o s true = Some m -> s <> 1 ->
  ResNet_forward (R := shape_runtime training) m x = None.
Proof.
  intros Hm Hs1.
  destruct (ResNet_forward (R := shape_runtime training) m x) as [y|] eqn:H;
    [exfalso | reflexivity].
  unfold ResNet_forward in H.
  apply bind_Some in H. destruct H as (r & Er & H).
  pose proof (ResNet_residual_stride training i o s true m x r Hm) as Hres.
  apply ResNet_init_inv in Hm. subst m.
  cbn [PC conv1 conv2 bn1 bn2 relu ca sa ConvLayer_forward] in H.
  apply bind_Some in H. destruct H as (o1 & E1 & H).
  apply bind_Some in H. destruct H as (o2 & E2 & H).
  apply bind_Some in H. destruct H as (g & Eg & H).
  apply bind_Some in H. destruct H as (out1 & Em1 & H).
  apply bind_Some in H. destruct H as (g0 & Eg0 & H).
  apply bind_Some in H. destruct H as (out2 & Em2 & H).
  apply bind_Some in H. destruct H as (out3 & Ea & H).
  apply PConv_forward_iff in E1. destruct E1 as [Hacc1 ->].
  apply PConv_forward_iff in E2. destruct E2 as [Hacc2 ->].
  destruct Hacc1 as (Hc & Hi & _ & Hs & Ho & _ & Hh & Hw & _).
  destruct Hacc2 as (_ & _ & _ & _ & _ & _ & Hh2 & _ & _).
  cbn [batch channels height width] in *.
  apply Hres in Er; try lia. destruct Er as [_ ->].
  apply ChannelAttention_forward_inv in Eg. destruct Eg as [_ ->].
  cbn [torch_mul torch_iadd shape_runtime batch channels height width]
    in Em1, Em2, Ea |- *.
  rewrite broadcast_channel_gate in Em1. injection Em1 as <-.
  apply (SpatialAttention_forward_inv training 7) in Eg0; [| reflexivity].
  subst g0. cbn [batch channels height width] in Em2.
  rewrite broadcast_spatial_gate in Em2. injection Em2 as <-.
  apply shape_iadd_height in Ea. cbn [height] in Ea.
  pose proof (twice_strided_smaller (height x) s ltac:(lia) Hh2) as [Hne Hne1].
  lia.
Qed.

Lemma ResNet_partial_strided_fails_witness :
  exists m : ResNet,
    ResNet_init 16 16 2 true = Some m
    /\ ResNet_forward (R := shape_runtime false) m (mkShape 1 16 64 64) = None.
Proof.
  eexists. split; [vm_compute; reflexivity |].
  apply (ResNet_partial_strided_fails false 16 16 2 _ _ eq_refl). lia.
Defined.

(** ** Stages *)

Lemma mapM_const {A B : Type} (v : option B) (l : list A) (bs : list B) :
  mapM (fun _ => v) l = Some bs ->
  length bs = length l /\ Forall (fun b => v = Some b) bs.
Proof.
  revert bs. induction l as [|a l IH]; cbn [mapM]; intros bs H.
  - injection H as <-. split; [reflexivity | constructor].
  - apply bind_Some in H. destruct H as (b & Eb & H).
    apply bind_Some in H. destruct H as (bs' & Ebs & H).
    injection H as <-. destruct (IH _ Ebs) as [Hlen Hall].
    split; [cbn [length]; now rewrite Hlen | now constructor].
Qed.

Lemma mapM_const_Some {A B : Type} (b : B) (l : list A) :
  mapM (fun _ => Some b) l = Some (repeat b (length l)).
Proof.
  induction l as [|a l IH]; cbn [mapM length repeat bind]; [reflexivity |].
  now rewrite IH.
Qed.

(** X10. [_make_layer] returns one block built from [in_channels],
    [out_channels] and the [PC] argument, followed by [block_num - 1]
    blocks built from [out_channels], [out_channels] without [PC], all
    with the default stride: [max(1, block_num)] blocks, and for
    [block_num <= 1] the first block alone.  It raises where the block
    class does: with the class [ResNet] it returns exactly when neither
    channel count is negative. *)
Theorem make_layer_structure (i o num : Z) (pc : bool) :
  (forall (block : Block) (l : list ResNet),
     _make_layer i o block num pc = Some l ->
     length l = Z.to_nat (Z.max 1 num)
     /\ exists (b : ResNet) (bs : list ResNet),
          l = b :: bs
          /\ block i o 1 pc = Some b
          /\ length bs = Z.to_nat (num - 1)
          /\ Forall (fun b' => block o o 1 false = Some b') bs)
  /\ ((exists l : list ResNet, _make_layer i o ResNet_init num pc = Some l)
      <-> 0 <= i /\ 0 <= o)
  /\ (num <= 1 ->
      forall block : Block,
        _make_layer i o block num pc
        = (b <- block i o 1 pc ;; Some [b])).
Proof.
  assert (Hgen : forall (block : Block) (l : list ResNet),
             _make_layer i o block num pc = Some l ->
             exists (b : ResNet) (bs : list ResNet),
               l = b :: bs
               /\ block i o 1 pc = Some b
               /\ length bs = Z.to_nat (num - 1)
               /\ Forall (fun b' => block o o 1 false = Some b') bs).
  { intros block l H. unfold _make_layer in H.
    apply bind_Some in H. destruct H as (b & Eb & H).
    apply bind_Some in H. destruct H as (bs & Ebs & H).
    injection H as <-. exists b, bs. split; [reflexivity |].
    split; [exact Eb |].
    apply mapM_const in Ebs. destruct Ebs as [Hlen Hall].
    split; [| exact Hall].
    rewrite Hlen. unfold range. apply length_seq. }
  split; [| split].
  - intros block l Hl. split; [| now apply Hgen].
    destruct (Hgen _ _ Hl) as (b & bs & -> & _ & Hlen & _).
    cbn [length]. rewrite Hlen. lia.
  - split.
    + intros [l Hl]. destruct (Hgen _ _ Hl) as (b & _ & _ & Eb & _).
      apply (ResNet_init_Some i o 1 pc). now exists b.
    + intros [Hi Ho].
      destruct (proj2 (ResNet_init_Some i o 1 pc) (conj Hi Ho)) as [b Eb].
      destruct (proj2 (ResNet_init_Some o o 1 false) (conj Ho Ho)) as [b' Eb'].
      unfold _make_layer. rewrite Eb, Eb'. cbn [bind].
      rewrite mapM_const_Some. cbn [bind]. now eexists.
  - intros Hnum block. unfold _make_layer, range.
    replace (Z.to_nat (num - 1)) with 0%nat by lia.
    cbn [seq mapM].
    destruct (block i o 1 pc); reflexivity.
Qed.

Lemma make_layer_structure_witness :
  (exists l : list ResNet,
     _make_layer 16 32 ResNet_init 2 false = Some l /\ length l = 2%nat)
  /\ ~ (exists l : list ResNet, _make_layer 16 (-4) ResNet_init 2 false = Some l).
Proof.
  split.
  - destruct (proj2 (proj1 (proj2 (make_layer_structure 16 32 2 false)))
                ltac:(lia)) as [l Hl].
    exists l. split; [exact Hl |].
    exact (proj1 (proj1 (make_layer_structure 16 32 2 false) _ l Hl)).
  - intros Hl.
    apply (proj1 (proj1 (proj2 (make_layer_structure 16 (-4) 2 false)))) in Hl.
    lia.
Defined.

(** ** The inputs [MSHNet.forward] accepts *)

(** What a stage of standard blocks needs of its input. *)
Lemma make_layer_forward_accepts (training : bool) (i o num : Z)
    (l : list ResNet) (x y : Shape) :
  _make_layer i o ResNet_init num false = Some l ->
  Sequential_forward (R := shape_runtime training) l x = Some y ->
  ResNet_standard_accepts training i o 1 x.
Proof.
  intros Hl H. unfold _make_layer in Hl.
  apply bind_Some in Hl. destruct Hl as (b & Eb & Hl).
  apply bind_Some in Hl. destruct Hl as (bs & Ebs & Hl).
  injection Hl as <-. cbn [app Sequential_forward] in H.
  apply bind_Some in H. destruct H as (z & Ez & _).
  apply (ResNet_standard_iff training i o 1 b) in Ez; [| exact Eb].
  now destruct Ez as [Hacc _].
Qed.

Lemma MSHNet_run_accepts (training : bool) (ic : Z) (pc : bool)
    (net : MSHNet) (x : Shape) (warm_flag : bool) (fr : Frame Shape)
    (r : list Shape * Shape) :
  MSHNet_init ic ResNet_init pc = Some net ->
  MSHNet_run (R := shape_runtime training) net x warm_flag = Some (fr, r) ->
  0 < ic
  /\ bn_accepts training (batch x) (height x / 16) (width x / 16).
Proof.
  intros Hnet H.
  pose proof (MSHNet_run_inv training ic pc net x warm_flag fr r Hnet H)
    as (a & b & Hx & Ha & Hb & Hfr & _).
  unfold MSHNet_init in Hnet.
  cbv [ch_at blk_at param_channels param_blocks nth] in Hnet.
  init_guard Hnet.
  apply bind_Some in Hnet. destruct Hnet as (l_e0 & L_e0 & Hnet).
  apply bind_Some in Hnet. destruct Hnet as (l_e1 & L_e1 & Hnet).
  apply bind_Some in Hnet. destruct Hnet as (l_e2 & L_e2 & Hnet).
  apply bind_Some in Hnet. destruct Hnet as (l_e3 & L_e3 & Hnet).
  apply bind_Some in Hnet. destruct Hnet as (l_m & L_m & Hnet).
  apply bind_Some in Hnet. destruct Hnet as (l_d3 & L_d3 & Hnet).
  apply bind_Some in Hnet. destruct Hnet as (l_d2 & L_d2 & Hnet).
  apply bind_Some in Hnet. destruct Hnet as (l_d1 & L_d1 & Hnet).
  apply bind_Some in Hnet. destruct Hnet as (l_d0 & L_d0 & Hnet).
  injection Hnet as <-.
  unfold MSHNet_run in H.
  cbn [pool up up_4 up_8 conv_init encoder_0 encoder_1 encoder_2 encoder_3
       middle_layer decoder_3 decoder_2 decoder_1 decoder_0
       output_0 output_1 output_2 output_3 final] in H.
  cbn [conv2d max_pool2d upsample torch_cat shape_runtime] in H.
  cbv [nn_Conv2d _pair] in H.
  apply bind_Some in H. destruct H as (x0 & Ex0 & H).
  apply bind_Some in H. destruct H as (y_e0 & E_e0 & H).
  apply bind_Some in H. destruct H as (p0 & P0 & H).
  apply bind_Some in H. destruct H as (y_e1 & E_e1 & H).
  apply bind_Some in H. destruct H as (p1 & P1 & H).
  apply bind_Some in H. destruct H as (y_e2 & E_e2 & H).
  apply bind_Some in H. destruct H as (p2 & P2 & H).
  apply bind_Some in H. destruct H as (y_e3 & E_e3 & H).
  apply bind_Some in H. destruct H as (p3 & P3 & H).
  apply bind_Some in H. destruct H as (y_m & E_m & H).
  apply bind_Some in H. destruct H as (u3 & U3 & H).
  apply bind_Some in H. destruct H as (c3 & C3 & H).
  apply bind_Some in H. destruct H as (y_d3 & E_d3 & H).
  apply bind_Some in H. destruct H as (u2 & U2 & H).
  apply bind_Some in H. destruct H as (c2 & C2 & H).
  apply bind_Some in H. destruct H as (y_d2 & E_d2 & H).
  apply bind_Some in H. destruct H as (u1 & U1 & H).
  apply bind_Some in H. destruct H as (c1 & C1 & H).
  apply bind_Some in H. destruct H as (y_d1 & E_d1 & H).
  apply bind_Some in H. destruct H as (u0 & U0 & H).
  apply bind_Some in H. destruct H as (c0 & C0 & H).
  apply bind_Some in H. destruct H as (y_d0 & E_d0 & H).
  cbv zeta in H.
  assert (Hfr' : fr = mkFrame y_e0 y_e1 y_e2 y_e3 y_m y_d3 y_d2 y_d1 y_d0).
  { destruct warm_flag.
    - do 9 inv_bind H. now injection H as <- _.
    - inv_bind H. now injection H as <- _. }
  rewrite Hfr in Hfr'. unfold stage_shapes in Hfr'.
  assert (Ey3 : y_e3 = mkShape (batch x) 128 (2 * a) (2 * b))
    by (apply (f_equal (@x_e3 Shape)) in Hfr'; symmetry; exact Hfr').
  subst y_e3. clear Hfr'.
  apply shape_conv2d_iff in Ex0.
  destruct Ex0 as (_ & _ & _ & _ & _ & _ & Hic & _).
  split; [exact Hic |].
  rewrite (shape_max_pool2d_half (batch x) 128 (2 * a) (2 * b) a b) in P3
    by lia.
  injection P3 as <-.
  apply (make_layer_forward_accepts training 128 256 2 l_m) in E_m;
    [| exact L_m].
  destruct E_m as (_ & _ & _ & _ & _ & _ & Hbn).
  cbn [batch height width] in Hbn. rewrite !stride_out_1 in Hbn.
  rewrite Hx. cbn [batch height width].
  replace (16 * a / 16) with a by zdiv. replace (16 * b / 16) with b by zdiv.
  exact Hbn.
Qed.

(** X11. On a tensor with at least one sample, [MSHNet(ic, PC=pc)]
    returns exactly when the input has [ic] channels, [ic] is positive,
    both extents are positive multiples of 16 and, in training mode, the
    bottleneck holds more than one value per channel; in supervision mode
    it then returns the four maps at the extents H, H/2, H/4, H/8 and the
    fused map, in default mode the empty list and one map.  Any other
    input is rejected. *)
Theorem MSHNet_accepts_iff (training : bool) (ic : Z) (pc : bool) (x : Shape)
    (warm_flag : bool) (r : list Shape * Shape) :
  0 < batch x ->
  MSHNet_shapes training ic pc x warm_flag = Some r
  <->
  channels x = ic /\ 0 < ic /\ 0 < height x /\ 0 < width x
  /\ height x mod 16 = 0 /\ width x mod 16 = 0
  /\ bn_accepts training (batch x) (height x / 16) (width x / 16)
  /\ r = (if warm_flag
          then [mkShape (batch x) 1 (height x) (width x);
                mkShape (batch x) 1 (height x / 2) (width x / 2);
                mkShape (batch x) 1 (height x / 4) (width x / 4);
                mkShape (batch x) 1 (height x / 8) (width x / 8)]
          else [],
          mkShape (batch x) 1 (height x) (width x)).
Proof.
  intros Hn. split.
  - intros H. pose proof H as H0.
    unfold MSHNet_shapes, MSHNet_call, MSHNet_forward in H.
    apply bind_Some in H. destruct H as (net & Hnet & H).
    destruct (MSHNet_run net x warm_flag) as [[fr r']|] eqn:Hrun;
      [| discriminate].
    pose proof (MSHNet_run_accepts training ic pc net x warm_flag fr r'
                  Hnet Hrun) as [Hic Hbn].
    apply (MSHNet_run_inv training ic pc) in Hrun; [| exact Hnet].
    destruct Hrun as (a & b & Hx & _).
    assert (Hc : channels x = ic) by (rewrite Hx; reflexivity).
    destruct x as [n c h w]. cbn [batch channels height width] in *.
    subst c. apply MSHNet_shapes_inv in H0.
    destruct H0 as (HmH & HmW & Hh & Hw & ->).
    repeat split; assumption.
  - intros (Hc & Hic & Hh & Hw & HmH & HmW & Hbn & ->).
    destruct x as [n c h w]. cbn [batch channels height width] in *.
    subst c.
    destruct (MSHNet_shapes_total training ic pc n h w warm_flag)
      as (net & Hnet & Hrun); try assumption.
    unfold MSHNet_shapes, MSHNet_call, MSHNet_forward.
    rewrite Hnet. cbn [bind]. now rewrite Hrun.
Qed.

Lemma MSHNet_accepts_iff_witness :
  MSHNet_shapes false 3 false (mkShape 2 3 32 48) false
  = Some ([], mkShape 2 1 32 48)
  /\ MSHNet_shapes true 3 false (mkShape 1 3 16 16) true = None
  /\ MSHNet_shapes false 3 false (mkShape 1 3 24 16) true = None.
Proof.
  split; [| split].
  - apply (proj2 (MSHNet_accepts_iff false 3 false (mkShape 2 3 32 48) false _
                    ltac:(cbn; lia))).
    cbn [batch channels height width].
    repeat split; try lia; try reflexivity. discriminate.
  - match goal with
    | |- ?f = None => destruct f as [z|] eqn:E; [| reflexivity]
    end.
    apply (proj1 (MSHNet_accepts_iff true 3 false (mkShape 1 3 16 16) true z
                    ltac:(cbn; lia))) in E.
    destruct E as (_ & _ & _ & _ & _ & _ & Hbn & _).
    exfalso. apply Hbn; reflexivity.
  - match goal with
    | |- ?f = None => destruct f as [z|] eqn:E; [| reflexivity]
    end.
    apply (proj1 (MSHNet_accepts_iff false 3 false (mkShape 1 3 24 16) true z
                    ltac:(cbn; lia))) in E.
    destruct E as (_ & _ & _ & _ & HmH & _).
    cbn [height] in HmH. vm_compute in HmH. discriminate.
Defined.

(** X12. Whenever [MSHNet.forward] returns, every decoder stage output
    has the shape of the encoder stage output of its level, the encoder
    widths are 16, 32, 64, 128 and the bottleneck width is 256, and each
    level halves the extent of the level above: the extent of the input is
    16 times the extent at the bottleneck. *)
Theorem MSHNet_stage_shapes (training : bool) (ic : Z) (pc : bool)
    (net : MSHNet) (x : Shape) (warm_flag : bool) (fr : Frame Shape)
    (r : list Shape * Shape) :
  MSHNet_init ic ResNet_init pc = Some net ->
  MSHNet_run (R := shape_runtime training) net x warm_flag = Some (fr, r) ->
  x_d0 fr = x_e0 fr /\ x_d1 fr = x_e1 fr
  /\ x_d2 fr = x_e2 fr /\ x_d3 fr = x_e3 fr
  /\ x_e0 fr = mkShape (batch x) 16 (height x) (width x)
  /\ x_e1 fr = mkShape (batch x) 32 (height x / 2) (width x / 2)
  /\ x_e2 fr = mkShape (batch x) 64 (height x / 4) (width x / 4)
  /\ x_e3 fr = mkShape (batch x) 128 (height x / 8) (width x / 8)
  /\ x_m fr = mkShape (batch x) 256 (height x / 16) (width x / 16)
  /\ height x = 16 * height (x_m fr) /\ width x = 16 * width (x_m fr).
Proof.
  intros Hnet Hrun.
  apply (MSHNet_run_inv training ic pc) in Hrun; [| exact Hnet].
  destruct Hrun as (a & b & Hx & Ha & Hb & -> & _).
  rewrite Hx. unfold stage_shapes. cbn [batch channels height width
    x_e0 x_e1 x_e2 x_e3 x_m x_d3 x_d2 x_d1 x_d0].
  replace (16 * a / 2) with (8 * a) by zdiv.
  replace (16 * b / 2) with (8 * b) by zdiv.
  replace (16 * a / 4) with (4 * a) by zdiv.
  replace (16 * b / 4) with (4 * b) by zdiv.
  replace (16 * a / 8) with (2 * a) by zdiv.
  replace (16 * b / 8) with (2 * b) by zdiv.
  replace (16 * a / 16) with a by zdiv.
  replace (16 * b / 16) with b by zdiv.
  repeat match goal with |- _ /\ _ => split end; reflexivity.
Qed.

Lemma MSHNet_stage_shapes_witness :
  exists (net : MSHNet) (fr : Frame Shape) (r : list Shape * Shape),
    MSHNet_init 3 ResNet_init true = Some net
    /\ MSHNet_run (R := shape_runtime true) net (mkShape 1 3 32 64) false
       = Some (fr, r)
    /\ x_d3 fr = x_e3 fr
    /\ x_m fr = mkShape 1 256 2 4.
Proof.
  eexists. exists (stage_shapes 1 2 4), ([], mkShape 1 1 32 64).
  split; [vm_compute; reflexivity |].
  match goal with
  | |- MSHNet_run ?n ?x false = Some (?f, ?r1) /\ _ =>
      assert (H1 : MSHNet_run (R := shape_runtime true) n x false = Some (f, r1))
        by (vm_compute; reflexivity);
      pose proof (MSHNet_stage_shapes true 3 true n x false f r1 eq_refl H1)
        as (_ & _ & _ & Hd3 & _ & _ & _ & _ & Hm & _)
  end.
  split; [exact H1 |]. split; [exact Hd3 | exact Hm].
Defined.

(** ** The two modes of [MSHNet.forward], for every runtime *)

(** X13. In every runtime, when the supervision mode returns, its first
    auxiliary map is the map the default mode returns on the same input:
    both are [output_0] of the finest decoder output. *)
Theorem MSHNet_first_mask_is_default {T : Type} {R : Runtime T}
    (net : MSHNet) (x : T) (fr : Frame T) (masks : list T) (output : T) :
  MSHNet_run net x true = Some (fr, (masks, output)) ->
  exists (mask0 mask1 mask2 mask3 : T),
    masks = [mask0; mask1; mask2; mask3]
    /\ MSHNet_run net x false = Some (fr, ([], mask0)).
Proof.
  unfold MSHNet_run. intros H.
  do 22 (apply bind_Some in H; destruct H as (? & Eq & H);
         rewrite Eq; cbn [bind]; clear Eq).
  cbv zeta in H |- *.
  apply bind_Some in H. destruct H as (mask0 & E0 & H).
  apply bind_Some in H. destruct H as (mask1 & E1 & H).
  apply bind_Some in H. destruct H as (mask2 & E2 & H).
  apply bind_Some in H. destruct H as (mask3 & E3 & H).
  do 5 inv_bind H. injection H as <- <- <-.
  exists mask0, mask1, mask2, mask3. split; [reflexivity |].
  rewrite E0. reflexivity.
Qed.

Lemma MSHNet_first_mask_is_default_witness :
  exists net : MSHNet,
    MSHNet_init 3 ResNet_init false = Some net
    /\ MSHNet_run (R := shape_runtime true) net (mkShape 1 3 32 32) false
       = Some (stage_shapes 1 2 2, ([], mkShape 1 1 32 32)).
Proof.
  eexists. split; [vm_compute; reflexivity |].
  match goal with
  | |- MSHNet_run ?n ?x false = Some (?f, _) =>
      assert (H1 : MSHNet_run (R := shape_runtime true) n x true
                   = Some (f, ([mkShape 1 1 32 32; mkShape 1 1 16 16;
                                mkShape 1 1 8 8; mkShape 1 1 4 4],
                               mkShape 1 1 32 32)))
        by (vm_compute; reflexivity);
      destruct (MSHNet_first_mask_is_default n x f _ _ H1)
        as (m0 & m1 & m2 & m3 & Em & Hrun)
  end.
  injection Em as <- _ _ _. exact Hrun.
Defined.
